(** * EoxsAI conversational-turn orchestrator: a shallow embedding

    The development follows the TypeScript sources

    - [src/server/api/routes/messages.ts]   (response enhancer, message routes),
    - [src/server/services/embeddingService.ts] (embedding / RAG client),
    - [src/server/services/openai.ts]       (keyword memory recall),

    and states the properties of the natural-language specification over
    them.  Strings are JavaScript strings (sequences of UTF-16 code units),
    the Mongoose collections are lists of documents, and the routes run in
    a small state-and-exception monad over the collections and the log of
    outgoing HTTP calls. *)

From Stdlib Require Import String Ascii DecimalString List Sorted.
From Stdlib Require Import Arith NArith Bool Lia.
Import ListNotations.

(* ================================================================== *)
(** * JavaScript strings *)
(* ================================================================== *)

Module JS.

(** A JavaScript string is a finite sequence of 16-bit code units;
    [s.length] counts code units. *)
Definition code_unit := N.
Definition jsstring := list code_unit.

(** String literals of the sources are ASCII; [lit] reads one as a
    JavaScript string. *)
Fixpoint lit (s : string) : jsstring :=
  match s with
  | EmptyString => []
  | String c s' => N_of_ascii c :: lit s'
  end.

(** [a === b] on strings. *)
Fixpoint eqb (a b : jsstring) : bool :=
  match a, b with
  | [], [] => true
  | x :: a', y :: b' => N.eqb x y && eqb a' b'
  | _, _ => false
  end.

(** Truthiness of a string: only the empty string is falsy. *)
Definition truthy (s : jsstring) : bool :=
  match s with [] => false | _ :: _ => true end.

(** [a || b] on strings. *)
Definition or_else (a b : jsstring) : jsstring :=
  if truthy a then a else b.

(** Truthiness of a possibly missing ([undefined]) string. *)
Definition truthy_opt (o : option jsstring) : bool :=
  match o with Some s => truthy s | None => false end.

(** [o || b] where [o] may be [undefined]. *)
Definition opt_or (o : option jsstring) (b : jsstring) : jsstring :=
  match o with Some s => or_else s b | None => b end.

(** [s.substring(0, n)]. *)
Definition substring0 (n : nat) (s : jsstring) : jsstring := firstn n s.

(** [s.startsWith(p)]. *)
Fixpoint startsWith (s p : jsstring) : bool :=
  match p, s with
  | [], _ => true
  | x :: p', y :: s' => N.eqb x y && startsWith s' p'
  | _ :: _, [] => false
  end.

(** [s.includes(p)]. *)
Fixpoint includes (s p : jsstring) : bool :=
  startsWith s p ||
  match s with
  | [] => false
  | _ :: s' => includes s' p
  end.

(** [list.includes(x)] on an array of strings. *)
Definition mem (x : jsstring) (l : list jsstring) : bool :=
  existsb (eqb x) l.

(** Code units below 128 are the ASCII characters. *)
Definition is_ascii (c : code_unit) : bool := (c <? 128)%N.

(** What [toLowerCase] does to an ASCII code unit. *)
Definition ascii_lower (c : code_unit) : code_unit :=
  if ((65 <=? c) && (c <=? 90))%N then (c + 32)%N else c.

(** The white space class [\s] of JavaScript regular expressions. *)
Definition is_space (c : code_unit) : bool :=
  ((9 <=? c) && (c <=? 13) || (c =? 32) || (c =? 160) || (c =? 5760)
   || (8192 <=? c) && (c <=? 8202) || (c =? 8232) || (c =? 8233)
   || (c =? 8239) || (c =? 8287) || (c =? 12288) || (c =? 65279))%N.

(** [s.split(/\s+/)]: the pieces between maximal runs of white space.
    A leading or trailing run leaves an empty first or last piece, and
    the empty string splits into one empty piece.  [cur] is the piece
    being read, reversed; [in_run] tells whether the previous code unit
    was white space. *)
Fixpoint split_ws_from (cur : jsstring) (in_run : bool) (s : jsstring)
  : list jsstring :=
  match s with
  | [] => [rev cur]
  | c :: s' =>
      if is_space c then
        if in_run then split_ws_from [] true s'
        else rev cur :: split_ws_from [] true s'
      else split_ws_from (c :: cur) false s'
  end.

Definition split_ws (s : jsstring) : list jsstring :=
  split_ws_from [] false s.

(** [arr.pop()] read as the last element, if any. *)
Definition pop (l : list jsstring) : option jsstring :=
  match rev l with [] => None | x :: _ => Some x end.

(** Decimal rendering of a number inside a template literal. *)
Definition of_nat (n : nat) : jsstring :=
  lit (NilEmpty.string_of_uint (Nat.to_uint n)).

(** Values an expression of declared type [string] can actually hold in
    [enhanceResponse]: a string, [undefined], or a member inherited from
    [Object.prototype] (a function, or the prototype object itself). *)
Inductive value :=
| VString (s : jsstring)
| VUndefined
| VInherited (name : jsstring).

Definition truthy_value (v : value) : bool :=
  match v with
  | VString s => truthy s
  | VUndefined => false
  | VInherited _ => true
  end.

(** The property names every ordinary object inherits from
    [Object.prototype]. *)
Definition objectPrototypeMembers : list jsstring :=
  map lit
    [ "constructor"; "__defineGetter__"; "__defineSetter__"; "hasOwnProperty";
      "__lookupGetter__"; "__lookupSetter__"; "isPrototypeOf";
      "propertyIsEnumerable"; "toString"; "valueOf"; "__proto__";
      "toLocaleString" ]%string.

Fixpoint assoc (k : jsstring) (own : list (jsstring * jsstring))
  : option jsstring :=
  match own with
  | [] => None
  | (k', v) :: own' => if eqb k k' then Some v else assoc k own'
  end.

(** [obj[k]] on an object literal with string-valued own properties:
    own properties first, then the prototype chain. *)
Definition getProperty (own : list (jsstring * jsstring)) (k : jsstring)
  : value :=
  match assoc k own with
  | Some v => VString v
  | None => if mem k objectPrototypeMembers then VInherited k else VUndefined
  end.

End JS.

Import JS.

(* ================================================================== *)
(** * ResponseEnhancer ([enhanceResponse], messages.ts) *)
(* ================================================================== *)

Module Enhancer.

(** The keys of [enhancedResponses]: the known boilerplate fallbacks. *)
Definition fallback_no_response : jsstring :=
  lit "Sorry, I could not generate a response."%string.

Definition fallback_no_retrieval : jsstring :=
  lit "I couldn't retrieve relevant information at the moment. How else can I assist you?"%string.

Definition fallback_not_configured : jsstring :=
  lit "I couldn't access my extended knowledge at the moment. The embedding service is not configured."%string.

Definition fallback_received : jsstring :=
  lit "I received your message."%string.

(** Their richer substitutes. *)
Definition enhanced_no_response : jsstring :=
  lit "I apologize, but I'm having trouble generating a response right now. This could be due to a temporary issue with my knowledge base or the complexity of your question. Could you please try rephrasing your question or ask something more specific? I'm here to help and want to provide you with the best possible assistance."%string.

Definition enhanced_no_retrieval : jsstring :=
  lit "I'm currently unable to access my extended knowledge base, but I'd be happy to help you with general questions or discuss topics based on my core knowledge. What would you like to know? I can assist with various subjects including technology, programming, general knowledge, and more."%string.

Definition enhanced_not_configured : jsstring :=
  lit "I'm currently operating with limited access to my knowledge base, but I can still help you with many topics. What specific question do you have? I can provide general information, help with programming questions, explain concepts, or assist with various other subjects."%string.

Definition enhanced_received : jsstring :=
  lit "Thank you for your message! I'd be happy to help you with any questions or topics you'd like to discuss. Could you please provide more details about what you'd like to know? The more specific you are, the better I can assist you."%string.

(** The canned elaborations of the four query categories. *)
Definition greeting_elaboration : jsstring :=
  lit "Hello! I'm here to help you with any questions or topics you'd like to explore. Whether you need help with programming, want to learn about new technologies, discuss ideas, or just have a conversation, I'm ready to assist. What would you like to talk about today?"%string.

Definition help_elaboration : jsstring :=
  lit "I'm here to help! I can assist you with a wide range of topics including programming, technology, general knowledge, problem-solving, and more. Just let me know what specific area you need help with, and I'll do my best to provide detailed, helpful information. What can I help you with today?"%string.

Definition thanks_elaboration : jsstring :=
  lit "You're very welcome! I'm glad I could help. If you have any more questions or need assistance with anything else, feel free to ask. I'm here to help with programming, technology, general knowledge, or any other topics you'd like to explore. What else can I assist you with?"%string.

Definition farewell_elaboration : jsstring :=
  lit "Goodbye! It was great chatting with you. Feel free to return anytime if you have more questions or need assistance. I'm always here to help with programming, technology, learning, or any other topics you're interested in. Have a wonderful day!"%string.

(** The tail of the template literal of the generic enhancement. *)
Definition generic_suffix : jsstring :=
  lit " I'd be happy to provide more detailed information or help you explore this topic further. Could you please let me know what specific aspects you'd like me to elaborate on? I can provide examples, explanations, or discuss related concepts to give you a more comprehensive understanding."%string.

(** The object literal [enhancedResponses]. *)
Definition enhancedResponses : list (jsstring * jsstring) :=
  [ (fallback_no_response, enhanced_no_response);
    (fallback_no_retrieval, enhanced_no_retrieval);
    (fallback_not_configured, enhanced_not_configured);
    (fallback_received, enhanced_received) ].

Section Enhance.

(** [String.prototype.toLowerCase] is supplied by the JavaScript engine. *)
Variable toLowerCase : jsstring -> jsstring.

(** [enhanceResponse(originalResponse, userQuery)], lines 23-70. *)
Definition enhanceResponse (originalResponse userQuery : jsstring) : value :=
  if 200 <? length originalResponse then VString originalResponse
  else
    let specific := getProperty enhancedResponses originalResponse in
    if truthy_value specific then specific
    else
      let queryLower := toLowerCase userQuery in
      if includes queryLower (lit "hello"%string) || includes queryLower (lit "hi"%string)
      then VString greeting_elaboration
      else if includes queryLower (lit "help"%string)
              || includes queryLower (lit "assist"%string)
      then VString help_elaboration
      else if includes queryLower (lit "thanks"%string)
              || includes queryLower (lit "thank you"%string)
      then VString thanks_elaboration
      else if includes queryLower (lit "bye"%string)
              || includes queryLower (lit "goodbye"%string)
      then VString farewell_elaboration
      else VString (originalResponse ++ generic_suffix).

End Enhance.

End Enhancer.

(* ================================================================== *)
(** * Documents, collections and the effects of a request *)
(* ================================================================== *)

Module DB.

(** A Mongoose [ObjectId]; [toString] is injective on ids, so an id also
    stands for its string form. *)
Definition oid := nat.

(** An identifier as it arrives in a request body. *)
Inductive rawId :=
| WellFormed (i : oid)
| Malformed.

(** [mongoose.Types.ObjectId.isValid]. *)
Definition isValid (r : rawId) : bool :=
  match r with WellFormed _ => true | Malformed => false end.

Record Thread := mkThread {
  thread_id : oid;
  thread_userId : jsstring;
  thread_title : jsstring;
  thread_isActive : bool;
  thread_createdBy : jsstring;
  thread_createdAt : nat;
  thread_updatedAt : nat
}.

Record Message := mkMessage {
  message_id : oid;
  message_threadId : oid;
  message_content : jsstring;
  message_sender : jsstring;
  message_files : list jsstring;
  message_createdAt : nat;
  message_updatedAt : nat
}.

(** The fields handed to [new Message({...})] or to [insertMany]. *)
Record MessageDraft := mkDraft {
  draft_threadId : oid;
  draft_content : jsstring;
  draft_sender : jsstring;
  draft_files : list jsstring
}.

(** Bodies of the two HTTP endpoints of the embedding server. *)
Record EmbedRequest := mkEmbedRequest {
  embed_userId : jsstring;
  embed_threadId : option oid;
  embed_content : jsstring;
  embed_messageId : option oid
}.

Record RagRequest := mkRagRequest {
  rag_userId : jsstring;
  rag_threadId : option oid;
  rag_query : jsstring
}.

(** Interface [EmbeddingResponse] (the vector is never read). *)
Record EmbeddingResponse := mkEmbeddingResponse {
  embedding_status : jsstring;
  embedding_error : option jsstring
}.

(** Interface [RAGResponse]; the body comes unchecked from the server,
    so each field may be missing (the matches are never read). *)
Record RAGResponse := mkRAGResponse {
  rag_answer : option jsstring;
  rag_context : option jsstring;
  rag_responseId : option jsstring
}.

(** What [axios.post] does: a 2xx reply carries a body ([None] is a
    [null] body); a non-2xx status, a timeout or a network error is an
    axios error, with the status of the reply when there was one;
    anything else thrown is not an axios error. *)
Inductive HttpResult (A : Type) :=
| HttpOk (data : option A)
| HttpAxiosError (status : option nat) (message : jsstring)
| HttpOtherError.

Arguments HttpOk {A} data.
Arguments HttpAxiosError {A} status message.
Arguments HttpOtherError {A}.

(** Operations on outside collaborators that a request performs, in
    order. *)
Inductive Call :=
| CallEmbed (r : EmbedRequest)
| CallRagGenerate (r : RagRequest)
| CallFindMessages (thread : oid) (pattern : jsstring).

(** The collaborators of one server process. *)
Record Env := mkEnv {
  (** [EMBEDDING_API_URL] is configured *)
  apiUrl_set : bool;
  (** the server behind [POST /embed] *)
  postEmbed : EmbedRequest -> HttpResult EmbeddingResponse;
  (** the server behind [POST /rag-generate] *)
  postRagGenerate : RagRequest -> HttpResult RAGResponse;
  (** the [Message] schema (src/models/message.ts) accepts the document *)
  messageAccepted : MessageDraft -> bool
}.

(** The two collections, the id and time sources, and the log of
    calls. *)
Record World := mkWorld {
  threads : list Thread;
  messages : list Message;
  nextId : oid;
  now : nat;
  calls : list Call
}.

Inductive Exception :=
| ValidationError (msg : jsstring)
| NotFoundError (msg : jsstring)
| UnauthorizedError (msg : jsstring)
| TypeError
| SyntaxError
| CastError
| BSONError
| PersistenceError
| AxiosError (status : option nat) (message : jsstring)
| OtherError.

Inductive Completion (A : Type) :=
| Normal (a : A)
| Throw (e : Exception).

Arguments Normal {A} a.
Arguments Throw {A} e.

(** An [async] function body: it runs on the world, completes normally
    or throws, and leaves the world as changed up to that point (there
    is no rollback). *)
Definition M (A : Type) := World -> Completion A * World.

Definition ret {A} (a : A) : M A := fun w => (Normal a, w).

Definition throw {A} (e : Exception) : M A := fun w => (Throw e, w).

Definition bind {A B} (m : M A) (k : A -> M B) : M B :=
  fun w =>
    match m w with
    | (Normal a, w') => k a w'
    | (Throw e, w') => (Throw e, w')
    end.

(** [try { m } catch (e) { h e }]. *)
Definition try_catch {A} (m : M A) (h : Exception -> M A) : M A :=
  fun w =>
    match m w with
    | (Normal a, w') => (Normal a, w')
    | (Throw e, w') => h e w'
    end.

Definition log_call (c : Call) : M unit :=
  fun w =>
    (Normal tt,
     mkWorld (threads w) (messages w) (nextId w) (now w) (calls w ++ [c])).

Declare Scope js_scope.
Delimit Scope js_scope with js.
Notation "x <- m ;; k" := (bind m (fun x => k))
  (at level 61, m at next level, right associativity) : js_scope.
Notation "m ;;; k" := (bind m (fun _ => k))
  (at level 61, right associativity) : js_scope.

(** ** The [Thread] collection *)

(** [Thread.findById(id)]. *)
Definition findThreadById (i : oid) (w : World) : option Thread :=
  find (fun t => thread_id t =? i) (threads w).

Definition newer (best : option Thread) (t : Thread) : option Thread :=
  match best with
  | None => Some t
  | Some b => if thread_updatedAt b <? thread_updatedAt t then Some t else Some b
  end.

(** [Thread.findOne({userId, isActive: true}).sort({updatedAt: -1})]. *)
Definition findActiveThread (userId : jsstring) (w : World) : option Thread :=
  fold_left newer
    (filter (fun t => JS.eqb (thread_userId t) userId && thread_isActive t)
            (threads w))
    None.

(** Modelled from the spec: the schema file src/models/thread.ts is not
    part of the sources; [Thread.create({userId, title, createdBy,
    isActive: true})] stores the document with a fresh id and both
    timestamps set to the current time. *)
Definition createThread (userId title createdBy : jsstring) : M Thread :=
  fun w =>
    let t := mkThread (nextId w) userId title true createdBy (now w) (now w) in
    (Normal t,
     mkWorld (threads w ++ [t]) (messages w) (S (nextId w)) (S (now w))
             (calls w)).

Definition touch (i : oid) (time : nat) (t : Thread) : Thread :=
  if thread_id t =? i
  then mkThread (thread_id t) (thread_userId t) (thread_title t)
                (thread_isActive t) (thread_createdBy t) (thread_createdAt t)
                time
  else t.

(** [Thread.findByIdAndUpdate(id, {updatedAt: new Date()})], on a store
    that carries the update out; an update that the store rejects is
    part of [TurnFaults]. *)
Definition touchThread (i : oid) : M unit :=
  fun w =>
    (Normal tt,
     mkWorld (map (touch i (now w)) (threads w)) (messages w) (nextId w)
             (S (now w)) (calls w)).

(** ** The [Message] collection *)

Definition instantiate (i : oid) (time : nat) (d : MessageDraft) : Message :=
  mkMessage i (draft_threadId d) (draft_content d) (draft_sender d)
            (draft_files d) time time.

Fixpoint instantiate_all (i : oid) (time : nat) (ds : list MessageDraft)
  : list Message :=
  match ds with
  | [] => []
  | d :: ds' => instantiate i time d :: instantiate_all (S i) time ds'
  end.

Section Collections.

Variable env : Env.

(** Modelled from the spec: the schema file src/models/message.ts is not
    part of the sources; [new Message(d)] followed by [save()] stores the
    document with a fresh id and both timestamps set to the current time,
    and throws when the schema rejects the document. *)
Definition saveMessage (d : MessageDraft) : M Message :=
  fun w =>
    if messageAccepted env d then
      let m := instantiate (nextId w) (now w) d in
      (Normal m,
       mkWorld (threads w) (messages w ++ [m]) (S (nextId w)) (S (now w))
               (calls w))
    else (Throw PersistenceError, w).

(** Modelled from the spec: [Message.insertMany(ds)] is the all-or-nothing
    bulk append; Mongoose validates every document before it writes any,
    so one rejected document leaves the collection as it was. *)
Definition insertMany (ds : list MessageDraft) : M (list Message) :=
  fun w =>
    if forallb (messageAccepted env) ds then
      let ms := instantiate_all (nextId w) (now w) ds in
      (Normal ms,
       mkWorld (threads w) (messages w ++ ms) (nextId w + length ds)
               (S (now w)) (calls w))
    else (Throw PersistenceError, w).

(** ** The HTTP client *)

Definition http {A} (r : HttpResult A) : M (option A) :=
  match r with
  | HttpOk data => ret data
  | HttpAxiosError status message => throw (AxiosError status message)
  | HttpOtherError => throw OtherError
  end.

(** [axios.post(`${apiUrl}/embed`, r)]. *)
Definition axiosPostEmbed (r : EmbedRequest) : M (option EmbeddingResponse) :=
  bind (log_call (CallEmbed r)) (fun _ => http (postEmbed env r)).

(** [axios.post(`${apiUrl}/rag-generate`, r)]. *)
Definition axiosPostRagGenerate (r : RagRequest) : M (option RAGResponse) :=
  bind (log_call (CallRagGenerate r)) (fun _ => http (postRagGenerate env r)).

End Collections.

End DB.

Import DB.

(* ================================================================== *)
(** * EmbeddingService (embeddingService.ts) *)
(* ================================================================== *)

Module EmbeddingService.

(** The answer literal of the disabled branch of [getRAGResponse]
    (line 140). *)
Definition disabled_answer : jsstring :=
  lit "I'm currently having trouble accessing my extended knowledge base, but I'd be happy to help you with general questions or discuss topics based on my core knowledge. What would you like to know? I can assist with various subjects including technology, programming, general knowledge, and more. Just let me know what you're interested in, and I'll provide the best possible response with the information available to me."%string.

(** The context literal of the disabled branch (line 141). *)
Definition disabled_context : jsstring :=
  lit "Embedding Service disabled: No API URL available"%string.

(** The answer literal of the [catch] branch (line 184). *)
Definition failure_answer : jsstring :=
  lit "I'm currently having trouble accessing my extended knowledge base, but I'd be happy to help you with general questions or discuss topics based on my core knowledge. What would you like to know? I can assist with various subjects including technology, programming, general knowledge, and more. Just let me know what you're interested in, and I'll provide the best possible response with the information available to me."%string.

(** The context literal of the [catch] branch (line 185). *)
Definition failure_context : jsstring :=
  lit "Error retrieving context"%string.

Definition disabled_error : jsstring :=
  lit "Embedding Service is disabled: No API URL available"%string.

Section Service.

Variable env : Env.

(** [this.enabled = !!this.apiUrl], read through [isEnabled()]. *)
Definition isEnabled : bool := apiUrl_set env.

(** [`API error: ${error.response?.status || 'unknown'} - ${error.message}`] *)
Definition api_error (status : option nat) (message : jsstring) : jsstring :=
  lit "API error: "%string
  ++ match status with
     | Some (S n) => of_nat (S n)
     | _ => lit "unknown"%string
     end
  ++ lit " - "%string ++ message.

(** [createEmbedding(userId, content, threadId?, messageId?)],
    lines 56-116.  The result is [response.data] as received. *)
Definition createEmbedding (userId content : jsstring)
           (threadId messageId : option oid) : M (option EmbeddingResponse) :=
  if negb isEnabled then
    ret (Some (mkEmbeddingResponse (lit "error"%string) (Some disabled_error)))
  else
    try_catch
      (axiosPostEmbed env (mkEmbedRequest userId threadId content messageId))
      (fun error =>
         match error with
         | AxiosError status message =>
             ret (Some (mkEmbeddingResponse (lit "error"%string)
                                            (Some (api_error status message))))
         | _ =>
             ret (Some (mkEmbeddingResponse
                          (lit "error"%string)
                          (Some (lit "Failed to create embedding"%string))))
         end).

(** [getRAGResponse(userId, query, threadId?)], lines 125-188. *)
Definition getRAGResponse (userId query : jsstring) (threadId : option oid)
  : M (option RAGResponse) :=
  if negb isEnabled then
    ret (Some (mkRAGResponse (Some disabled_answer) (Some disabled_context)
                             None))
  else
    try_catch
      (axiosPostRagGenerate env (mkRagRequest userId threadId query))
      (fun _ =>
         ret (Some (mkRAGResponse (Some failure_answer) (Some failure_context)
                                  None))).

End Service.

End EmbeddingService.

Import EmbeddingService.

(* ================================================================== *)
(** * The message routes (messages.ts) *)
(* ================================================================== *)

Module Routes.

Import Enhancer.

Local Open Scope js_scope.

(** Body of [POST /api/messages]. *)
Record TurnRequest := mkTurnRequest {
  req_threadId : option rawId;
  req_content : option jsstring;
  req_userId : option jsstring;
  req_files : option (list jsstring)
}.

(** The JSON object the turn answers with. *)
Record TurnResponse := mkTurnResponse {
  resp_answer : jsstring;
  resp_context : jsstring;
  resp_responseId : jsstring;
  resp_threadId : oid;
  resp_messageId : oid
}.

(** One element of the [messages] array of [POST /api/messages/batch]. *)
Record BatchItem := mkBatchItem {
  item_content : jsstring;
  item_sender : option jsstring
}.

(** A message as formatted for the frontend. *)
Record MessageView := mkMessageView {
  view_id : oid;
  view_threadId : oid;
  view_content : jsstring;
  view_sender : jsstring;
  view_createdAt : nat;
  view_updatedAt : nat
}.

Definition formatMessage (msg : Message) : MessageView :=
  mkMessageView (message_id msg) (message_threadId msg) (message_content msg)
                (message_sender msg) (message_createdAt msg)
                (message_updatedAt msg).

(** Body of [POST /api/messages/generate]. *)
Record GenerateRequest := mkGenerateRequest {
  gen_threadId : option rawId;
  gen_userMessage : option jsstring
}.

Record GenerateResponse := mkGenerateResponse {
  gen_answer : jsstring;
  gen_context : jsstring;
  gen_responseId : jsstring
}.

Definition no_response : jsstring :=
  lit "Sorry, I could not generate a response."%string.

(** [content.substring(0, 50) + (content.length > 50 ? '...' : '')] *)
Definition threadTitle (content : jsstring) : jsstring :=
  substring0 50 content
  ++ (if 50 <? length content then lit "..."%string else []).

(** Reading [.status] of the embedding result, which throws on [null]. *)
Definition readStatus (r : option EmbeddingResponse) : M unit :=
  match r with
  | Some _ => ret tt
  | None => throw TypeError
  end.

(** The three assignments from the RAG result; reading a field of
    [null] throws before anything is assigned. *)
Definition readRag (r : option RAGResponse)
  : M (jsstring * jsstring * jsstring) :=
  match r with
  | Some d =>
      ret (opt_or (rag_answer d) [], opt_or (rag_context d) [],
           opt_or (rag_responseId d) [])
  | None => throw TypeError
  end.

(** [enhancedResponse.substring(0, 100)] in the log line after the
    enhancement: only a string has that method. *)
Definition asString (v : value) : M jsstring :=
  match v with
  | VString s => ret s
  | _ => throw TypeError
  end.

Section Handlers.

Variable toLowerCase : jsstring -> jsstring.
Variable env : Env.

(** Lines 110-147: the thread a turn works on. *)
Definition resolveThread (threadId : option rawId) (userId content : jsstring)
  : M oid :=
  match threadId with
  | None =>
      fun w =>
        match findActiveThread userId w with
        | Some thread => (Normal (thread_id thread), w)
        | None =>
            (thread <- createThread userId (threadTitle content) userId ;;
             ret (thread_id thread)) w
        end
  | Some Malformed => throw CastError
  | Some (WellFormed actualThreadId) =>
      fun w =>
        match findThreadById actualThreadId w with
        | Some _ => (Normal actualThreadId, w)
        | None => (Throw (NotFoundError (lit "Thread not found"%string)), w)
        end
  end.

(** Steps 1 and 6: index one message, whatever happens. *)
Definition indexMessage (userId text : jsstring) (threadId messageId : oid)
  : M unit :=
  if isEnabled env then
    try_catch
      (embeddingResult <- createEmbedding env userId text (Some threadId)
                                          (Some messageId) ;;
       readStatus embeddingResult)
      (fun _ => ret tt)
  else ret tt.

(** Step 2: ask for the RAG answer; the variables keep their initial
    empty strings when anything throws. *)
Definition fetchRag (userId query : jsstring) (threadId : option oid)
  : M (jsstring * jsstring * jsstring) :=
  try_catch
    (ragResponse <- getRAGResponse env userId query threadId ;;
     readRag ragResponse)
    (fun _ => ret ([], [], [])).

(** [router.post('/')], lines 81-273, on a store that is reachable and
    carries out every operation on the thread collection: then
    [withDatabase] runs its operation at once, and only the schema can
    reject a save.  The same turn on a store whose operations can reject
    is [TurnFaults.createTurn]. *)
Definition createTurn (req : TurnRequest) : M TurnResponse :=
  match req_content req, req_userId req with
  | None, _ => throw (ValidationError (lit "content is required"%string))
  | Some content, userId' =>
    if negb (truthy content)
    then throw (ValidationError (lit "content is required"%string))
    else if negb (truthy_opt userId')
    then throw (ValidationError (lit "userId is required"%string))
    else
      let userId := opt_or userId' [] in
      if match req_threadId req with
         | Some threadId => negb (isValid threadId)
         | None => false
         end
      then throw (ValidationError (lit "Invalid thread ID format"%string))
      else
        actualThreadId <- resolveThread (req_threadId req) userId content ;;
        newMessage <- saveMessage env
          (mkDraft actualThreadId content userId
                   (match req_files req with Some fs => fs | None => [] end)) ;;
        indexMessage userId content actualThreadId (message_id newMessage) ;;;
        rag <- fetchRag userId content None ;;
        let '(ragAnswer, ragContext, responseId) := rag in
        let aiResponseContent := or_else ragAnswer no_response in
        enhancedResponse <-
          asString (enhanceResponse toLowerCase aiResponseContent content) ;;
        aiMessage <- saveMessage env
          (mkDraft actualThreadId enhancedResponse (lit "system"%string) []) ;;
        indexMessage userId enhancedResponse actualThreadId
                     (message_id aiMessage) ;;;
        touchThread actualThreadId ;;;
        ret (mkTurnResponse enhancedResponse ragContext responseId
                            actualThreadId (message_id newMessage))
  end.

(** [router.post('/batch')], lines 463-511. *)
Definition batchCreateMessages (threadId : option rawId)
           (messages : option (list BatchItem)) (userId : option jsstring)
  : M (list MessageView) :=
  let required :=
    ValidationError
      (lit "threadId and non-empty messages array are required"%string) in
  match threadId, messages with
  | None, _ | _, None | _, Some [] => throw required
  | Some Malformed, _ =>
      throw (ValidationError (lit "Invalid thread ID format"%string))
  | Some (WellFormed tid), Some msgs =>
      fun w =>
        match findThreadById tid w with
        | None => (Throw (NotFoundError (lit "Thread not found"%string)), w)
        | Some thread =>
            if truthy_opt userId
               && negb (JS.eqb (thread_userId thread) (opt_or userId []))
            then
              (Throw (UnauthorizedError
                        (lit "You do not have permission to add messages to this thread"%string)),
               w)
            else
              let messagesToInsert :=
                map (fun msg =>
                       mkDraft tid (item_content msg)
                               (opt_or (item_sender msg)
                                       (opt_or userId (lit "system"%string)))
                               [])
                    msgs in
              (createdMessages <- insertMany env messagesToInsert ;;
               ret (map formatMessage createdMessages)) w
        end
  end.

(** [router.post('/generate')], lines 524-624. *)
Definition generateOnly (req : GenerateRequest) : M GenerateResponse :=
  let required :=
    ValidationError (lit "threadId and userMessage are required fields"%string)
  in
  match gen_threadId req, gen_userMessage req with
  | None, _ | _, None => throw required
  | Some r, Some userMessage =>
    if negb (truthy userMessage) then throw required
    else
      match r with
      | Malformed =>
          throw (ValidationError (lit "Invalid thread ID format"%string))
      | WellFormed threadId =>
        fun w =>
          match findThreadById threadId w with
          | None => (Throw (NotFoundError (lit "Thread not found"%string)), w)
          | Some thread =>
            (userMessageDoc <- saveMessage env
               (mkDraft threadId userMessage
                        (or_else (thread_userId thread) (lit "user"%string))
                        []) ;;
             indexMessage (thread_userId thread) userMessage threadId
                          (message_id userMessageDoc) ;;;
             rag <- fetchRag (thread_userId thread) userMessage
                             (Some threadId) ;;
             let '(ragAnswer, ragContext, responseId) := rag in
             let aiResponseContent := or_else ragAnswer no_response in
             enhancedResponse <-
               asString (enhanceResponse toLowerCase aiResponseContent
                                         userMessage) ;;
             aiMessageDoc <- saveMessage env
               (mkDraft threadId enhancedResponse (lit "system"%string) []) ;;
             indexMessage (thread_userId thread) enhancedResponse threadId
                          (message_id aiMessageDoc) ;;;
             ret (mkGenerateResponse
                    enhancedResponse
                    (or_else ragContext
                             (lit "RAG context not available"%string))
                    responseId)) w
          end
      end
  end.

End Handlers.

End Routes.

(* ================================================================== *)
(** * Memory recall ([OpenAIService.getRelevantMemory], openai.ts) *)
(* ================================================================== *)

Module OpenAIService.

Local Open Scope js_scope.

Definition triggers : list jsstring :=
  map lit [ "what did i say"; "earlier"; "before"; "previous"; "remind me";
            "last time" ]%string.

Definition stopWords : list jsstring :=
  map lit [ "what"; "did"; "i"; "say"; "about"; "the"; "last"; "time";
            "you" ]%string.

(** The prefix of a rendered line: U+2022 and a space. *)
Definition bullet : jsstring := [8226%N; 32%N].

(** [.sort({createdAt: -1})]: newest first. *)
Fixpoint insert_newest (m : Message) (l : list Message) : list Message :=
  match l with
  | [] => [m]
  | x :: l' =>
      if message_createdAt x <? message_createdAt m
      then m :: x :: l'
      else x :: insert_newest m l'
  end.

Definition sort_newest (l : list Message) : list Message :=
  fold_right insert_newest [] l.

(** [Message.find({threadId, sender: {$ne: 'system'}, content: {$regex}})
      .sort({createdAt: -1}).limit(3)] *)
Definition findPastMessages (threadId : oid) (regex : jsstring -> bool)
           (w : World) : list Message :=
  firstn 3
    (sort_newest
       (filter (fun m =>
                  (message_threadId m =? threadId)
                  && negb (JS.eqb (message_sender m) (lit "system"%string))
                  && regex (message_content m))
               (messages w))).

Section Recall.

Variable toLowerCase : jsstring -> jsstring.

(** [new RegExp(pattern, 'i')] together with the test the database runs
    for [$regex]: [None] when the pattern is not a regular expression
    (the constructor throws a [SyntaxError]), otherwise whether the
    expression matches somewhere in the given content. *)
Variable RegExp_i : jsstring -> option (jsstring -> bool).

(** [getRelevantMemory(threadId, userMessage)], lines 183-208. *)
Definition getRelevantMemory (threadId : rawId) (userMessage : jsstring)
  : M (list jsstring) :=
  let queryLower := toLowerCase userMessage in
  let shouldRecall :=
    existsb (fun trigger => includes queryLower trigger) triggers in
  if negb shouldRecall then ret []
  else
    let words := split_ws queryLower in
    let keywords := filter (fun w => negb (mem w stopWords)) words in
    let lastKeyword :=
      match pop keywords with Some k => or_else k [] | None => [] end in
    if negb (truthy lastKeyword) then ret []
    else
      match RegExp_i lastKeyword with
      | None => throw SyntaxError
      | Some regex =>
          try_catch
            (match threadId with
             | Malformed => throw BSONError
             | WellFormed tid =>
                 log_call (CallFindMessages tid lastKeyword) ;;;
                 (fun w =>
                    (Normal (map (fun msg => bullet ++ message_content msg)
                                 (findPastMessages tid regex w)),
                     w))
             end)
            (fun _ => ret [])
      end.

End Recall.

End OpenAIService.

(* ================================================================== *)
(** * Reference instances of the engine-supplied operations *)
(* ================================================================== *)

Module Engine.

(** What [toLowerCase] must do on ASCII text. *)
Definition lowercases_ascii (toLowerCase : jsstring -> jsstring) : Prop :=
  forall s, forallb is_ascii s = true -> toLowerCase s = map ascii_lower s.

Definition is_alnum (c : code_unit) : bool :=
  ((48 <=? c) && (c <=? 57) || (65 <=? c) && (c <=? 90)
   || (97 <=? c) && (c <=? 122))%N.

(** The quantifier characters [*], [+] and [?]. *)
Definition is_quantifier (c : code_unit) : bool :=
  ((c =? 42) || (c =? 43) || (c =? 63))%N.

(** Three facts about case-insensitive regular expressions: a pattern of
    letters and digits matches exactly where it occurs up to case; a
    final [?] makes the character before it optional; and a pattern that
    begins with a quantifier is a syntax error. *)
Definition regexp_literal (R : jsstring -> option (jsstring -> bool)) : Prop :=
  forall p, p <> [] -> forallb is_alnum p = true ->
    exists m, R p = Some m /\
      forall s, forallb is_ascii s = true ->
        m s = includes (map ascii_lower s) (map ascii_lower p).

Definition regexp_optional (R : jsstring -> option (jsstring -> bool)) : Prop :=
  forall p c, p <> [] -> forallb is_alnum (p ++ [c]) = true ->
    exists m, R (p ++ [c; 63%N]) = Some m /\
      forall s, forallb is_ascii s = true ->
        m s = includes (map ascii_lower s) (map ascii_lower p).

Definition regexp_dangling (R : jsstring -> option (jsstring -> bool)) : Prop :=
  forall c p, is_quantifier c = true -> R (c :: p) = None.

(** [toLowerCase] restricted to its action on ASCII. *)
Definition asciiToLowerCase (s : jsstring) : jsstring := map ascii_lower s.

(** Matching a pattern of letters and digits. *)
Definition literal_i (p s : jsstring) : bool :=
  includes (map ascii_lower s) (map ascii_lower p).

(** A regular-expression engine for the three pattern shapes above; it
    matches nothing for any other pattern. *)
Definition sampleRegExp (p : jsstring) : option (jsstring -> bool) :=
  match p with
  | [] => Some (fun _ => true)
  | c :: _ =>
      if is_quantifier c then None
      else if forallb is_alnum p then Some (literal_i p)
      else if (last p 0 =? 63)%N && forallb is_alnum (removelast p)
              && (2 <=? length (removelast p))
      then Some (literal_i (removelast (removelast p)))
      else Some (fun _ => false)
  end.

End Engine.

(* ================================================================== *)
(** * Vocabulary of the properties: the enhancer *)
(* ================================================================== *)

Module EnhancerSpec.

Import Enhancer Engine.

(** The query categories of rule 3, in the order the code tests them. *)
Inductive category := Greeting | HelpRequest | Thanks | Farewell.

Definition categories : list category :=
  [Greeting; HelpRequest; Thanks; Farewell].

Definition keywords (c : category) : list jsstring :=
  match c with
  | Greeting => map lit ["hello"; "hi"]%string
  | HelpRequest => map lit ["help"; "assist"]%string
  | Thanks => map lit ["thanks"; "thank you"]%string
  | Farewell => map lit ["bye"; "goodbye"]%string
  end.

Definition elaboration (c : category) : jsstring :=
  match c with
  | Greeting => greeting_elaboration
  | HelpRequest => help_elaboration
  | Thanks => thanks_elaboration
  | Farewell => farewell_elaboration
  end.

(** A query belongs to a category when its lower-cased text contains one
    of the category's keywords. *)
Definition in_category (queryLower : jsstring) (c : category) : bool :=
  existsb (includes queryLower) (keywords c).

(** The earliest category of the fixed order the query belongs to. *)
Definition classify (queryLower : jsstring) : option category :=
  find (in_category queryLower) categories.

(** Being one of the known boilerplate fallbacks. *)
Definition boilerplate (s : jsstring) : bool :=
  existsb (fun kv => JS.eqb s (fst kv)) enhancedResponses.

End EnhancerSpec.

(* ================================================================== *)
(** * Vocabulary of the properties: the embedding service *)
(* ================================================================== *)

Module ServiceSpec.

(** The result [getRAGResponse] substitutes when the service is
    disabled, and when the call fails. *)
Definition degraded_disabled : RAGResponse :=
  mkRAGResponse (Some disabled_answer) (Some disabled_context) None.

Definition degraded_failure : RAGResponse :=
  mkRAGResponse (Some failure_answer) (Some failure_context) None.

(** The world after one more logged call. *)
Definition logged (c : Call) (w : World) : World :=
  mkWorld (threads w) (messages w) (nextId w) (now w) (calls w ++ [c]).

End ServiceSpec.

(* ================================================================== *)
(** * Vocabulary of the properties: turns and batches *)
(* ================================================================== *)

Module TurnSpec.

Import Enhancer ServiceSpec EnhancerSpec Routes.

(** What the orchestrator reads of the RAG result: its step 2. *)
Definition ragOutcome (env : Env) (userId q : jsstring) (tid : option oid)
  : option RAGResponse :=
  if apiUrl_set env then
    match postRagGenerate env (mkRagRequest userId tid q) with
    | HttpOk data => data
    | _ => Some degraded_failure
    end
  else Some degraded_disabled.

Definition ragFields (r : option RAGResponse)
  : jsstring * jsstring * jsstring :=
  match r with
  | Some d =>
      (opt_or (rag_answer d) [], opt_or (rag_context d) [],
       opt_or (rag_responseId d) [])
  | None => ([], [], [])
  end.

(** The worlds a turn passes through. *)
Definition saved (d : MessageDraft) (w : World) : World :=
  mkWorld (threads w) (messages w ++ [instantiate (nextId w) (now w) d])
          (S (nextId w)) (S (now w)) (calls w).

Definition indexed (env : Env) (userId text : jsstring) (tid mid : oid)
           (w : World) : World :=
  if apiUrl_set env
  then logged (CallEmbed (mkEmbedRequest userId (Some tid) text (Some mid))) w
  else w.

Definition fetched (env : Env) (userId q : jsstring) (tid : option oid)
           (w : World) : World :=
  if apiUrl_set env
  then logged (CallRagGenerate (mkRagRequest userId tid q)) w
  else w.

Definition touched (tid : oid) (w : World) : World :=
  mkWorld (map (touch tid (now w)) (threads w)) (messages w) (nextId w)
          (S (now w)) (calls w).

Definition created (userId title : jsstring) (w : World) : World :=
  mkWorld (threads w
           ++ [mkThread (nextId w) userId title true userId (now w) (now w)])
          (messages w) (S (nextId w)) (S (now w)) (calls w).

(** A thread that [findOne({userId, isActive: true})] selects. *)
Definition activeFor (userId : jsstring) (t : Thread) : bool :=
  JS.eqb (thread_userId t) userId && thread_isActive t.

(** Ids handed out so far lie below the next one. *)
Definition consistent (w : World) : Prop :=
  (forall t, In t (threads w) -> thread_id t < nextId w) /\
  (forall m, In m (messages w) ->
             message_id m < nextId w /\ message_threadId m < nextId w).

Definition emptyWorld : World := mkWorld [] [] 0 0 [].

(** An environment without embedding endpoint whose schema accepts
    every message. *)
Definition offlineEnv : Env :=
  mkEnv false (fun _ => HttpOtherError) (fun _ => HttpOtherError)
        (fun _ => true).

(** A turn from the resolved thread on, flattened. *)
Definition turnOutcome (toLowerCase : jsstring -> jsstring) (env : Env)
           (userId content : jsstring) (files : list jsstring) (tid : oid)
           (w1 : World) : Completion TurnResponse * World :=
  let d1 := mkDraft tid content userId files in
  if messageAccepted env d1 then
    let w3 := fetched env userId content None
                (indexed env userId content tid (nextId w1) (saved d1 w1)) in
    let '(a, c, r) := ragFields (ragOutcome env userId content None) in
    match enhanceResponse toLowerCase (or_else a no_response) content with
    | VString s =>
        let d2 := mkDraft tid s (lit "system"%string) [] in
        if messageAccepted env d2 then
          (Normal (mkTurnResponse s c r tid (nextId w1)),
           touched tid (indexed env userId s tid (nextId w3) (saved d2 w3)))
        else (Throw PersistenceError, w3)
    | _ => (Throw TypeError, w3)
    end
  else (Throw PersistenceError, w1).

Definition files_or_empty (files : option (list jsstring)) : list jsstring :=
  match files with Some fs => fs | None => [] end.

(** Two active threads of user ["u1"], the second updated last. *)
Definition twoThreads : World :=
  mkWorld [ mkThread 0 (lit "u1"%string) (lit "first"%string) true
                     (lit "u1"%string) 1 5;
            mkThread 1 (lit "u1"%string) (lit "second"%string) true
                     (lit "u1"%string) 2 9 ]
          [] 2 10 [].

(** The request of the end-to-end scenario. *)
Definition helloRequest : TurnRequest :=
  mkTurnRequest None (Some (lit "Hello"%string)) (Some (lit "u1"%string)) None.

(** [generateOnly] from the thread on, flattened. *)
Definition generateOutcome (toLowerCase : jsstring -> jsstring) (env : Env)
           (thread : Thread) (userMessage : jsstring) (tid : oid) (w : World)
  : Completion GenerateResponse * World :=
  let userId := thread_userId thread in
  let d1 := mkDraft tid userMessage (or_else userId (lit "user"%string)) [] in
  if messageAccepted env d1 then
    let w3 := fetched env userId userMessage (Some tid)
                (indexed env userId userMessage tid (nextId w) (saved d1 w)) in
    let '(a, c, r) := ragFields (ragOutcome env userId userMessage (Some tid))
    in
    match enhanceResponse toLowerCase (or_else a no_response) userMessage with
    | VString s =>
        let d2 := mkDraft tid s (lit "system"%string) [] in
        if messageAccepted env d2 then
          (Normal (mkGenerateResponse
                     s (or_else c (lit "RAG context not available"%string)) r),
           indexed env userId s tid (nextId w3) (saved d2 w3))
        else (Throw PersistenceError, w3)
    | _ => (Throw TypeError, w3)
    end
  else (Throw PersistenceError, w).

(** What a request sends to the RAG server: the user and the text of
    [POST /] (no thread id), and the owner of the thread with the text
    and the thread id of [POST /generate]. *)
Definition turnRagAnswer (env : Env) (req : TurnRequest) : jsstring :=
  fst (fst (ragFields
              (ragOutcome env (opt_or (req_userId req) [])
                          (opt_or (req_content req) []) None))).

Definition generateRagAnswer (env : Env) (thread : Thread) (tid : oid)
           (userMessage : jsstring) : jsstring :=
  fst (fst (ragFields
              (ragOutcome env (thread_userId thread) userMessage (Some tid)))).

(** An environment whose RAG server replies with an empty answer, and
    whose schema accepts every message. *)
Definition silentEnv : Env :=
  mkEnv true (fun _ => HttpOtherError)
        (fun _ => HttpOk (Some (mkRAGResponse (Some [])
                                              (Some (lit "notes"%string))
                                              None)))
        (fun _ => true).

(** The ownership test of the batch route passes: no (non-empty) user id
    was supplied, or it is the owner's. *)
Definition ownerOrAbsent (userId : option jsstring) (thread : Thread) : bool :=
  negb (truthy_opt userId) || JS.eqb (thread_userId thread) (opt_or userId []).

Definition thread_not_found : Exception :=
  NotFoundError (lit "Thread not found"%string).

Definition batch_not_permitted : Exception :=
  UnauthorizedError
    (lit "You do not have permission to add messages to this thread"%string).

(** The documents the batch route inserts. *)
Definition batchDrafts (tid : oid) (userId : option jsstring)
           (msgs : list BatchItem) : list MessageDraft :=
  map (fun msg =>
         mkDraft tid (item_content msg)
                 (opt_or (item_sender msg)
                         (opt_or userId (lit "system"%string)))
                 [])
      msgs.

(** The batch of the specification's example: three payloads, no user
    id, on a world holding one thread of another user. *)
Definition threeItems : list BatchItem :=
  [ mkBatchItem (lit "m1"%string) None;
    mkBatchItem (lit "m2"%string) (Some (lit "u1"%string));
    mkBatchItem (lit "m3"%string) None ].

Definition oneThread : World :=
  mkWorld [ mkThread 0 (lit "u1"%string) (lit "first"%string) true
                     (lit "u1"%string) 1 5 ]
          [] 1 6 [].

(** The same process with another server behind [POST /embed]. *)
Definition withPostEmbed (env : Env)
           (f : EmbedRequest -> HttpResult EmbeddingResponse) : Env :=
  mkEnv (apiUrl_set env) f (postRagGenerate env) (messageAccepted env).

(** The calls a completed turn adds to the log. *)
Definition turnCalls (env : Env) (userId content : jsstring)
           (resp : TurnResponse) : list Call :=
  if apiUrl_set env then
    [ CallEmbed (mkEmbedRequest userId (Some (resp_threadId resp)) content
                                (Some (resp_messageId resp)));
      CallRagGenerate (mkRagRequest userId None content);
      CallEmbed (mkEmbedRequest userId (Some (resp_threadId resp))
                                (resp_answer resp)
                                (Some (S (resp_messageId resp)))) ]
  else [].

(** The result of [createEmbedding] that reports a failure. *)
Definition errorResult (detail : jsstring) : option EmbeddingResponse :=
  Some (mkEmbeddingResponse (lit "error"%string) (Some detail)).

End TurnSpec.

(* ================================================================== *)
(** * Vocabulary of the properties: memory recall *)
(* ================================================================== *)

Module MemorySpec.

Import ServiceSpec OpenAIService Engine.

(** Whether the lower-cased query contains a trigger phrase. *)
Definition shouldRecall (queryLower : jsstring) : bool :=
  existsb (fun trigger => includes queryLower trigger) triggers.

(** The last word of the lower-cased query that is not a stop word, or
    the empty string. *)
Definition recallKeyword (queryLower : jsstring) : jsstring :=
  match pop (filter (fun w => negb (mem w stopWords)) (split_ws queryLower))
  with
  | Some k => k
  | None => []
  end.

Definition render (msgs : list Message) : list jsstring :=
  map (fun msg => bullet ++ message_content msg) msgs.

(** One earlier message of the thread, which does not mention IoT. *)
Definition radioWorld : World :=
  mkWorld []
          [ mkMessage 5 1 (lit "I love radio"%string) (lit "u1"%string) []
                      3 3 ]
          6 9 [].

(** Newest first: no message is older than one that follows it. *)
Definition newestFirst (l : list Message) : Prop :=
  StronglySorted (fun a b => message_createdAt b <= message_createdAt a) l.

(** The thread of the specification's example. *)
Definition dashboardWorld : World :=
  mkWorld []
          [ mkMessage 5 1 (lit "I built an IoT dashboard"%string)
                      (lit "u1"%string) [] 3 3;
            mkMessage 6 1 (lit "Nice work"%string) (lit "system"%string) []
                      4 4 ]
          7 9 [].

End MemorySpec.

(* ================================================================== *)
(** * Reading, editing and deleting one message (messages.ts) *)
(* ================================================================== *)

Module MessageRoutes.

Import Routes.

Local Open Scope js_scope.

(** [Message.findById(id)]. *)
Definition findMessageById (i : oid) (w : World) : option Message :=
  find (fun m => message_id m =? i) (messages w).

(** The stored document with id [i] replaced by [m']. *)
Fixpoint replaceFirst (i : oid) (m' : Message) (l : list Message)
  : list Message :=
  match l with
  | [] => []
  | m :: l' =>
      if message_id m =? i then m' :: l' else m :: replaceFirst i m' l'
  end.

(** The stored document with id [i] removed. *)
Fixpoint removeFirst (i : oid) (l : list Message) : list Message :=
  match l with
  | [] => []
  | m :: l' => if message_id m =? i then l' else m :: removeFirst i l'
  end.

(** [Message.findByIdAndDelete(id)]. *)
Definition findByIdAndDelete (i : oid) : M unit :=
  fun w =>
    (Normal tt,
     mkWorld (threads w) (removeFirst i (messages w)) (nextId w) (now w)
             (calls w)).

(** The JSON object [DELETE /:id] answers with. *)
Record DeleteResult := mkDeleteResult {
  deleted_id : oid;
  deleted_threadId : oid;
  deleted : bool
}.

Definition message_not_found : Exception :=
  NotFoundError (lit "Message not found"%string).

Definition invalid_message_id : Exception :=
  ValidationError (lit "Invalid message ID format"%string).

Definition access_denied : jsstring :=
  lit "You do not have permission to access this message"%string.

Definition update_denied : jsstring :=
  lit "You do not have permission to update this message"%string.

Definition delete_denied : jsstring :=
  lit "You do not have permission to delete this message"%string.

(** The block [if (userId) { ... }] the three routes share: the thread
    of the message is looked up and its owner compared, only when a
    user id came with the request. *)
Definition verifyOwnership (userId : option jsstring) (threadId : oid)
           (denied : jsstring) : M unit :=
  if truthy_opt userId then
    fun w =>
      match findThreadById threadId w with
      | None => (Throw (NotFoundError (lit "Thread not found"%string)), w)
      | Some thread =>
          if negb (JS.eqb (thread_userId thread) (opt_or userId []))
          then (Throw (UnauthorizedError denied), w)
          else (Normal tt, w)
      end
  else ret tt.

Section Handlers.

Variable env : Env.

(** Modelled from the spec: the schema file src/models/message.ts is not
    part of the sources; [message.content = content] followed by
    [message.save()] is the store's update.  Mongoose writes modified
    paths only, so an unchanged content writes nothing; otherwise the
    document is validated and stored with the new content and the
    current time as [updatedAt]. *)
Definition saveContent (message : Message) (content : jsstring) : M Message :=
  fun w =>
    if JS.eqb (message_content message) content then (Normal message, w)
    else if messageAccepted env
              (mkDraft (message_threadId message) content
                       (message_sender message) (message_files message))
    then
      let message' :=
        mkMessage (message_id message) (message_threadId message) content
                  (message_sender message) (message_files message)
                  (message_createdAt message) (now w) in
      (Normal message',
       mkWorld (threads w)
               (replaceFirst (message_id message) message' (messages w))
               (nextId w) (S (now w)) (calls w))
    else (Throw PersistenceError, w).

(** [router.get('/:id')], lines 286-328. *)
Definition getMessage (id : rawId) (userId : option jsstring)
  : M MessageView :=
  match id with
  | Malformed => throw invalid_message_id
  | WellFormed i =>
      fun w =>
        match findMessageById i w with
        | None => (Throw message_not_found, w)
        | Some msg =>
            (verifyOwnership userId (message_threadId msg) access_denied ;;;
             ret (formatMessage msg)) w
        end
  end.

(** [router.put('/:id')], lines 341-392. *)
Definition updateMessage (id : rawId) (content userId : option jsstring)
  : M MessageView :=
  if negb (truthy_opt content)
  then throw (ValidationError (lit "content is required"%string))
  else
    match id with
    | Malformed => throw invalid_message_id
    | WellFormed i =>
        fun w =>
          match findMessageById i w with
          | None => (Throw message_not_found, w)
          | Some message =>
              (verifyOwnership userId (message_threadId message)
                               update_denied ;;;
               message' <- saveContent message (opt_or content []) ;;
               ret (formatMessage message')) w
          end
    end.

(** [router.delete('/:id')], lines 405-450. *)
Definition deleteMessage (id : rawId) (userId : option jsstring)
  : M DeleteResult :=
  match id with
  | Malformed => throw invalid_message_id
  | WellFormed i =>
      fun w =>
        match findMessageById i w with
        | None => (Throw message_not_found, w)
        | Some message =>
            (verifyOwnership userId (message_threadId message)
                             delete_denied ;;;
             let threadId := message_threadId message in
             findByIdAndDelete i ;;;
             ret (mkDeleteResult i threadId true)) w
        end
  end.

End Handlers.

(** A world with one thread of ["u1"] holding a user message and the
    assistant's reply. *)
Definition chatWorld : World :=
  mkWorld [ mkThread 0 (lit "u1"%string) (lit "Hello"%string) true
                     (lit "u1"%string) 0 3 ]
          [ mkMessage 1 0 (lit "Hello"%string) (lit "u1"%string) [] 1 1;
            mkMessage 2 0 (lit "Hi there"%string) (lit "system"%string) []
                      2 2 ]
          3 4 [].

(** No two stored messages share an id. *)
Definition uniqueIds (w : World) : Prop :=
  NoDup (map message_id (messages w)).

End MessageRoutes.

(* ================================================================== *)
(** * Vocabulary of the properties: what every route keeps *)
(* ================================================================== *)

Module StoreSpec.

Import Routes TurnSpec MessageRoutes.

(** The store is sound: ids handed out lie below the next id and no two
    messages share one. *)
Definition soundStore (w : World) : Prop :=
  consistent w /\ uniqueIds w.

(** The errors a turn can end with, and whether the world must then be
    as it was: bad requests and unknown threads are refused before
    anything is written; a rejected document or a non-string answer
    stops a turn that may already have written. *)
Definition refusedEarly (e : Exception) : bool :=
  match e with
  | ValidationError _ | NotFoundError _ => true
  | _ => false
  end.

Definition stoppedLate (e : Exception) : bool :=
  match e with
  | PersistenceError | TypeError => true
  | _ => false
  end.

End StoreSpec.

(* ================================================================== *)
(** * Prompt enhancement ([enhancePromptWithRAG], embeddingService.ts) *)
(* ================================================================== *)

Module PromptEnhancer.

Local Open Scope js_scope.

Fixpoint dropSpaces (s : jsstring) : jsstring :=
  match s with
  | [] => []
  | c :: s' => if is_space c then dropSpaces s' else s
  end.

(** [s.trim()]: white space and line terminators are removed at both
    ends; they are the code units of the class [\s]. *)
Definition trim (s : jsstring) : jsstring :=
  rev (dropSpaces (rev (dropSpaces s))).

(** A pattern character (a lower-case letter, a space, an apostrophe or
    a question mark) matches a code unit under the flag [i] when the
    code unit is the character or its ASCII upper-case form. *)
Definition matches_i (c d : code_unit) : bool := (ascii_lower d =? c)%N.

Fixpoint matches_all_i (p s : jsstring) : bool :=
  match p, s with
  | [], [] => true
  | c :: p', d :: s' => matches_i c d && matches_all_i p' s'
  | _, _ => false
  end.

(** [/^<stem><c>+$/i]: the stem, then the character once or more. *)
Definition stemPlus (stem : jsstring) (c : code_unit) (s : jsstring) : bool :=
  matches_all_i stem (firstn (length stem) s)
  && truthy (skipn (length stem) s)
  && forallb (matches_i c) (skipn (length stem) s).

(** [/^<text>\??$/i]: the text, then an optional question mark. *)
Definition optionalMark (text : jsstring) (s : jsstring) : bool :=
  matches_all_i text s || matches_all_i (text ++ [63%N]) s.

(** The array [trivialPatterns], each pattern as its [test]. *)
Definition trivialPatterns : list (jsstring -> bool) :=
  [ stemPlus (lit "h"%string) 105%N;
    stemPlus (lit "hell"%string) 111%N;
    stemPlus (lit "he"%string) 121%N;
    stemPlus (lit "y"%string) 111%N;
    stemPlus (lit "su"%string) 112%N;
    optionalMark (lit "how are you"%string);
    optionalMark (lit "what's up"%string);
    stemPlus (lit "o"%string) 107%N;
    stemPlus (lit "oka"%string) 121%N;
    stemPlus (lit "tes"%string) 116%N;
    matches_all_i (lit "ping"%string) ].

Definition questionIndicators : list jsstring :=
  map lit [ "?"; "what"; "how"; "why"; "when"; "where"; "who"; "which";
            "can you"; "could you"; "tell me"; "explain"; "describe";
            "find"; "search"; "help me with" ]%string.

Definition newline : jsstring := [10%N].

Definition information_heading : jsstring :=
  lit "### Relevant Previous Information:"%string.

(** ["\n### Current User Query:"] *)
Definition query_heading : jsstring :=
  newline ++ lit "### Current User Query:"%string.

(** [[a, b, c, d].join("\n")] *)
Definition join4 (a b c d : jsstring) : jsstring :=
  a ++ newline ++ b ++ newline ++ c ++ newline ++ d.

Section Service.

Variable toLowerCase : jsstring -> jsstring.
Variable env : Env.

(** [isTrivialMessage(content)], lines 255-272. *)
Definition isTrivialMessage (content : jsstring) : bool :=
  let trimmed := toLowerCase (trim content) in
  existsb (fun pattern => pattern trimmed) trivialPatterns.

(** [shouldUseSemanticSearch(content)], lines 235-250. *)
Definition shouldUseSemanticSearch (content : jsstring) : bool :=
  if length (trim content) <? 10 then false
  else if isTrivialMessage content then false
  else existsb (fun indicator => includes (toLowerCase content) indicator)
               questionIndicators.

(** Reading [.context] of the RAG result, which throws on [null]. *)
Definition buildPrompt (query : jsstring) (ragResponse : option RAGResponse)
  : M jsstring :=
  match ragResponse with
  | None => throw TypeError
  | Some d =>
      let relevantContext := opt_or (rag_context d) [] in
      ret (join4 information_heading relevantContext query_heading query)
  end.

(** [enhancePromptWithRAG(userId, query, threadId, context)],
    lines 198-228; the [context] argument is not read. *)
Definition enhancePromptWithRAG (userId query : jsstring) (threadId : oid)
  : M jsstring :=
  if negb (isEnabled env) || negb (shouldUseSemanticSearch query)
  then ret query
  else
    try_catch
      (ragResponse <- getRAGResponse env userId query (Some threadId) ;;
       buildPrompt query ragResponse)
      (fun _ => ret query).

End Service.

End PromptEnhancer.

(* ================================================================== *)
(** * Vocabulary of the properties: prompt enhancement *)
(* ================================================================== *)

Module PromptSpec.

Import PromptEnhancer.

(** Whether [enhancePromptWithRAG] goes to the RAG server. *)
Definition searched (toLowerCase : jsstring -> jsstring) (env : Env)
           (query : jsstring) : bool :=
  apiUrl_set env && shouldUseSemanticSearch toLowerCase query.

(** What stands before the query in an enhanced prompt. *)
Definition promptPrefix (relevantContext : jsstring) : jsstring :=
  information_heading ++ newline ++ relevantContext ++ newline
  ++ query_heading ++ newline.

(** An environment whose embedding server is down. *)
Definition downEnv : Env :=
  mkEnv true (fun _ => HttpOtherError)
        (fun _ => HttpAxiosError (Some 503) (lit "Service Unavailable"%string))
        (fun _ => true).

End PromptSpec.

(* ================================================================== *)
(** * Generating an answer ([OpenAIService.generateResponse], openai.ts) *)
(* ================================================================== *)

Module OpenAIChat.

Import OpenAIService PromptEnhancer.

Local Open Scope js_scope.

(** The canned answers of [generateMockResponse]. *)
Definition mock_project : jsstring :=
  lit "Yes, I remember you made an LCA-based IoT dashboard project! That's a fascinating combination of Life Cycle Assessment and Internet of Things technology. IoT dashboards are excellent tools for real-time monitoring and data visualization, and integrating LCA principles adds a valuable sustainability dimension. Would you like to discuss the technical implementation, the challenges you faced, or explore how you could expand this project further? I'd be interested in hearing about the sensors you used, the data collection methods, and how you implemented the LCA calculations in your dashboard."%string.

Definition mock_greeting : jsstring :=
  lit "Hello! I'm here to help you with any questions or topics you'd like to explore. Whether you need assistance with programming, want to learn about new technologies, discuss ideas, or just have a conversation, I'm ready to assist. What would you like to talk about today? I can help with technical questions, explain complex concepts, provide coding examples, or discuss various subjects. Just let me know what interests you!"%string.

Definition mock_help : jsstring :=
  lit "I'm here to help! I can assist you with a wide range of topics including programming, technology, general knowledge, problem-solving, and more. Just let me know what specific area you need help with, and I'll do my best to provide detailed, helpful information. Whether it's debugging code, explaining concepts, discussing technology trends, or helping with learning, I'm ready to support you. What can I help you with today?"%string.

Definition mock_farewell : jsstring :=
  lit "Goodbye! It was great chatting with you. Feel free to return anytime if you have more questions or need assistance. I'm always here to help with programming, technology, learning, or any other topics you're interested in. Have a wonderful day, and don't hesitate to reach out if you need any help in the future!"%string.

Definition mock_thanks : jsstring :=
  lit "You're very welcome! I'm glad I could help. If you have any more questions or need assistance with anything else, feel free to ask. I'm here to help with programming, technology, general knowledge, or any other topics you'd like to explore. What else can I assist you with? I enjoy our conversations and am always ready to provide detailed, helpful responses to your questions."%string.

Definition mock_details : jsstring :=
  lit "Could you please provide more details so I can better assist you? I'm here to help with a wide variety of topics including programming, technology, general knowledge, and more. The more specific you are about what you'd like to know or discuss, the better I can provide you with relevant, detailed information. What would you like to learn about or get help with?"%string.

Definition mock_received : jsstring :=
  lit "I received your message and I'm here to help! I can assist you with programming questions, explain technical concepts, discuss various topics, or help you with problem-solving. Could you please let me know what specific area you'd like assistance with? I'm ready to provide detailed, comprehensive responses to help you learn and understand better. What would you like to explore or discuss?"%string.

(** The fixed part of the system message. *)
Definition system_prompt : jsstring :=
  lit "You are a helpful and friendly AI assistant. Provide detailed, comprehensive responses that thoroughly address user questions. When explaining concepts, include examples, context, and practical applications. Aim to be informative and educational while maintaining a conversational tone."%string.

Definition provided_heading : jsstring :=
  lit "Here is important context about the user:"%string ++ newline.

Definition memory_heading : jsstring :=
  lit "Here are some things the user said previously:"%string ++ newline.

Definition truncation_mark : jsstring :=
  lit "... [content truncated]"%string.

Definition no_completion : jsstring :=
  lit "I could not generate a response."%string.

Definition MAX_CONTEXT_LENGTH : nat := 4000.

(** An element of the [context] array, as far as it is read. *)
Record ContextMessage := mkContextMessage {
  ctx_content : option jsstring;
  ctx_sender : jsstring;
  ctx_userId : option jsstring
}.

(** An element of the [messages] array sent to the chat endpoint. *)
Record ChatMessage := mkChatMessage {
  chat_role : jsstring;
  chat_content : jsstring
}.

(** What [openai.chat.completions.create] does: it throws, or it replies
    and [choices[0]?.message?.content] is a string or missing. *)
Inductive ChatResult :=
| ChatReply (content : option jsstring)
| ChatThrows.

(** The state the constructor leaves: whether mock answers are used
    (no API key, or the client could not be built), and the chat
    endpoint behind the client. *)
Record Client := mkClient {
  useMockResponses : bool;
  complete : list ChatMessage -> ChatResult
}.

(** [arr.join("\n")] *)
Fixpoint joinLines (l : list jsstring) : jsstring :=
  match l with
  | [] => []
  | [x] => x
  | x :: l' => x ++ newline ++ joinLines l'
  end.

(** The memory context built from the recalled snippets. *)
Definition memoryText (memorySnippets : list jsstring) : jsstring :=
  if 0 <? length memorySnippets
  then memory_heading ++ joinLines memorySnippets
  else [].

(** One pass of the loop over [context], lines 111-120. *)
Definition contextToChat (msg : ContextMessage) : ChatMessage :=
  let content := opt_or (ctx_content msg) [] in
  mkChatMessage
    (if JS.eqb (ctx_sender msg) (lit "system"%string)
     then lit "assistant"%string else lit "user"%string)
    (if MAX_CONTEXT_LENGTH <? length content
     then substring0 MAX_CONTEXT_LENGTH content ++ truncation_mark
     else content).

(** The [messages] array, lines 103-123. *)
Definition chatMessages (memoryContext : jsstring)
           (context : list ContextMessage) (enhancedPrompt : jsstring)
  : list ChatMessage :=
  mkChatMessage
    (lit "system"%string)
    (system_prompt
     ++ (if truthy memoryContext then newline ++ newline ++ memoryContext
         else []))
  :: map contextToChat context
  ++ [mkChatMessage (lit "user"%string) enhancedPrompt].

(** [context.find(msg => msg.userId)] and the user id read from it. *)
Definition contextUserId (context : list ContextMessage) : jsstring :=
  match find (fun msg => truthy_opt (ctx_userId msg)) context with
  | Some firstUserMessage => opt_or (ctx_userId firstUserMessage) []
  | None => []
  end.

Section Service.

Variable toLowerCase : jsstring -> jsstring.
Variable RegExp_i : jsstring -> option (jsstring -> bool).
Variable env : Env.
Variable client : Client.

(** [generateMockResponse(userMessage, providedContext)],
    lines 158-181. *)
Definition generateMockResponse (userMessage : jsstring)
           (providedContext : option jsstring) : jsstring :=
  let message := toLowerCase userMessage in
  if truthy_opt providedContext
     && (includes message (lit "iot"%string)
         || includes message (lit "project"%string))
  then mock_project
  else if includes message (lit "hello"%string)
          || includes message (lit "hi"%string)
  then mock_greeting
  else if includes message (lit "help"%string) then mock_help
  else if includes message (lit "bye"%string)
          || includes message (lit "goodbye"%string)
  then mock_farewell
  else if includes message (lit "thanks"%string)
          || includes message (lit "thank you"%string)
  then mock_thanks
  else if length message <? 10 then mock_details
  else mock_received.

(** The traditional memory injection: recall and render. *)
Definition recallMemory (threadId : oid) (userMessage : jsstring)
  : M jsstring :=
  memorySnippets <- getRelevantMemory toLowerCase RegExp_i
                                      (WellFormed threadId) userMessage ;;
  ret (memoryText memorySnippets).

(** Lines 67-101: the prompt and the memory context of the request. *)
Definition gatherContext (threadId : oid) (userId userMessage : jsstring)
           (providedContext : option jsstring) : M (jsstring * jsstring) :=
  if truthy_opt providedContext then
    ret (userMessage, provided_heading ++ opt_or providedContext [])
  else if isEnabled env && truthy userId then
    try_catch
      (enhancedPrompt <- enhancePromptWithRAG toLowerCase env userId
                                              userMessage threadId ;;
       ret (enhancedPrompt, []))
      (fun _ =>
         memoryContext <- recallMemory threadId userMessage ;;
         ret (userMessage, memoryContext))
  else
    memoryContext <- recallMemory threadId userMessage ;;
    ret (userMessage, memoryContext).

(** Lines 134-149: the answer is indexed when the service is enabled, a
    user id is known and the answer is longer than 20 code units. *)
Definition indexAnswer (threadId : oid) (userId response : jsstring)
  : M unit :=
  if isEnabled env && truthy userId then
    try_catch
      (if 20 <? length response
       then createEmbedding env userId response (Some threadId) None ;;;
            ret tt
       else ret tt)
      (fun _ => ret tt)
  else ret tt.

(** [generateResponse(threadId, userMessage, context, providedContext)],
    lines 46-156, for a well-formed thread id. *)
Definition generateResponse (threadId : oid) (userMessage : jsstring)
           (context : list ContextMessage) (providedContext : option jsstring)
  : M jsstring :=
  try_catch
    (if useMockResponses client
     then ret (generateMockResponse userMessage providedContext)
     else
       let userId := contextUserId context in
       gathered <- gatherContext threadId userId userMessage
                                 providedContext ;;
       let '(enhancedPrompt, memoryContext) := gathered in
       match complete client
                      (chatMessages memoryContext context enhancedPrompt) with
       | ChatThrows => throw OtherError
       | ChatReply content =>
           let response := opt_or content no_completion in
           indexAnswer threadId userId response ;;;
           ret response
       end)
    (fun _ => ret (generateMockResponse userMessage providedContext)).

End Service.

End OpenAIChat.

(* ================================================================== *)
(** * Vocabulary of the properties: generating an answer *)
(* ================================================================== *)

Module ChatSpec.

Import OpenAIChat.

(** The collections, the id source and the clock are the same. *)
Definition sameStore (w w' : World) : Prop :=
  threads w' = threads w /\ messages w' = messages w
  /\ nextId w' = nextId w /\ now w' = now w.

(** The seven canned answers. *)
Definition mockAnswers : list jsstring :=
  [ mock_project; mock_greeting; mock_help; mock_farewell; mock_thanks;
    mock_details; mock_received ].

(** A client whose chat endpoint repeats the last message sent. *)
Definition echoClient : Client :=
  mkClient false
           (fun messages =>
              ChatReply
                (Some (chat_content (last messages (mkChatMessage [] []))))).

(** Whether a call is a keyword search in the message collection. *)
Definition isRecall (c : Call) : bool :=
  match c with
  | CallFindMessages _ _ => true
  | _ => false
  end.

(** A context of one earlier user message. *)
Definition oneContext : list ContextMessage :=
  [ mkContextMessage (Some (lit "I built an IoT dashboard"%string))
                     (lit "u1"%string) (Some (lit "u1"%string)) ].

End ChatSpec.

(* ================================================================== *)
(** * The database connection (db.ts) and the serverless entry point
      (api/index.ts, api/index.mjs) *)
(* ================================================================== *)

Module Connection.

Import JS.

(** A thrown value: an [Error] with its message, or anything else. *)
Inductive Thrown :=
| ErrorObject (message : jsstring)
| OtherValue.

Inductive Outcome (A : Type) :=
| Returns (a : A)
| Throws (e : Thrown).

Arguments Returns {A} a.
Arguments Throws {A} e.

(** What [mongoose.connect] does: the connection opens, or the promise
    is rejected. *)
Inductive ConnectResult :=
| Connects
| ConnectFails (error : Thrown).

(** An incoming request, as far as the entry point reads it. *)
Record Request := mkRequest {
  req_method : jsstring;
  req_url : jsstring
}.

(** What surrounds one server process: [config.mongodbUri], the driver
    behind [mongoose.connect] (its result may differ from one attempt to
    the next), and the Express application, which passes an error to its
    final callback or none. *)
Record Platform := mkPlatform {
  mongodbUri : option jsstring;
  mongooseConnect : nat -> jsstring -> ConnectResult;
  app : Request -> option Thrown
}.

(** The module-level state: [mongoose.connections[0].readyState], the
    flag [isConnected] of db.ts, the flag [dbConnected] of the entry
    point, and the number of calls of [mongoose.connect] so far. *)
Record Server := mkServer {
  readyState : nat;
  isConnected : bool;
  dbConnected : bool;
  attempts : nat
}.

Definition uri_missing : jsstring :=
  lit "MongoDB URI is not configured. Please set MONGO_URI environment variable."%string.

Definition connect_failed : jsstring :=
  lit "Failed to connect to MongoDB: "%string.

Definition unknown_error : jsstring := lit "Unknown error"%string.

Definition internal_error : jsstring := lit "Internal server error"%string.

(** [error instanceof Error ? error.message : 'Unknown error'] *)
Definition messageOf (error : Thrown) : jsstring :=
  match error with
  | ErrorObject message => message
  | OtherValue => unknown_error
  end.

(** The body of the [try] of [connectToDatabase], lines 25-36.  An open
    connection has [readyState] 1, a closed one 0. *)
Definition tryConnect (p : Platform) (s : Server) : Outcome unit * Server :=
  if negb (truthy_opt (mongodbUri p)) then
    (Throws (ErrorObject uri_missing), s)
  else
    match mongooseConnect p (attempts s) (opt_or (mongodbUri p) []) with
    | Connects =>
        (Returns tt, mkServer 1 true (dbConnected s) (S (attempts s)))
    | ConnectFails error =>
        (Throws error,
         mkServer 0 (isConnected s) (dbConnected s) (S (attempts s)))
    end.

(** [connectToDatabase()], db.ts lines 17-42. *)
Definition connectToDatabase (p : Platform) (s : Server)
  : Outcome unit * Server :=
  if readyState s =? 1 then (Returns tt, s)
  else
    match tryConnect p s with
    | (Returns r, s') => (Returns r, s')
    | (Throws error, s') =>
        (Throws (ErrorObject (connect_failed ++ messageOf error)),
         mkServer (readyState s') false (dbConnected s') (attempts s'))
    end.

(** [withDatabase(operation)], db.ts lines 56-64. *)
Definition withDatabase {T : Type} (p : Platform)
           (operation : Server -> Outcome T * Server) (s : Server)
  : Outcome T * Server :=
  match connectToDatabase p s with
  | (Returns _, s') =>
      match operation s' with
      | (Returns r, s'') => (Returns r, s'')
      | (Throws error, s'') => (Throws error, s'')
      end
  | (Throws error, s') => (Throws error, s')
  end.

(** [ensureDbConnection()], api/index.ts lines 29-39. *)
Definition ensureDbConnection (p : Platform) (s : Server)
  : Outcome unit * Server :=
  if negb (dbConnected s) then
    match connectToDatabase p s with
    | (Returns _, s') =>
        (Returns tt,
         mkServer (readyState s') (isConnected s') true (attempts s'))
    | (Throws error, s') => (Throws error, s')
    end
  else (Returns tt, s).

(** How [handler] ends: the request went to the Express application,
    whose error, if any, rejects the promise that [handler] returns; or
    [handler] answered itself with a status and, in api/index.ts, the
    [message] of the body. *)
Inductive Reply :=
| Dispatched (failure : option Thrown)
| Answered (status : nat) (message : option jsstring).

(** [handler(req, res)], api/index.ts lines 41-72.  The promise around
    the application is returned, not awaited, so the [catch] sees only
    what [ensureDbConnection] throws. *)
Definition handler (p : Platform) (req : Request) (s : Server)
  : Reply * Server :=
  match ensureDbConnection p s with
  | (Returns _, s') => (Dispatched (app p req), s')
  | (Throws error, s') =>
      let errorMessage := messageOf error in
      let statusCode :=
        if match error with
           | ErrorObject message => includes message (lit "MongoDB"%string)
           | OtherValue => false
           end
        then 503 else 500 in
      (Answered statusCode (Some errorMessage), s')
  end.

(** [handler(req, res)] of api/index.mjs, lines 41-60. *)
Definition handler_mjs (p : Platform) (req : Request) (s : Server)
  : Reply * Server :=
  match ensureDbConnection p s with
  | (Returns _, s') => (Dispatched (app p req), s')
  | (Throws _, s') => (Answered 500 None, s')
  end.

End Connection.

(* ================================================================== *)
(** * Vocabulary of the properties: the entry point *)
(* ================================================================== *)

Module ConnectionSpec.

Import JS Connection.





End ConnectionSpec.

(* ================================================================== *)
(** * A turn on a store that can fail ([POST /], messages.ts) *)
(* ================================================================== *)

Module TurnFaults.

Import Enhancer Routes.

Local Open Scope js_scope.

(** The store operations of one turn, each of which can reject:
    [connectToDatabase] inside [withDatabase] (line 109),
    [Thread.findOne] (line 118), [Thread.create] (line 129),
    [Thread.findById] (line 141), [newMessage.save()] (line 158),
    [aiMessage.save()] (line 224) and [Thread.findByIdAndUpdate]
    (line 248).  A flag tells that the operation rejects in this turn,
    for a reason of the store's own; a save also rejects when the schema
    does not accept the document. *)
Record Faults := mkFaults {
  connectFails : bool;
  findOneFails : bool;
  createFails : bool;
  findByIdFails : bool;
  saveUserFails : bool;
  saveAnswerFails : bool;
  updateFails : bool
}.

(** A store operation: it rejects, leaving the store as it was, or
    runs. *)
Definition storeOp {A} (fails : bool) (op : M A) : M A :=
  if fails then throw PersistenceError else op.

Section Handlers.

Variable faults : Faults.
Variable toLowerCase : jsstring -> jsstring.
Variable env : Env.

(** Lines 110-147: the thread a turn works on. *)
Definition resolveThread (threadId : option rawId) (userId content : jsstring)
  : M oid :=
  match threadId with
  | None =>
      thread <- storeOp (findOneFails faults)
                        (fun w => (Normal (findActiveThread userId w), w)) ;;
      match thread with
      | Some thread => ret (thread_id thread)
      | None =>
          thread <- storeOp (createFails faults)
                            (createThread userId (threadTitle content)
                                          userId) ;;
          ret (thread_id thread)
      end
  | Some Malformed => throw CastError
  | Some (WellFormed actualThreadId) =>
      thread <- storeOp (findByIdFails faults)
                        (fun w =>
                           (Normal (findThreadById actualThreadId w), w)) ;;
      match thread with
      | Some _ => ret actualThreadId
      | None => throw (NotFoundError (lit "Thread not found"%string))
      end
  end.

(** [router.post('/')], lines 81-273. *)
Definition createTurn (req : TurnRequest) : M TurnResponse :=
  match req_content req, req_userId req with
  | None, _ => throw (ValidationError (lit "content is required"%string))
  | Some content, userId' =>
    if negb (truthy content)
    then throw (ValidationError (lit "content is required"%string))
    else if negb (truthy_opt userId')
    then throw (ValidationError (lit "userId is required"%string))
    else
      let userId := opt_or userId' [] in
      if match req_threadId req with
         | Some threadId => negb (isValid threadId)
         | None => false
         end
      then throw (ValidationError (lit "Invalid thread ID format"%string))
      else
        storeOp (connectFails faults) (ret tt) ;;;
        actualThreadId <- resolveThread (req_threadId req) userId content ;;
        newMessage <- storeOp (saveUserFails faults)
          (saveMessage env
             (mkDraft actualThreadId content userId
                      (match req_files req with
                       | Some fs => fs
                       | None => []
                       end))) ;;
        indexMessage env userId content actualThreadId
                     (message_id newMessage) ;;;
        rag <- fetchRag env userId content None ;;
        let '(ragAnswer, ragContext, responseId) := rag in
        let aiResponseContent := or_else ragAnswer no_response in
        enhancedResponse <-
          asString (enhanceResponse toLowerCase aiResponseContent content) ;;
        aiMessage <- storeOp (saveAnswerFails faults)
          (saveMessage env
             (mkDraft actualThreadId enhancedResponse (lit "system"%string)
                      [])) ;;
        indexMessage env userId enhancedResponse actualThreadId
                     (message_id aiMessage) ;;;
        storeOp (updateFails faults) (touchThread actualThreadId) ;;;
        ret (mkTurnResponse enhancedResponse ragContext responseId
                            actualThreadId (message_id newMessage))
  end.

End Handlers.

End TurnFaults.

(* ================================================================== *)
(** * Vocabulary of the properties: a turn on a store that can fail *)
(* ================================================================== *)

Module TurnFaultsSpec.

Import Enhancer ServiceSpec EnhancerSpec Routes TurnSpec TurnFaults.

(** No store operation rejects. *)
Definition noFaults : Faults :=
  mkFaults false false false false false false false.

(** Only the final update of the thread's timestamp rejects. *)
Definition updateFault : Faults :=
  mkFaults false false false false false false true.

(** The user message of a turn, as stored on the world [w1]. *)
Definition userMessageOf (tid : oid) (content userId : jsstring)
           (files : list jsstring) (w1 : World) : Message :=
  instantiate (nextId w1) (now w1) (mkDraft tid content userId files).

(** A turn from the resolved thread on, flattened. *)
Definition faultyOutcome (faults : Faults)
           (toLowerCase : jsstring -> jsstring) (env : Env)
           (userId content : jsstring) (files : list jsstring) (tid : oid)
           (w1 : World) : Completion TurnResponse * World :=
  let d1 := mkDraft tid content userId files in
  if saveUserFails faults || negb (messageAccepted env d1)
  then (Throw PersistenceError, w1)
  else
    let w3 := fetched env userId content None
                (indexed env userId content tid (nextId w1) (saved d1 w1)) in
    let '(a, c, r) := ragFields (ragOutcome env userId content None) in
    match enhanceResponse toLowerCase (or_else a no_response) content with
    | VString s =>
        let d2 := mkDraft tid s (lit "system"%string) [] in
        if saveAnswerFails faults || negb (messageAccepted env d2)
        then (Throw PersistenceError, w3)
        else
          let w5 := indexed env userId s tid (nextId w3) (saved d2 w3) in
          if updateFails faults then (Throw PersistenceError, w5)
          else (Normal (mkTurnResponse s c r tid (nextId w1)), touched tid w5)
    | _ => (Throw TypeError, w3)
    end.

(** The thread lookup of a turn, flattened. *)
Definition faultyResolve (faults : Faults) (threadId : option rawId)
           (userId content : jsstring) (w : World) : Completion oid * World :=
  match threadId with
  | None =>
      if findOneFails faults then (Throw PersistenceError, w)
      else
        match findActiveThread userId w with
        | Some thread => (Normal (thread_id thread), w)
        | None =>
            if createFails faults then (Throw PersistenceError, w)
            else (Normal (nextId w), created userId (threadTitle content) w)
        end
  | Some Malformed => (Throw CastError, w)
  | Some (WellFormed tid) =>
      if findByIdFails faults then (Throw PersistenceError, w)
      else
        match findThreadById tid w with
        | Some _ => (Normal tid, w)
        | None => (Throw thread_not_found, w)
        end
  end.

(** What a failed turn has left in the message collection: nothing, the
    user message, or the user message and the assistant message. *)
Inductive Written :=
| WroteNothing
| WroteUserMessage (userMessage : Message)
| WroteBoth (userMessage aiMessage : Message).

Definition writtenMessages (x : Written) : list Message :=
  match x with
  | WroteNothing => []
  | WroteUserMessage userMessage => [userMessage]
  | WroteBoth userMessage aiMessage => [userMessage; aiMessage]
  end.

(** A thread of another user, for a turn by ["u2"]. *)
Definition foreignRequest : TurnRequest :=
  mkTurnRequest (Some (WellFormed 0)) (Some (lit "Hello"%string))
                (Some (lit "u2"%string)) None.

End TurnFaultsSpec.

(* ================================================================== *)
(** * Facts about JavaScript strings *)
(* ================================================================== *)

Module JSFacts.

Lemma eqb_eq (a b : jsstring) : JS.eqb a b = true <-> a = b.
Proof.
  revert b; induction a as [|x a IH]; intros [|y b]; simpl; split;
    try congruence; try reflexivity.
  - intros H. apply andb_true_iff in H as [Hx Hr].
    apply N.eqb_eq in Hx. apply IH in Hr. congruence.
  - intros H. inversion H; subst. rewrite N.eqb_refl. simpl. now apply IH.
Qed.

Lemma eqb_refl (a : jsstring) : JS.eqb a a = true.
Proof. now apply eqb_eq. Qed.

Lemma eqb_neq (a b : jsstring) : JS.eqb a b = false <-> a <> b.
Proof.
  split.
  - intros H E. apply eqb_eq in E. congruence.
  - intros H. destruct (JS.eqb a b) eqn:E; [|reflexivity].
    apply eqb_eq in E. contradiction.
Qed.

Lemma truthy_nonempty (s : jsstring) : truthy s = true <-> s <> [].
Proof. destruct s; simpl; split; congruence. Qed.

Lemma or_else_nonempty (a b : jsstring) : b <> [] -> or_else a b <> [].
Proof.
  unfold or_else. destruct a; simpl; congruence.
Qed.

Lemma assoc_In (k v : jsstring) (own : list (jsstring * jsstring)) :
  assoc k own = Some v -> In (k, v) own.
Proof.
  induction own as [|[k' v'] own IH]; simpl; [discriminate|].
  destruct (JS.eqb k k') eqn:E.
  - intros [= ->]. apply eqb_eq in E. subst. now left.
  - intros H. right. now apply IH.
Qed.

End JSFacts.

(* ================================================================== *)
(** * ResponseEnhancer: properties *)
(* ================================================================== *)

Module EnhancerFacts.

Import Enhancer JSFacts Engine EnhancerSpec.

Lemma assoc_boilerplate (s : jsstring) :
  boilerplate s = false -> assoc s enhancedResponses = None.
Proof.
  unfold boilerplate, enhancedResponses. simpl.
  repeat (destruct (JS.eqb s _); simpl; try discriminate).
  reflexivity.
Qed.

Lemma enhanceResponse_rules
      (toLowerCase : jsstring -> jsstring) (candidateAnswer q : jsstring) :
  length candidateAnswer <= 200 ->
  boilerplate candidateAnswer = false ->
  mem candidateAnswer objectPrototypeMembers = false ->
  enhanceResponse toLowerCase candidateAnswer q =
    match classify (toLowerCase q) with
    | Some c => VString (elaboration c)
    | None => VString (candidateAnswer ++ generic_suffix)
    end.
Proof.
  intros Hlen Hb Hp. unfold enhanceResponse.
  apply Nat.ltb_ge in Hlen. rewrite Hlen.
  unfold getProperty. rewrite (assoc_boilerplate _ Hb), Hp. simpl truthy_value.
  cbv iota. unfold classify, categories, in_category, keywords.
  cbn [find existsb map elaboration].
  repeat rewrite orb_false_r.
  repeat match goal with
         | |- context [if ?b || ?c then _ else _] =>
             destruct (b || c); [reflexivity|]
         end.
  reflexivity.
Qed.

(** X1: rules 3 and 4 hold for every short answer that is neither a known
    fallback nor the name of a member of [Object.prototype]: the answer
    is the elaboration of the earliest category the lower-cased query
    belongs to, or, when it belongs to none, the answer followed by the
    generic suffix. *)
Theorem enhance_by_category
        (toLowerCase : jsstring -> jsstring) (candidateAnswer q : jsstring) :
  length candidateAnswer <= 200 ->
  boilerplate candidateAnswer = false ->
  mem candidateAnswer objectPrototypeMembers = false ->
  enhanceResponse toLowerCase candidateAnswer q =
    match classify (toLowerCase q) with
    | Some c => VString (elaboration c)
    | None => VString (candidateAnswer ++ generic_suffix)
    end.
Proof. apply enhanceResponse_rules. Qed.

Lemma enhance_by_category_witness :
  enhanceResponse asciiToLowerCase (lit "ok"%string)
                  (lit "Thanks, bye"%string)
  = VString thanks_elaboration.
Proof.
  rewrite (enhance_by_category asciiToLowerCase (lit "ok"%string)
                               (lit "Thanks, bye"%string));
    [reflexivity | apply Nat.leb_le; reflexivity | reflexivity | reflexivity].
Defined.

(** The tie-break example of the specification: the query
    ["hello and help"] belongs to the greeting and to the help category,
    and the greeting elaboration is returned. *)
Theorem enhance_hello_and_help
        (toLowerCase : jsstring -> jsstring) (candidateAnswer : jsstring) :
  lowercases_ascii toLowerCase ->
  length candidateAnswer <= 200 ->
  boilerplate candidateAnswer = false ->
  mem candidateAnswer objectPrototypeMembers = false ->
  enhanceResponse toLowerCase candidateAnswer (lit "hello and help"%string)
  = VString greeting_elaboration.
Proof.
  intros Hl Hlen Hb Hp.
  rewrite enhanceResponse_rules by assumption.
  rewrite Hl by reflexivity. reflexivity.
Qed.

Lemma enhance_hello_and_help_witness :
  enhanceResponse asciiToLowerCase (lit "ok"%string)
                  (lit "hello and help"%string)
  = VString greeting_elaboration.
Proof.
  apply (enhance_hello_and_help asciiToLowerCase (lit "ok"%string)).
  - intros s _. reflexivity.
  - apply Nat.leb_le; reflexivity.
  - reflexivity.
  - reflexivity.
Defined.

Lemma enhanceResponse_long
      (toLowerCase : jsstring -> jsstring) (originalResponse q : jsstring) :
  (200 <? length originalResponse) = true ->
  enhanceResponse toLowerCase originalResponse q = VString originalResponse.
Proof.
  intros H. unfold enhanceResponse. now rewrite H.
Qed.

(** C3: an answer longer than 200 code units comes back unchanged,
    whatever the query. *)
Theorem enhance_long_unchanged
        (toLowerCase : jsstring -> jsstring) (candidateAnswer q : jsstring) :
  200 < length candidateAnswer ->
  enhanceResponse toLowerCase candidateAnswer q = VString candidateAnswer.
Proof.
  intros H. apply enhanceResponse_long. now apply Nat.ltb_lt.
Qed.

Lemma enhance_long_unchanged_witness :
  200 < length disabled_answer /\
  enhanceResponse asciiToLowerCase disabled_answer (lit "Hello"%string)
  = VString disabled_answer.
Proof.
  assert (H : 200 < length disabled_answer)
    by (apply Nat.ltb_lt; vm_compute; reflexivity).
  split; [exact H|].
  exact (enhance_long_unchanged asciiToLowerCase disabled_answer
                                (lit "Hello"%string) H).
Defined.

(** C4: a short answer equal to one of the known boilerplate fallbacks is
    replaced by the substitute of that entry, for every query and every
    invocation. *)
Theorem enhance_boilerplate_substitute
        (toLowerCase : jsstring -> jsstring)
        (candidateAnswer substitute q : jsstring) :
  length candidateAnswer <= 200 ->
  In (candidateAnswer, substitute) enhancedResponses ->
  enhanceResponse toLowerCase candidateAnswer q = VString substitute.
Proof.
  intros _ Hin. unfold enhancedResponses in Hin. simpl in Hin.
  decompose [or] Hin; clear Hin;
    try match goal with H : False |- _ => destruct H end;
    match goal with H : (_, _) = (_, _) |- _ => inversion H; subst; clear H end;
    vm_compute; reflexivity.
Qed.

Lemma enhance_boilerplate_substitute_witness :
  enhanceResponse asciiToLowerCase fallback_no_response (lit "hello"%string)
  = VString enhanced_no_response.
Proof.
  apply (enhance_boilerplate_substitute asciiToLowerCase
           fallback_no_response enhanced_no_response (lit "hello"%string)).
  - apply Nat.leb_le; vm_compute; reflexivity.
  - simpl; left; reflexivity.
Defined.

(** C5, at the answer ["constructor"]: it is short and no known fallback,
    yet the lookup in [enhancedResponses] finds the member inherited from
    [Object.prototype], and that object is returned instead of the
    elaboration of the query's category or the answer with the generic
    suffix. *)
Theorem enhance_inherited_member
        (toLowerCase : jsstring -> jsstring) (q : jsstring) :
  let candidateAnswer := lit "constructor"%string in
  length candidateAnswer <= 200 /\
  boilerplate candidateAnswer = false /\
  enhanceResponse toLowerCase candidateAnswer q = VInherited candidateAnswer /\
  enhanceResponse toLowerCase candidateAnswer q
  <> VString greeting_elaboration /\
  enhanceResponse toLowerCase candidateAnswer q
  <> VString (candidateAnswer ++ generic_suffix).
Proof.
  intros candidateAnswer.
  assert (E : enhanceResponse toLowerCase candidateAnswer q
              = VInherited candidateAnswer) by (vm_compute; reflexivity).
  rewrite E. repeat split; try discriminate.
  apply Nat.leb_le; vm_compute; reflexivity.
Qed.

End EnhancerFacts.

(* ================================================================== *)
(** * RetrievalClient and EmbeddingIndexer: properties *)
(* ================================================================== *)

Module ServiceFacts.

Import JSFacts ServiceSpec.

Lemma failure_answer_same : failure_answer = disabled_answer.
Proof. reflexivity. Qed.

Lemma disabled_answer_length : length disabled_answer = 418.
Proof. vm_compute. reflexivity. Qed.

Lemma getRAGResponse_run (env : Env) (userId query : jsstring)
      (threadId : option oid) (w : World) :
  getRAGResponse env userId query threadId w =
    if apiUrl_set env then
      (Normal match postRagGenerate env (mkRagRequest userId threadId query) with
              | HttpOk data => data
              | _ => Some degraded_failure
              end,
       logged (CallRagGenerate (mkRagRequest userId threadId query)) w)
    else (Normal (Some degraded_disabled), w).
Proof.
  unfold getRAGResponse, isEnabled.
  destruct (apiUrl_set env); simpl; [|reflexivity].
  unfold try_catch, axiosPostRagGenerate, bind, log_call, http. simpl.
  destruct (postRagGenerate env _); reflexivity.
Qed.

Lemma createEmbedding_run (env : Env) (userId content : jsstring)
      (threadId messageId : option oid) (w : World) :
  createEmbedding env userId content threadId messageId w =
    if apiUrl_set env then
      (Normal
         match postEmbed env (mkEmbedRequest userId threadId content messageId)
         with
         | HttpOk data => data
         | HttpAxiosError status message =>
             Some (mkEmbeddingResponse (lit "error"%string)
                                       (Some (api_error status message)))
         | HttpOtherError =>
             Some (mkEmbeddingResponse
                     (lit "error"%string)
                     (Some (lit "Failed to create embedding"%string)))
         end,
       logged (CallEmbed (mkEmbedRequest userId threadId content messageId)) w)
    else
      (Normal (Some (mkEmbeddingResponse (lit "error"%string)
                                         (Some disabled_error))),
       w).
Proof.
  unfold createEmbedding, isEnabled.
  destruct (apiUrl_set env); simpl; [|reflexivity].
  unfold try_catch, axiosPostEmbed, bind, log_call, http. simpl.
  destruct (postEmbed env _); reflexivity.
Qed.

(** C1: [getRAGResponse] always completes normally.  Without a configured
    endpoint it answers with the fixed degraded text and a context that
    names the disabled service, and makes no call; when the call fails it
    answers with the same text, character for character, and a context
    that reports the error; when the call succeeds it hands back the
    body of the reply as it is. *)
Theorem getRAGResponse_fail_open
        (env : Env) (userId query : jsstring) (threadId : option oid)
        (w : World) :
  fst (getRAGResponse env userId query threadId w) =
    Normal (if apiUrl_set env then
              match postRagGenerate env (mkRagRequest userId threadId query)
              with
              | HttpOk data => data
              | HttpAxiosError _ _ | HttpOtherError => Some degraded_failure
              end
            else Some degraded_disabled)
  /\ rag_answer degraded_failure = rag_answer degraded_disabled
  /\ rag_answer degraded_disabled = Some disabled_answer
  /\ disabled_answer <> []
  /\ rag_context degraded_disabled = Some disabled_context
  /\ includes disabled_context (lit "disabled"%string) = true
  /\ rag_context degraded_failure = Some failure_context
  /\ includes failure_context (lit "Error"%string) = true.
Proof.
  rewrite getRAGResponse_run.
  repeat split; try reflexivity.
  - destruct (apiUrl_set env); [|reflexivity]. simpl.
    destruct (postRagGenerate env _); reflexivity.
  - discriminate.
Qed.

End ServiceFacts.

(* ================================================================== *)
(** * The turn protocol: how a request runs *)
(* ================================================================== *)

Module TurnFacts.

Import Enhancer JSFacts ServiceSpec ServiceFacts EnhancerSpec EnhancerFacts.
Import Routes TurnSpec.

Lemma indexMessage_run env userId text tid mid w :
  indexMessage env userId text tid mid w
  = (Normal tt, indexed env userId text tid mid w).
Proof.
  unfold indexMessage, indexed, isEnabled.
  destruct (apiUrl_set env) eqn:E; [|reflexivity].
  unfold try_catch, bind. rewrite createEmbedding_run, E.
  destruct (postEmbed env _) as [[d|]| |]; reflexivity.
Qed.

Lemma fetchRag_run env userId q tid w :
  fetchRag env userId q tid w
  = (Normal (ragFields (ragOutcome env userId q tid)),
     fetched env userId q tid w).
Proof.
  unfold fetchRag, try_catch, bind, ragOutcome, fetched.
  rewrite getRAGResponse_run.
  destruct (apiUrl_set env).
  - destruct (postRagGenerate env _) as [[d|]| |]; reflexivity.
  - reflexivity.
Qed.

Lemma createTurn_run toLowerCase env threadId content userId files w :
  truthy content = true -> truthy userId = true ->
  threadId <> Some Malformed ->
  createTurn toLowerCase env
             (mkTurnRequest threadId (Some content) (Some userId) files) w =
  match resolveThread threadId userId content w with
  | (Normal tid, w1) =>
      turnOutcome toLowerCase env userId content (files_or_empty files) tid w1
  | (Throw e, w1) => (Throw e, w1)
  end.
Proof.
  intros Hc Hu Hv. unfold createTurn, files_or_empty.
  cbn [req_content req_userId req_threadId req_files truthy_opt opt_or].
  assert (Eu : or_else userId [] = userId) by (unfold or_else; now rewrite Hu).
  rewrite Hc, Hu, Eu. cbn [negb].
  replace (match threadId with
           | Some t => negb (isValid t)
           | None => false
           end) with false
    by (destruct threadId as [[|]|]; simpl; congruence).
  unfold bind at 1.
  destruct (resolveThread threadId userId content w) as [[tid|e] w1];
    [|reflexivity].
  unfold turnOutcome, bind. unfold saveMessage at 1.
  destruct (messageAccepted env _); [|reflexivity].
  rewrite indexMessage_run, fetchRag_run. cbn [message_id instantiate].
  fold (saved (mkDraft tid content userId
                       match files with Some fs => fs | None => [] end) w1).
  destruct (ragFields _) as [[a c] r].
  destruct (enhanceResponse toLowerCase (or_else a no_response) content)
    as [s| |n]; try reflexivity.
  cbn [asString ret]. unfold saveMessage at 1.
  destruct (messageAccepted env _); [|reflexivity].
  rewrite indexMessage_run. reflexivity.
Qed.

(** ** Selecting the active thread *)

Lemma fold_newer_spec (l : list Thread) (b : option Thread) :
  match fold_left newer l b with
  | None => b = None /\ l = []
  | Some t =>
      (b = Some t \/ In t l)
      /\ (forall t', In t' l -> thread_updatedAt t' <= thread_updatedAt t)
      /\ (forall b0, b = Some b0 -> thread_updatedAt b0 <= thread_updatedAt t)
  end.
Proof.
  revert b; induction l as [|x l IH]; intros b; simpl.
  - destruct b as [b0|]; [|now split].
    repeat split; [now left|contradiction|].
    intros ? [= ->]. lia.
  - specialize (IH (newer b x)).
    destruct (fold_left newer l (newer b x)) as [t|].
    + destruct IH as (Hin & Hmax & Hb).
      assert (Hx : thread_updatedAt x <= thread_updatedAt t
                   /\ forall b0, b = Some b0 ->
                                 thread_updatedAt b0 <= thread_updatedAt t).
      { unfold newer in Hb. destruct b as [b0|].
        - destruct (thread_updatedAt b0 <? thread_updatedAt x) eqn:E.
          + apply Nat.ltb_lt in E. specialize (Hb x eq_refl).
            split; [exact Hb|]. intros ? [= <-]. lia.
          + apply Nat.ltb_ge in E. specialize (Hb b0 eq_refl).
            split; [lia|]. intros ? [= <-]. exact Hb.
        - split; [apply Hb; reflexivity|discriminate]. }
      destruct Hx as [Hx Hb'].
      repeat split.
      * destruct Hin as [Hin|Hin]; [|right; now right].
        unfold newer in Hin. destruct b as [b0|].
        -- destruct (thread_updatedAt b0 <? thread_updatedAt x);
             injection Hin as <-; [right; now left|now left].
        -- injection Hin as <-. right; now left.
      * intros t' [<-|Ht']; [exact Hx|now apply Hmax].
      * exact Hb'.
    + destruct IH as [Hn _]. unfold newer in Hn.
      destruct b as [b0|]; [destruct (_ <? _)|]; discriminate.
Qed.

Lemma filter_nil {A} (f : A -> bool) (l : list A) :
  (forall x, In x l -> f x = false) -> filter f l = [].
Proof.
  induction l as [|x l IH]; intros H; simpl; [reflexivity|].
  rewrite (H x (or_introl eq_refl)). apply IH. intros; apply H; now right.
Qed.

Lemma findActiveThread_none userId w :
  (forall t, In t (threads w) -> activeFor userId t = false) ->
  findActiveThread userId w = None.
Proof.
  intros H. unfold findActiveThread.
  now rewrite (filter_nil (fun t => JS.eqb (thread_userId t) userId
                                    && thread_isActive t) (threads w) H).
Qed.

Lemma findActiveThread_some userId w t0 :
  In t0 (threads w) -> activeFor userId t0 = true ->
  exists t, findActiveThread userId w = Some t
            /\ In t (threads w) /\ activeFor userId t = true
            /\ forall t', In t' (threads w) -> activeFor userId t' = true ->
                          thread_updatedAt t' <= thread_updatedAt t.
Proof.
  intros Hin Hact. unfold findActiveThread.
  pose proof (fold_newer_spec (filter (activeFor userId) (threads w)) None)
    as S.
  change (filter (fun t => JS.eqb (thread_userId t) userId && thread_isActive t)
                 (threads w))
    with (filter (activeFor userId) (threads w)).
  destruct (fold_left newer _ None) as [t|].
  - destruct S as ([S1|S1] & S2 & _); [discriminate|].
    apply filter_In in S1 as [S1a S1b].
    exists t. repeat split; try assumption.
    intros t' Ht' Ha'. apply S2. apply filter_In. now split.
  - destruct S as [_ S]. exfalso.
    assert (In t0 (filter (activeFor userId) (threads w)))
      by (apply filter_In; now split).
    rewrite S in H. contradiction.
Qed.

Lemma resolveThread_create userId content w :
  findActiveThread userId w = None ->
  resolveThread None userId content w
  = (Normal (nextId w), created userId (threadTitle content) w).
Proof.
  intros H. unfold resolveThread. rewrite H. reflexivity.
Qed.

(** C6: without a thread id, a user with no active thread gets exactly
    one new thread, active, created by and owned by the user, titled
    with the first 50 code units of the content followed by ["..."]
    exactly when the content is longer; a user with an active thread
    gets the most recently updated one, and nothing is created. *)
Theorem resolveThread_find_or_create
        (userId content : jsstring) (w : World) :
  ((forall t, In t (threads w) -> activeFor userId t = false) ->
   exists thread w' suffix,
     resolveThread None userId content w = (Normal (thread_id thread), w')
     /\ threads w' = threads w ++ [thread]
     /\ messages w' = messages w
     /\ thread_isActive thread = true
     /\ thread_createdBy thread = userId
     /\ thread_userId thread = userId
     /\ thread_title thread = firstn 50 content ++ suffix
     /\ (50 < length content /\ suffix = lit "..."%string
         \/ length content <= 50 /\ suffix = []))
  /\
  (forall t0, In t0 (threads w) -> activeFor userId t0 = true ->
   exists thread,
     resolveThread None userId content w = (Normal (thread_id thread), w)
     /\ In thread (threads w)
     /\ activeFor userId thread = true
     /\ forall t', In t' (threads w) -> activeFor userId t' = true ->
                   thread_updatedAt t' <= thread_updatedAt thread).
Proof.
  split.
  - intros Hnone. apply findActiveThread_none in Hnone.
    rewrite (resolveThread_create userId content w Hnone).
    exists (mkThread (nextId w) userId (threadTitle content) true userId
                     (now w) (now w)),
           (created userId (threadTitle content) w),
           (if 50 <? length content then lit "..."%string else []).
    repeat split.
    destruct (50 <? length content) eqn:E.
    + left. apply Nat.ltb_lt in E. now split.
    + right. apply Nat.ltb_ge in E. now split.
  - intros t0 Hin Hact.
    destruct (findActiveThread_some userId w t0 Hin Hact)
      as (t & Hfind & Ht & Ha & Hmax).
    exists t. unfold resolveThread. rewrite Hfind. now repeat split.
Qed.

Lemma resolveThread_find_or_create_witness :
  (exists thread w' suffix,
     resolveThread None (lit "u1"%string) (lit "Hello"%string) emptyWorld
     = (Normal (thread_id thread), w')
     /\ threads w' = threads emptyWorld ++ [thread]
     /\ messages w' = messages emptyWorld
     /\ thread_isActive thread = true
     /\ thread_createdBy thread = lit "u1"%string
     /\ thread_userId thread = lit "u1"%string
     /\ thread_title thread = firstn 50 (lit "Hello"%string) ++ suffix
     /\ (50 < length (lit "Hello"%string) /\ suffix = lit "..."%string
         \/ length (lit "Hello"%string) <= 50 /\ suffix = []))
  /\
  (exists thread,
     resolveThread None (lit "u1"%string) (lit "Hello"%string) twoThreads
     = (Normal (thread_id thread), twoThreads)
     /\ In thread (threads twoThreads)
     /\ activeFor (lit "u1"%string) thread = true
     /\ forall t', In t' (threads twoThreads) ->
                   activeFor (lit "u1"%string) t' = true ->
                   thread_updatedAt t' <= thread_updatedAt thread).
Proof.
  split.
  - apply (proj1 (resolveThread_find_or_create
                    (lit "u1"%string) (lit "Hello"%string) emptyWorld)).
    intros t [].
  - apply (proj2 (resolveThread_find_or_create
                    (lit "u1"%string) (lit "Hello"%string) twoThreads)
                 (mkThread 0 (lit "u1"%string) (lit "first"%string) true
                           (lit "u1"%string) 1 5)).
    + simpl. left. reflexivity.
    + reflexivity.
Defined.

(** ** The end-to-end turn *)

Lemma find_app_none {A} (f : A -> bool) (l : list A) (x : A) :
  (forall y, In y l -> f y = false) ->
  find f (l ++ [x]) = if f x then Some x else None.
Proof.
  induction l as [|y l IH]; intros H; simpl; [reflexivity|].
  rewrite (H y (or_introl eq_refl)). apply IH. intros; apply H; now right.
Qed.

Lemma find_none_all {A} (f : A -> bool) (l : list A) :
  (forall y, In y l -> f y = false) -> find f l = None.
Proof.
  induction l as [|y l IH]; intros H; simpl; [reflexivity|].
  rewrite (H y (or_introl eq_refl)). apply IH. intros; apply H; now right.
Qed.

Lemma messages_indexed env u t tid mid w :
  messages (indexed env u t tid mid w) = messages w.
Proof. unfold indexed. now destruct (apiUrl_set env). Qed.

Lemma messages_fetched env u q tid w :
  messages (fetched env u q tid w) = messages w.
Proof. unfold fetched. now destruct (apiUrl_set env). Qed.

Lemma threads_indexed env u t tid mid w :
  threads (indexed env u t tid mid w) = threads w.
Proof. unfold indexed. now destruct (apiUrl_set env). Qed.

Lemma threads_fetched env u q tid w :
  threads (fetched env u q tid w) = threads w.
Proof. unfold fetched. now destruct (apiUrl_set env). Qed.

Lemma nextId_indexed env u t tid mid w :
  nextId (indexed env u t tid mid w) = nextId w.
Proof. unfold indexed. now destruct (apiUrl_set env). Qed.

Lemma nextId_fetched env u q tid w :
  nextId (fetched env u q tid w) = nextId w.
Proof. unfold fetched. now destruct (apiUrl_set env). Qed.

(** C2: the turn [createTurn(content = "Hello", userId = "u1")], run with
    no thread of ["u1"] and without embedding endpoint, answers with the
    degraded text of the disabled service (longer than 200 code units,
    so the enhancer leaves it unchanged); its thread id is that of a
    thread the turn created, its message id that of the stored user
    message, and the thread holds exactly the user message and the
    assistant message afterwards. *)
Theorem createTurn_hello_disabled
        (toLowerCase : jsstring -> jsstring) (env : Env) (w : World) :
  consistent w ->
  apiUrl_set env = false ->
  (forall t, In t (threads w) -> thread_userId t <> lit "u1"%string) ->
  (forall d, messageAccepted env d = true) ->
  exists resp w' thread userMessage aiMessage,
    createTurn toLowerCase env helloRequest w = (Normal resp, w')
    /\ resp_answer resp = disabled_answer
    /\ 200 < length disabled_answer
    /\ enhanceResponse toLowerCase disabled_answer (lit "Hello"%string)
       = VString disabled_answer
    /\ resp_context resp = disabled_context
    /\ findThreadById (resp_threadId resp) w = None
    /\ findThreadById (resp_threadId resp) w' = Some thread
    /\ thread_userId thread = lit "u1"%string
    /\ thread_isActive thread = true
    /\ length (threads w') = S (length (threads w))
    /\ filter (fun m => message_threadId m =? resp_threadId resp)
              (messages w')
       = [userMessage; aiMessage]
    /\ message_id userMessage = resp_messageId resp
    /\ message_content userMessage = lit "Hello"%string
    /\ message_sender userMessage = lit "u1"%string
    /\ message_content aiMessage = resp_answer resp
    /\ message_sender aiMessage = lit "system"%string.
Proof.
  intros [Hth Hms] Hoff Hnone Hacc.
  assert (Hlen : 200 < length disabled_answer)
    by (rewrite disabled_answer_length; lia).
  assert (Hfind : findActiveThread (lit "u1"%string) w = None).
  { apply findActiveThread_none. intros t Ht. unfold activeFor.
    apply Hnone in Ht. apply eqb_neq in Ht. now rewrite Ht. }
  unfold helloRequest.
  rewrite createTurn_run by (reflexivity || discriminate).
  rewrite (resolveThread_create _ _ _ Hfind).
  unfold turnOutcome. rewrite !Hacc.
  unfold ragOutcome. rewrite Hoff.
  change (ragFields (Some degraded_disabled))
    with (disabled_answer, disabled_context, @nil code_unit).
  cbv beta iota zeta.
  change (or_else disabled_answer no_response) with disabled_answer.
  rewrite (enhanceResponse_long toLowerCase disabled_answer
                                (lit "Hello"%string) eq_refl).
  cbv beta iota zeta. rewrite !Hacc.
  unfold indexed, fetched. rewrite Hoff.
  set (tid := nextId w).
  eexists _, _, _, _, _.
  split; [reflexivity|].
  cbn [resp_answer resp_context resp_threadId resp_messageId].
  split; [reflexivity|]. split; [exact Hlen|].
  split; [reflexivity|]. split; [reflexivity|].
  assert (Hold : forall t, In t (threads w) -> (thread_id t =? tid) = false).
  { intros t Ht. apply Nat.eqb_neq. apply Hth in Ht. subst tid. lia. }
  split; [now apply find_none_all|].
  split.
  { unfold findThreadById, touched, saved, created.
    cbn [threads messages nextId now calls].
    rewrite map_app. cbn [map].
    rewrite find_app_none.
    - unfold touch. cbn [thread_id]. unfold tid. rewrite ?Nat.eqb_refl.
      cbn [thread_id]. rewrite ?Nat.eqb_refl. reflexivity.
    - intros y Hy. apply in_map_iff in Hy as (t & <- & Ht).
      unfold touch. rewrite (Hold t Ht). now apply Hold. }
  cbn [thread_userId thread_isActive].
  split; [reflexivity|]. split; [reflexivity|].
  split.
  { unfold touched, saved, created. cbn [threads messages nextId now calls].
    rewrite length_map, length_app. simpl. lia. }
  split.
  { unfold touched, saved, created. cbn [threads messages nextId now calls].
    rewrite <- app_assoc, filter_app.
    rewrite filter_nil.
    - cbn [app filter instantiate message_threadId draft_threadId].
      rewrite Nat.eqb_refl. reflexivity.
    - intros m Hm. apply Nat.eqb_neq. apply Hms in Hm. subst tid. lia. }
  cbn [message_id message_content message_sender instantiate draft_content
       draft_sender created nextId].
  repeat split; reflexivity.
Qed.

Lemma createTurn_hello_disabled_witness :
  exists resp w' thread userMessage aiMessage,
    createTurn Engine.asciiToLowerCase offlineEnv helloRequest emptyWorld
    = (Normal resp, w')
    /\ resp_answer resp = disabled_answer
    /\ 200 < length disabled_answer
    /\ enhanceResponse Engine.asciiToLowerCase disabled_answer
                       (lit "Hello"%string)
       = VString disabled_answer
    /\ resp_context resp = disabled_context
    /\ findThreadById (resp_threadId resp) emptyWorld = None
    /\ findThreadById (resp_threadId resp) w' = Some thread
    /\ thread_userId thread = lit "u1"%string
    /\ thread_isActive thread = true
    /\ length (threads w') = S (length (threads emptyWorld))
    /\ filter (fun m => message_threadId m =? resp_threadId resp)
              (messages w')
       = [userMessage; aiMessage]
    /\ message_id userMessage = resp_messageId resp
    /\ message_content userMessage = lit "Hello"%string
    /\ message_sender userMessage = lit "u1"%string
    /\ message_content aiMessage = resp_answer resp
    /\ message_sender aiMessage = lit "system"%string.
Proof.
  apply (createTurn_hello_disabled Engine.asciiToLowerCase offlineEnv
                                   emptyWorld).
  - split; intros ? [].
  - reflexivity.
  - intros t [].
  - reflexivity.
Defined.

(** ** Answers are never empty *)

Lemma lit_cons_nonempty (c : ascii) (s : string) : lit (String c s) <> [].
Proof. discriminate. Qed.

Lemma enhancedResponses_values (k v : jsstring) :
  In (k, v) enhancedResponses -> v <> [].
Proof.
  unfold enhancedResponses. simpl.
  intros H; decompose [or] H; clear H;
    try match goal with H : False |- _ => destruct H end;
    match goal with H : (_, _) = (_, _) |- _ => inversion H; subst; clear H end;
    apply lit_cons_nonempty.
Qed.

Lemma enhanceResponse_nonempty toLowerCase (a q s : jsstring) :
  a <> [] -> enhanceResponse toLowerCase a q = VString s -> s <> [].
Proof.
  intros Ha. unfold enhanceResponse.
  destruct (200 <? length a); [intros [= <-]; exact Ha|].
  unfold getProperty. destruct (assoc a enhancedResponses) as [v|] eqn:E.
  - apply assoc_In, enhancedResponses_values in E.
    cbn [truthy_value]. rewrite (proj2 (truthy_nonempty v) E).
    now intros [= <-].
  - destruct (mem a objectPrototypeMembers); cbn [truthy_value];
      [discriminate|].
    repeat match goal with
           | |- context [if ?b || ?c then _ else _] =>
               destruct (b || c); [intros [= <-]; apply lit_cons_nonempty|]
           end.
    intros [= <-]. destruct a; [contradiction|discriminate].
Qed.

Lemma no_response_nonempty : no_response <> [].
Proof. apply lit_cons_nonempty. Qed.

Lemma enhance_no_response toLowerCase q :
  enhanceResponse toLowerCase no_response q = VString enhanced_no_response.
Proof. vm_compute. reflexivity. Qed.

Lemma turnOutcome_answer toLowerCase env userId content files tid w1 :
  match turnOutcome toLowerCase env userId content files tid w1 with
  | (Normal resp, w') =>
      resp_answer resp <> []
      /\ (exists earlier aiMessage,
             messages w' = earlier ++ [aiMessage]
             /\ message_content aiMessage = resp_answer resp
             /\ message_sender aiMessage = lit "system"%string)
      /\ (fst (fst (ragFields (ragOutcome env userId content None))) = [] ->
          resp_answer resp = enhanced_no_response)
  | (Throw _, _) => True
  end.
Proof.
  unfold turnOutcome.
  destruct (messageAccepted env _); [|exact I].
  destruct (ragFields _) as [[a c] r]. cbn [fst].
  destruct (enhanceResponse toLowerCase (or_else a no_response) content)
    as [s| |n] eqn:E; try exact I.
  destruct (messageAccepted env _); [|exact I].
  cbn [resp_answer]. split; [|split].
  - eapply enhanceResponse_nonempty; [|exact E].
    apply or_else_nonempty, no_response_nonempty.
  - eexists _, _. unfold touched, saved at 1.
    cbn [messages]. rewrite messages_indexed. cbn [messages].
    split; [reflexivity|]. split; reflexivity.
  - intros ->. change (or_else [] no_response) with no_response in E.
    rewrite enhance_no_response in E. now injection E as <-.
Qed.

Lemma generateOnly_run toLowerCase env tid userMessage thread w :
  truthy userMessage = true ->
  findThreadById tid w = Some thread ->
  generateOnly toLowerCase env
               (mkGenerateRequest (Some (WellFormed tid)) (Some userMessage)) w
  = generateOutcome toLowerCase env thread userMessage tid w.
Proof.
  intros Hu Hf. unfold generateOnly.
  cbn [gen_threadId gen_userMessage]. rewrite Hu. cbn [negb]. rewrite Hf.
  unfold generateOutcome, bind. unfold saveMessage at 1.
  destruct (messageAccepted env _); [|reflexivity].
  rewrite indexMessage_run, fetchRag_run. cbn [message_id instantiate].
  fold (saved (mkDraft tid userMessage
                       (or_else (thread_userId thread) (lit "user"%string)) [])
              w).
  destruct (ragFields _) as [[a c] r].
  destruct (enhanceResponse toLowerCase (or_else a no_response) userMessage)
    as [s| |n]; try reflexivity.
  cbn [asString ret]. unfold saveMessage at 1.
  destruct (messageAccepted env _); [|reflexivity].
  rewrite indexMessage_run. reflexivity.
Qed.

Lemma generateOutcome_answer toLowerCase env thread userMessage tid w :
  match generateOutcome toLowerCase env thread userMessage tid w with
  | (Normal resp, w') =>
      gen_answer resp <> []
      /\ (exists earlier aiMessage,
             messages w' = earlier ++ [aiMessage]
             /\ message_content aiMessage = gen_answer resp
             /\ message_sender aiMessage = lit "system"%string)
      /\ (fst (fst (ragFields (ragOutcome env (thread_userId thread)
                                          userMessage (Some tid)))) = [] ->
          gen_answer resp = enhanced_no_response)
  | (Throw _, _) => True
  end.
Proof.
  unfold generateOutcome.
  destruct (messageAccepted env _); [|exact I].
  destruct (ragFields _) as [[a c] r]. cbn [fst].
  destruct (enhanceResponse toLowerCase (or_else a no_response) userMessage)
    as [s| |n] eqn:E; try exact I.
  destruct (messageAccepted env _); [|exact I].
  cbn [gen_answer]. split; [|split].
  - eapply enhanceResponse_nonempty; [|exact E].
    apply or_else_nonempty, no_response_nonempty.
  - eexists _, _. rewrite messages_indexed. unfold saved at 1.
    cbn [messages].
    split; [reflexivity|]. split; reflexivity.
  - intros ->. change (or_else [] no_response) with no_response in E.
    rewrite enhance_no_response in E. now injection E as <-.
Qed.

(** C10: a turn that completes answers with a non-empty string and has
    stored that same string as the content of the assistant message, on
    [POST /] and on [POST /generate] alike.  On both routes an empty or
    missing RAG answer is replaced by
    ["Sorry, I could not generate a response."] before the enhancement,
    which maps that literal to its non-empty substitute: the answer is
    then that substitute. *)
Theorem turn_answer_never_empty
        (toLowerCase : jsstring -> jsstring) (env : Env)
        (req : TurnRequest) (greq : GenerateRequest) (w : World) :
  match createTurn toLowerCase env req w with
  | (Normal resp, w') =>
      resp_answer resp <> []
      /\ (exists earlier aiMessage,
             messages w' = earlier ++ [aiMessage]
             /\ message_content aiMessage = resp_answer resp
             /\ message_sender aiMessage = lit "system"%string)
      /\ (turnRagAnswer env req = [] ->
          resp_answer resp = enhanced_no_response)
  | (Throw _, _) => True
  end
  /\
  match generateOnly toLowerCase env greq w with
  | (Normal resp, w') =>
      gen_answer resp <> []
      /\ (exists earlier aiMessage,
             messages w' = earlier ++ [aiMessage]
             /\ message_content aiMessage = gen_answer resp
             /\ message_sender aiMessage = lit "system"%string)
      /\ (forall tid userMessage thread,
             greq = mkGenerateRequest (Some (WellFormed tid))
                                      (Some userMessage) ->
             findThreadById tid w = Some thread ->
             generateRagAnswer env thread tid userMessage = [] ->
             gen_answer resp = enhanced_no_response)
  | (Throw _, _) => True
  end
  /\ opt_or None [] = []
  /\ opt_or (Some []) [] = []
  /\ or_else [] no_response = no_response
  /\ (forall q, enhanceResponse toLowerCase no_response q
                = VString enhanced_no_response)
  /\ enhanced_no_response <> [].
Proof.
  split; [|split].
  - destruct req as [threadId [content|] userId files];
      [|exact I].
    destruct (truthy content) eqn:Hc;
      [|unfold createTurn; cbn [req_content]; rewrite Hc; exact I].
    destruct userId as [userId|];
      [|unfold createTurn; cbn [req_content req_userId truthy_opt negb];
        rewrite Hc; exact I].
    destruct (truthy userId) eqn:Hu;
      [|unfold createTurn; cbn [req_content req_userId truthy_opt negb];
        rewrite Hc, Hu; exact I].
    destruct threadId as [[i|]|];
      try (rewrite createTurn_run by (assumption || discriminate);
           match goal with
           | |- context [resolveThread ?t ?u ?c ?w] =>
               destruct (resolveThread t u c w) as [[tid|e] w1]; [|exact I]
           end;
           pose proof (turnOutcome_answer toLowerCase env userId content
                                          (files_or_empty files) tid w1) as H;
           destruct (turnOutcome _ _ _ _ _ _ _) as [[resp|e] w']; [|exact I];
           unfold turnRagAnswer; cbn [req_userId req_content opt_or];
           unfold or_else at 1 2; rewrite Hc, Hu; exact H).
    unfold createTurn. cbn [req_content req_userId req_threadId truthy_opt].
    rewrite Hc, Hu. exact I.
  - destruct greq as [[[tid|]|] [userMessage|]]; try exact I.
    + destruct (truthy userMessage) eqn:Hu;
        [|unfold generateOnly; cbn [gen_threadId gen_userMessage];
          rewrite Hu; exact I].
      destruct (findThreadById tid w) as [thread|] eqn:Hf.
      * rewrite (generateOnly_run toLowerCase env tid userMessage thread w Hu Hf).
        pose proof (generateOutcome_answer toLowerCase env thread userMessage
                                           tid w) as H.
        destruct (generateOutcome _ _ _ _ _ _) as [[resp|e] w']; [|exact I].
        destruct H as (H1 & H2 & H3). split; [exact H1|]. split; [exact H2|].
        intros tid' userMessage' thread' [= <- <-] Hf' Hempty.
        rewrite Hf in Hf'. injection Hf' as <-. exact (H3 Hempty).
      * unfold generateOnly. cbn [gen_threadId gen_userMessage].
        rewrite Hu. cbn [negb]. rewrite Hf. exact I.
    + unfold generateOnly. cbn [gen_threadId gen_userMessage].
      destruct (truthy userMessage); exact I.
  - repeat split; try reflexivity; try apply enhance_no_response.
    apply lit_cons_nonempty.
Qed.

Lemma turn_answer_never_empty_witness :
  exists resp w' gresp gw',
    createTurn Engine.asciiToLowerCase silentEnv helloRequest oneThread
    = (Normal resp, w')
    /\ resp_answer resp = enhanced_no_response
    /\ generateOnly Engine.asciiToLowerCase silentEnv
                    (mkGenerateRequest (Some (WellFormed 0))
                                       (Some (lit "Hello"%string)))
                    oneThread
       = (Normal gresp, gw')
    /\ gen_answer gresp = enhanced_no_response
    /\ gen_answer gresp <> [].
Proof.
  pose proof (turn_answer_never_empty
                Engine.asciiToLowerCase silentEnv helloRequest
                (mkGenerateRequest (Some (WellFormed 0))
                                   (Some (lit "Hello"%string)))
                oneThread) as (H1 & H2 & _).
  destruct (createTurn _ _ _ _) as [[resp|e] w'] eqn:E1;
    [|vm_compute in E1; discriminate].
  destruct (generateOnly _ _ _ _) as [[gresp|e] gw'] eqn:E2;
    [|vm_compute in E2; discriminate].
  destruct H1 as (_ & _ & H1). destruct H2 as (G1 & _ & G2).
  exists resp, w', gresp, gw'.
  split; [reflexivity|]. split; [apply H1; reflexivity|].
  split; [reflexivity|]. split; [|exact G1].
  apply (G2 0 (lit "Hello"%string)
            (mkThread 0 (lit "u1"%string) (lit "first"%string) true
                      (lit "u1"%string) 1 5));
    reflexivity.
Defined.

(** ** Batch import *)

Lemma instantiate_all_content i time ds :
  map message_content (instantiate_all i time ds) = map draft_content ds.
Proof.
  revert i; induction ds as [|d ds IH]; intros i; simpl; [reflexivity|].
  now rewrite IH.
Qed.

Lemma instantiate_all_thread i time ds :
  map message_threadId (instantiate_all i time ds) = map draft_threadId ds.
Proof.
  revert i; induction ds as [|d ds IH]; intros i; simpl; [reflexivity|].
  now rewrite IH.
Qed.

Lemma instantiate_all_ids i time ds :
  map message_id (instantiate_all i time ds) = seq i (length ds).
Proof.
  revert i; induction ds as [|d ds IH]; intros i; simpl; [reflexivity|].
  now rewrite IH.
Qed.

Lemma instantiate_all_length i time ds :
  length (instantiate_all i time ds) = length ds.
Proof.
  revert i; induction ds as [|d ds IH]; intros i; simpl; [reflexivity|].
  now rewrite IH.
Qed.

Lemma batch_run env tid msgs userId w :
  msgs <> [] ->
  batchCreateMessages env (Some (WellFormed tid)) (Some msgs) userId w =
  match findThreadById tid w with
  | None => (Throw thread_not_found, w)
  | Some thread =>
      if ownerOrAbsent userId thread then
        if forallb (messageAccepted env) (batchDrafts tid userId msgs) then
          (Normal (map formatMessage
                       (instantiate_all (nextId w) (now w)
                                        (batchDrafts tid userId msgs))),
           mkWorld (threads w)
                   (messages w
                    ++ instantiate_all (nextId w) (now w)
                                       (batchDrafts tid userId msgs))
                   (nextId w + length (batchDrafts tid userId msgs))
                   (S (now w)) (calls w))
        else (Throw PersistenceError, w)
      else (Throw batch_not_permitted, w)
  end.
Proof.
  intros Hne. destruct msgs as [|m ms]; [contradiction|]. clear Hne.
  unfold batchCreateMessages.
  destruct (findThreadById tid w) as [thread|]; [|reflexivity].
  unfold ownerOrAbsent.
  destruct (truthy_opt userId); cbn [negb andb orb].
  - destruct (JS.eqb _ _); cbn [negb]; [|reflexivity].
    unfold bind, insertMany. fold (batchDrafts tid userId (m :: ms)).
    destruct (forallb _ _); reflexivity.
  - unfold bind, insertMany. fold (batchDrafts tid userId (m :: ms)).
    destruct (forallb _ _); reflexivity.
Qed.

(** C8: on a well-formed request, [batchCreateMessages] fails with
    NotFound when the thread is absent, checks the owner only when a user
    id is supplied (Unauthorized on mismatch), and otherwise appends all
    messages in one insert, in the order given and with their contents
    untouched, or none of them; the records returned follow the input
    order.  It never calls the embedding or RAG endpoints, and a failed
    request leaves the world as it was. *)
Theorem batchCreateMessages_contract
        (env : Env) (tid : oid) (msgs : list BatchItem)
        (userId : option jsstring) (w : World) :
  msgs <> [] ->
  let run := batchCreateMessages env (Some (WellFormed tid)) (Some msgs)
                                 userId w in
  calls (snd run) = calls w
  /\ threads (snd run) = threads w
  /\ match findThreadById tid w with
     | None => run = (Throw thread_not_found, w)
     | Some thread =>
         if ownerOrAbsent userId thread then
           match fst run with
           | Normal views =>
               exists createdMessages,
                 views = map formatMessage createdMessages
                 /\ messages (snd run) = messages w ++ createdMessages
                 /\ map view_content views = map item_content msgs
                 /\ map view_threadId views = map (fun _ => tid) msgs
                 /\ map view_id views = seq (nextId w) (length msgs)
           | Throw e => e = PersistenceError /\ snd run = w
           end
         else run = (Throw batch_not_permitted, w)
     end
  /\ ((forall d, messageAccepted env d = true) ->
      forall thread, findThreadById tid w = Some thread ->
                     ownerOrAbsent userId thread = true ->
                     exists views, fst run = Normal views
                                   /\ length views = length msgs).
Proof.
  intros Hne run. subst run. rewrite (batch_run env tid msgs userId w Hne).
  destruct (findThreadById tid w) as [thread|];
    [|repeat split; intros; congruence].
  destruct (ownerOrAbsent userId thread) eqn:Eo;
    [|repeat split; intros; congruence].
  destruct (forallb (messageAccepted env) (batchDrafts tid userId msgs)) eqn:E.
  - cbn [fst snd calls threads messages]. repeat split.
    + eexists. split; [reflexivity|]. split; [reflexivity|].
      rewrite !map_map. cbn [formatMessage view_content view_threadId view_id].
      rewrite <- (map_map message_content (fun x => x)), map_id.
      rewrite instantiate_all_content.
      rewrite <- (map_map message_threadId (fun x => x)), map_id.
      rewrite instantiate_all_thread.
      rewrite <- (map_map message_id (fun x => x)), map_id.
      rewrite instantiate_all_ids.
      unfold batchDrafts. rewrite !map_map, length_map. cbn [draft_content draft_threadId].
      repeat split; reflexivity.
    + intros _ t _ _. eexists. split; [reflexivity|].
      unfold batchDrafts. now rewrite length_map, instantiate_all_length, length_map.
  - cbn [fst snd]. repeat split.
    intros Hacc t _ _. exfalso.
    assert (forallb (messageAccepted env) (batchDrafts tid userId msgs) = true)
      by (apply forallb_forall; intros; apply Hacc).
    congruence.
Qed.

Lemma batchCreateMessages_contract_witness :
  threeItems <> []
  /\ exists views,
       fst (batchCreateMessages offlineEnv (Some (WellFormed 0))
                                (Some threeItems) None oneThread)
       = Normal views
       /\ length views = length threeItems.
Proof.
  assert (Hne : threeItems <> []) by discriminate.
  split; [exact Hne|].
  destruct (batchCreateMessages_contract offlineEnv 0 threeItems None
                                         oneThread Hne)
    as (_ & _ & _ & H).
  apply (H (fun d => eq_refl)
           (mkThread 0 (lit "u1"%string) (lit "first"%string) true
                     (lit "u1"%string) 1 5));
    reflexivity.
Defined.

(** ** Indexing is best effort *)

Lemma resolveThread_calls threadId userId content w :
  calls (snd (resolveThread threadId userId content w)) = calls w.
Proof.
  unfold resolveThread. destruct threadId as [[i|]|].
  - now destruct (findThreadById i w).
  - reflexivity.
  - now destruct (findActiveThread userId w).
Qed.

Lemma calls_saved d w : calls (saved d w) = calls w.
Proof. reflexivity. Qed.

Lemma nextId_saved d w : nextId (saved d w) = S (nextId w).
Proof. reflexivity. Qed.

Lemma turnOutcome_calls toLowerCase env userId content files tid w1 :
  match turnOutcome toLowerCase env userId content files tid w1 with
  | (Normal resp, w') =>
      calls w' = calls w1 ++ turnCalls env userId content resp
  | (Throw _, _) => True
  end.
Proof.
  unfold turnOutcome.
  destruct (messageAccepted env _); [|exact I].
  destruct (ragFields _) as [[a c] r].
  destruct (enhanceResponse toLowerCase (or_else a no_response) content)
    as [s| |n]; try exact I.
  destruct (messageAccepted env _); [|exact I].
  unfold turnCalls, touched, indexed, fetched.
  cbn [resp_threadId resp_messageId resp_answer].
  destruct (apiUrl_set env); cbn [calls logged saved nextId].
  - now rewrite <- !app_assoc.
  - now rewrite app_nil_r.
Qed.

(** C9 as the code has it: [createEmbedding] always completes normally.
    Disabled, it makes no call and returns the error-shaped result whose
    detail is the text ["Embedding Service is disabled: No API URL
    available"]; enabled, every failure of the call becomes a result of
    that same shape.  In a turn the outcome and the stored data do not
    depend on what the embedding server does, and a completed turn has
    issued the index call for the user message and the one for the
    assistant message, whatever the first one returned. *)
Theorem createEmbedding_best_effort
        (toLowerCase : jsstring -> jsstring) (env : Env)
        (userId content : jsstring) (threadId messageId : option oid)
        (f : EmbedRequest -> HttpResult EmbeddingResponse)
        (req : TurnRequest) (w : World) :
  createEmbedding env userId content threadId messageId w =
    (if apiUrl_set env then
       (Normal
          match postEmbed env
                          (mkEmbedRequest userId threadId content messageId)
          with
          | HttpOk data => data
          | HttpAxiosError status message =>
              errorResult (api_error status message)
          | HttpOtherError =>
              errorResult (lit "Failed to create embedding"%string)
          end,
        logged (CallEmbed (mkEmbedRequest userId threadId content messageId))
               w)
     else (Normal (errorResult disabled_error), w))
  /\ disabled_error
     = lit "Embedding Service is disabled: No API URL available"%string
  /\ createTurn toLowerCase (withPostEmbed env f) req w
     = createTurn toLowerCase env req w
  /\ match createTurn toLowerCase env req w with
     | (Normal resp, w') =>
         calls w' = calls w ++ turnCalls env (opt_or (req_userId req) [])
                                         (opt_or (req_content req) []) resp
     | (Throw _, _) => True
     end.
Proof.
  split; [|split; [reflexivity|]].
  { rewrite createEmbedding_run. destruct (apiUrl_set env); [|reflexivity].
    destruct (postEmbed env _); reflexivity. }
  destruct req as [threadId' [content'|] userId' files];
    [|split; [reflexivity|exact I]].
  destruct (truthy content') eqn:Hc;
    [|unfold createTurn; cbn [req_content]; rewrite Hc;
      split; [reflexivity|exact I]].
  destruct userId' as [userId'|];
    [|unfold createTurn; cbn [req_content req_userId truthy_opt negb];
      rewrite Hc; split; [reflexivity|exact I]].
  destruct (truthy userId') eqn:Hu;
    [|unfold createTurn; cbn [req_content req_userId truthy_opt negb];
      rewrite Hc, Hu; split; [reflexivity|exact I]].
  assert (Hbad : threadId' = Some Malformed \/ threadId' <> Some Malformed)
    by (destruct threadId' as [[i|]|]; (now left) || (right; discriminate)).
  destruct Hbad as [->|Hok].
  { unfold createTurn. cbn [req_content req_userId req_threadId truthy_opt].
    rewrite Hc, Hu. split; [reflexivity|exact I]. }
  rewrite !createTurn_run by assumption.
  pose proof (resolveThread_calls threadId' userId' content' w) as Hcalls.
  destruct (resolveThread threadId' userId' content' w) as [[tid|e] w1];
    [|split; [reflexivity|exact I]].
  cbn [snd] in Hcalls. split; [reflexivity|].
  pose proof (turnOutcome_calls toLowerCase env userId' content'
                                (files_or_empty files) tid w1) as H.
  destruct (turnOutcome _ _ _ _ _ _ _) as [[resp|e] w']; [|exact I].
  cbn [req_userId req_content opt_or]. unfold or_else. rewrite Hc, Hu.
  now rewrite H, Hcalls.
Qed.

(** The claim's literal [{error: "disabled"}] is not what the disabled
    service returns: the detail is a longer text. *)
Lemma createEmbedding_disabled_detail :
  fst (createEmbedding offlineEnv (lit "u1"%string) (lit "Hello"%string)
                       None None emptyWorld)
  = Normal (errorResult disabled_error)
  /\ JS.eqb disabled_error (lit "disabled"%string) = false
  /\ length disabled_error = 51.
Proof. repeat split; reflexivity. Qed.

(** ** Ids stay fresh *)

Lemma consistent_saved tid content sender files w :
  consistent w -> tid < nextId w ->
  consistent (saved (mkDraft tid content sender files) w).
Proof.
  intros [Ht Hm] Htid. split; cbn [threads messages nextId saved].
  - intros t Hin. apply Ht in Hin. lia.
  - intros m Hin. apply in_app_or in Hin as [Hin|[<-|[]]].
    + apply Hm in Hin. lia.
    + cbn. lia.
Qed.

Lemma consistent_logged c w : consistent w -> consistent (logged c w).
Proof. intros H. exact H. Qed.

Lemma consistent_indexed env u t tid mid w :
  consistent w -> consistent (indexed env u t tid mid w).
Proof. unfold indexed. now destruct (apiUrl_set env). Qed.

Lemma consistent_fetched env u q tid w :
  consistent w -> consistent (fetched env u q tid w).
Proof. unfold fetched. now destruct (apiUrl_set env). Qed.

Lemma touch_id i time t : thread_id (touch i time t) = thread_id t.
Proof. unfold touch. now destruct (thread_id t =? i). Qed.

Lemma consistent_touched tid w : consistent w -> consistent (touched tid w).
Proof.
  intros [Ht Hm]. split; cbn [threads messages nextId touched].
  - intros t Hin. apply in_map_iff in Hin as (t0 & <- & Hin).
    rewrite touch_id. now apply Ht.
  - exact Hm.
Qed.

Lemma find_some_pred {A} (f : A -> bool) (l : list A) (x : A) :
  find f l = Some x -> In x l /\ f x = true.
Proof. apply find_some. Qed.

Lemma resolveThread_consistent threadId userId content w :
  consistent w ->
  consistent (snd (resolveThread threadId userId content w))
  /\ match fst (resolveThread threadId userId content w) with
     | Normal tid => tid < nextId (snd (resolveThread threadId userId content w))
     | Throw _ => True
     end.
Proof.
  intros Hc. pose proof Hc as [Ht Hm].
  unfold resolveThread. destruct threadId as [[i|]|].
  - destruct (findThreadById i w) as [t|] eqn:E; cbn [fst snd];
      [|now split].
    split; [exact Hc|].
    apply find_some_pred in E as [Hin Hi]. apply Nat.eqb_eq in Hi. subst i.
    now apply Ht.
  - now split.
  - destruct (findActiveThread userId w) as [t|] eqn:E; cbn [fst snd].
    + split; [exact Hc|].
      unfold findActiveThread in E.
      pose proof (fold_newer_spec
                    (filter (fun t => JS.eqb (thread_userId t) userId
                                      && thread_isActive t) (threads w))
                    None) as S.
      rewrite E in S. destruct S as ([S|S] & _); [discriminate|].
      apply filter_In in S as [S _]. now apply Ht.
    + unfold bind, createThread, ret. cbn [fst snd nextId thread_id].
      split; [|lia].
      split; cbn [threads messages nextId].
      * intros t Hin. apply in_app_or in Hin as [Hin|[<-|[]]].
        -- apply Ht in Hin. lia.
        -- cbn. lia.
      * intros m Hin. apply Hm in Hin. lia.
Qed.

Lemma turnOutcome_consistent toLowerCase env userId content files tid w1 :
  consistent w1 -> tid < nextId w1 ->
  consistent (snd (turnOutcome toLowerCase env userId content files tid w1)).
Proof.
  intros Hc Htid. unfold turnOutcome.
  destruct (messageAccepted env _); [|exact Hc].
  assert (H3 : consistent
                 (fetched env userId content None
                    (indexed env userId content tid (nextId w1)
                       (saved (mkDraft tid content userId files) w1))))
    by (apply consistent_fetched, consistent_indexed;
        now apply consistent_saved).
  destruct (ragFields _) as [[a c] r].
  destruct (enhanceResponse toLowerCase (or_else a no_response) content)
    as [s| |n]; try exact H3.
  destruct (messageAccepted env _); [|exact H3].
  cbn [snd]. apply consistent_touched, consistent_indexed.
  apply consistent_saved; [exact H3|].
  rewrite nextId_fetched, nextId_indexed, nextId_saved. lia.
Qed.

(** Whatever a turn does, and whether it completes or throws, the ids of
    the stored threads and messages stay below the next id. *)
Theorem createTurn_consistent
        (toLowerCase : jsstring -> jsstring) (env : Env)
        (req : TurnRequest) (w : World) :
  consistent w -> consistent (snd (createTurn toLowerCase env req w)).
Proof.
  intros Hc.
  destruct req as [threadId [content|] userId files]; [|exact Hc].
  destruct (truthy content) eqn:Hcn;
    [|unfold createTurn; cbn [req_content]; rewrite Hcn; exact Hc].
  destruct userId as [userId|];
    [|unfold createTurn; cbn [req_content req_userId truthy_opt negb];
      rewrite Hcn; exact Hc].
  destruct (truthy userId) eqn:Hu;
    [|unfold createTurn; cbn [req_content req_userId truthy_opt negb];
      rewrite Hcn, Hu; exact Hc].
  assert (Hbad : threadId = Some Malformed \/ threadId <> Some Malformed)
    by (destruct threadId as [[i|]|]; (now left) || (right; discriminate)).
  destruct Hbad as [->|Hok].
  { unfold createTurn. cbn [req_content req_userId req_threadId truthy_opt].
    rewrite Hcn, Hu. exact Hc. }
  rewrite createTurn_run by assumption.
  destruct (resolveThread_consistent threadId userId content w Hc) as [H1 H2].
  destruct (resolveThread threadId userId content w) as [[tid|e] w1];
    cbn [fst snd] in *; [|exact H1].
  now apply turnOutcome_consistent.
Qed.

Lemma createTurn_consistent_witness :
  consistent emptyWorld
  /\ consistent (snd (createTurn Engine.asciiToLowerCase offlineEnv
                                 helloRequest emptyWorld)).
Proof.
  assert (H : consistent emptyWorld) by (split; intros ? []).
  split; [exact H|].
  exact (createTurn_consistent Engine.asciiToLowerCase offlineEnv helloRequest
                               emptyWorld H).
Defined.

End TurnFacts.

(* ================================================================== *)
(** * Memory recall: properties *)
(* ================================================================== *)

Module MemoryFacts.

Import JSFacts ServiceSpec ServiceFacts OpenAIService Engine MemorySpec.

(** ** The reference engine obeys the laws *)

Lemma asciiToLowerCase_lowercases : lowercases_ascii asciiToLowerCase.
Proof. intros s _. reflexivity. Qed.

Lemma alnum_not_quantifier (c : code_unit) :
  is_alnum c = true -> is_quantifier c = false.
Proof.
  unfold is_alnum, is_quantifier. intros H.
  destruct (c =? 42)%N eqn:E1; [apply N.eqb_eq in E1; subst; discriminate|].
  destruct (c =? 43)%N eqn:E2; [apply N.eqb_eq in E2; subst; discriminate|].
  destruct (c =? 63)%N eqn:E3; [apply N.eqb_eq in E3; subst; discriminate|].
  reflexivity.
Qed.

Lemma sampleRegExp_literal : regexp_literal sampleRegExp.
Proof.
  intros p Hne Hal. destruct p as [|c p]; [contradiction|].
  exists (literal_i (c :: p)). split; [|reflexivity].
  unfold sampleRegExp. rewrite Hal.
  simpl in Hal. apply andb_true_iff in Hal as [Hc _].
  now rewrite (alnum_not_quantifier c Hc).
Qed.

Lemma sampleRegExp_optional : regexp_optional sampleRegExp.
Proof.
  intros p c Hne Hal. exists (literal_i p). split; [|reflexivity].
  destruct p as [|x p]; [contradiction|].
  assert (Hx : is_alnum x = true)
    by (simpl in Hal; now apply andb_true_iff in Hal as [Hx _]).
  change ((x :: p) ++ [c; 63%N]) with (x :: (p ++ [c; 63%N])).
  unfold sampleRegExp. rewrite (alnum_not_quantifier x Hx).
  change (x :: p ++ [c; 63%N]) with ((x :: p) ++ [c] ++ [63%N]).
  rewrite app_assoc.
  replace (forallb is_alnum (((x :: p) ++ [c]) ++ [63%N])) with false
    by (rewrite forallb_app; simpl; now rewrite andb_false_r).
  rewrite last_last, removelast_last, removelast_last, Hal.
  rewrite length_app. simpl.
  replace (length p + 1) with (S (length p)) by lia. reflexivity.
Qed.

Lemma sampleRegExp_dangling : regexp_dangling sampleRegExp.
Proof. intros c p H. unfold sampleRegExp. now rewrite H. Qed.

(** ** How a recall runs *)

Lemma getRelevantMemory_run toLowerCase RegExp_i threadId userMessage w :
  getRelevantMemory toLowerCase RegExp_i threadId userMessage w =
    if negb (shouldRecall (toLowerCase userMessage)) then (Normal [], w)
    else if negb (truthy (recallKeyword (toLowerCase userMessage)))
    then (Normal [], w)
    else
      match RegExp_i (recallKeyword (toLowerCase userMessage)) with
      | None => (Throw SyntaxError, w)
      | Some regex =>
          match threadId with
          | Malformed => (Normal [], w)
          | WellFormed tid =>
              (Normal (render (findPastMessages tid regex w)),
               logged (CallFindMessages
                         tid (recallKeyword (toLowerCase userMessage))) w)
          end
      end.
Proof.
  unfold getRelevantMemory. fold (shouldRecall (toLowerCase userMessage)).
  destruct (shouldRecall (toLowerCase userMessage)); [|reflexivity].
  cbn [negb].
  assert (E : match pop (filter (fun w => negb (mem w stopWords))
                                (split_ws (toLowerCase userMessage))) with
              | Some k => or_else k []
              | None => []
              end = recallKeyword (toLowerCase userMessage)).
  { unfold recallKeyword. destruct (pop _) as [k|]; [|reflexivity].
    unfold or_else. now destruct k. }
  rewrite E.
  destruct (truthy (recallKeyword (toLowerCase userMessage))); [|reflexivity].
  cbn [negb].
  destruct (RegExp_i _) as [regex|]; [|reflexivity].
  destruct threadId as [tid|]; reflexivity.
Qed.

(** C7, at the query ["what did i say about iot?"]: the keyword is
    ["iot?"], and it is handed to [RegExp] as a pattern, in which [?]
    makes the [t] optional.  The earlier message ["I love radio"] is
    returned although its text does not contain the keyword.  At the
    query ["remind me ?"] the keyword [?] is no pattern at all: the
    constructor, which runs before the [try], throws, and nothing is
    returned. *)
Theorem getRelevantMemory_keyword_is_pattern
        (toLowerCase : jsstring -> jsstring)
        (RegExp_i : jsstring -> option (jsstring -> bool)) :
  lowercases_ascii toLowerCase ->
  regexp_optional RegExp_i ->
  regexp_dangling RegExp_i ->
  getRelevantMemory toLowerCase RegExp_i (WellFormed 1)
                    (lit "what did i say about iot?"%string) radioWorld
  = (Normal [bullet ++ lit "I love radio"%string],
     logged (CallFindMessages 1 (lit "iot?"%string)) radioWorld)
  /\ includes (toLowerCase (lit "I love radio"%string)) (lit "iot?"%string)
     = false
  /\ includes (toLowerCase (lit "I love radio"%string)) (lit "iot"%string)
     = false
  /\ fst (getRelevantMemory toLowerCase RegExp_i (WellFormed 1)
                            (lit "remind me ?"%string) radioWorld)
     = Throw SyntaxError.
Proof.
  intros Hl Hopt Hdang.
  rewrite !getRelevantMemory_run.
  rewrite (Hl (lit "what did i say about iot?"%string) eq_refl).
  rewrite (Hl (lit "I love radio"%string) eq_refl).
  rewrite (Hl (lit "remind me ?"%string) eq_refl).
  split; [|split; [reflexivity|split; [reflexivity|]]].
  - change (shouldRecall (map ascii_lower (lit "what did i say about iot?"%string)))
      with true.
    change (truthy (recallKeyword
                      (map ascii_lower
                           (lit "what did i say about iot?"%string))))
      with true.
    cbn [negb].
    destruct (Hopt (lit "io"%string) 116%N) as (m & Hm & Hmatch);
      [discriminate|reflexivity|].
    replace (RegExp_i (recallKeyword
                         (map ascii_lower
                              (lit "what did i say about iot?"%string))))
      with (Some m) by (rewrite <- Hm; reflexivity).
    unfold findPastMessages, radioWorld. cbn [messages filter].
    cbn [message_threadId message_sender message_content Nat.eqb].
    rewrite (Hmatch (lit "I love radio"%string) eq_refl).
    reflexivity.
  - change (shouldRecall (map ascii_lower (lit "remind me ?"%string)))
      with true.
    change (truthy (recallKeyword
                      (map ascii_lower (lit "remind me ?"%string))))
      with true.
    cbn [negb].
    replace (RegExp_i (recallKeyword
                         (map ascii_lower (lit "remind me ?"%string))))
      with (@None (jsstring -> bool))
      by (symmetry; apply (Hdang 63%N [] eq_refl)).
    reflexivity.
Qed.

Lemma getRelevantMemory_keyword_is_pattern_witness :
  getRelevantMemory asciiToLowerCase sampleRegExp (WellFormed 1)
                    (lit "what did i say about iot?"%string) radioWorld
  = (Normal [bullet ++ lit "I love radio"%string],
     logged (CallFindMessages 1 (lit "iot?"%string)) radioWorld)
  /\ includes (asciiToLowerCase (lit "I love radio"%string))
              (lit "iot?"%string)
     = false
  /\ includes (asciiToLowerCase (lit "I love radio"%string))
              (lit "iot"%string)
     = false
  /\ fst (getRelevantMemory asciiToLowerCase sampleRegExp (WellFormed 1)
                            (lit "remind me ?"%string) radioWorld)
     = Throw SyntaxError.
Proof.
  exact (getRelevantMemory_keyword_is_pattern
           asciiToLowerCase sampleRegExp asciiToLowerCase_lowercases
           sampleRegExp_optional sampleRegExp_dangling).
Defined.

(** ** What a recall returns *)

Lemma insert_newest_In m l x :
  In x (insert_newest m l) <-> x = m \/ In x l.
Proof.
  induction l as [|y l IH]; simpl.
  - split; [intros [<-|[]]; now left|intros [->|[]]; now left].
  - destruct (message_createdAt y <? message_createdAt m); simpl.
    + split; [intros [<-|H]; [now left|now right]
             |intros [->|H]; [now left|now right]].
    + rewrite IH. split.
      * intros [<-|[->|H]]; [right; now left|now left|right; now right].
      * intros [->|[<-|H]]; [right; now left|now left|right; right; exact H].
Qed.

Lemma insert_newest_sorted m l :
  newestFirst l -> newestFirst (insert_newest m l).
Proof.
  unfold newestFirst. induction l as [|y l IH]; intros Hs; simpl.
  - constructor; constructor.
  - inversion Hs as [|? ? Hl Hy]; subst.
    destruct (message_createdAt y <? message_createdAt m) eqn:E.
    + apply Nat.ltb_lt in E. constructor; [exact Hs|].
      constructor; [lia|].
      rewrite Forall_forall in *. intros x Hx. specialize (Hy x Hx). lia.
    + apply Nat.ltb_ge in E. constructor; [now apply IH|].
      rewrite Forall_forall in *. intros x Hx.
      apply insert_newest_In in Hx as [->|Hx]; [exact E|now apply Hy].
Qed.

Lemma sort_newest_sorted l : newestFirst (sort_newest l).
Proof.
  induction l as [|m l IH]; simpl; [constructor|].
  now apply insert_newest_sorted.
Qed.

Lemma sort_newest_In l x : In x (sort_newest l) <-> In x l.
Proof.
  induction l as [|m l IH]; simpl; [reflexivity|].
  rewrite insert_newest_In, IH. split; intros [H|H]; auto.
Qed.

Lemma firstn_subset {A} n (l : list A) x : In x (firstn n l) -> In x l.
Proof.
  revert l; induction n as [|n IH]; intros [|y l]; simpl; try tauto.
  intros [H|H]; [now left|right; now apply IH].
Qed.

Lemma firstn_sorted n l : newestFirst l -> newestFirst (firstn n l).
Proof.
  unfold newestFirst. revert l; induction n as [|n IH]; intros l Hs;
    [constructor|].
  destruct l as [|x l]; [constructor|]. simpl.
  inversion Hs as [|? ? Hl Hx]; subst. constructor; [now apply IH|].
  rewrite Forall_forall in *. intros y Hy. apply Hx.
  eapply firstn_subset. exact Hy.
Qed.

Lemma findPastMessages_spec tid regex w :
  length (findPastMessages tid regex w) <= 3
  /\ newestFirst (findPastMessages tid regex w)
  /\ forall m, In m (findPastMessages tid regex w) ->
               In m (messages w)
               /\ message_threadId m = tid
               /\ message_sender m <> lit "system"%string
               /\ regex (message_content m) = true.
Proof.
  unfold findPastMessages. split; [apply firstn_le_length|].
  split; [apply firstn_sorted, sort_newest_sorted|].
  intros m Hm. apply firstn_subset, sort_newest_In, filter_In in Hm
    as [Hin Hf].
  apply andb_true_iff in Hf as [Hf Hr].
  apply andb_true_iff in Hf as [Ht Hs].
  apply Nat.eqb_eq in Ht. apply negb_true_iff, eqb_neq in Hs.
  now repeat split.
Qed.

(** X3: a query without trigger phrase gives the empty result, and no search
    is made: the world, with its log of calls, is as before. *)
Theorem recall_needs_trigger
        (toLowerCase : jsstring -> jsstring)
        (RegExp_i : jsstring -> option (jsstring -> bool))
        (threadId : rawId) (userMessage : jsstring) (w : World) :
  shouldRecall (toLowerCase userMessage) = false ->
  getRelevantMemory toLowerCase RegExp_i threadId userMessage w = (Normal [], w).
Proof.
  intros H. rewrite getRelevantMemory_run, H. reflexivity.
Qed.

Lemma recall_needs_trigger_witness :
  shouldRecall (asciiToLowerCase (lit "hello"%string)) = false
  /\ getRelevantMemory asciiToLowerCase sampleRegExp (WellFormed 1)
                       (lit "hello"%string) radioWorld
     = (Normal [], radioWorld).
Proof.
  split; [reflexivity|].
  exact (recall_needs_trigger asciiToLowerCase sampleRegExp (WellFormed 1)
                              (lit "hello"%string) radioWorld eq_refl).
Defined.

(** X4: a recall that returns has rendered at most three messages, newest
    first, each as the bullet prefix and the content; every one of them
    is a stored message of the thread, not sent by ["system"], and
    matched by the regular expression made of the keyword. *)
Theorem recall_result_shape
        (toLowerCase : jsstring -> jsstring)
        (RegExp_i : jsstring -> option (jsstring -> bool))
        (tid : oid) (userMessage : jsstring) (w w' : World)
        (lines : list jsstring) :
  getRelevantMemory toLowerCase RegExp_i (WellFormed tid) userMessage w
  = (Normal lines, w') ->
  exists msgs,
    lines = map (fun msg => bullet ++ message_content msg) msgs
    /\ length msgs <= 3
    /\ newestFirst msgs
    /\ forall m, In m msgs ->
         In m (messages w)
         /\ message_threadId m = tid
         /\ message_sender m <> lit "system"%string
         /\ exists regex,
              RegExp_i (recallKeyword (toLowerCase userMessage)) = Some regex
              /\ regex (message_content m) = true.
Proof.
  rewrite getRelevantMemory_run.
  assert (Hempty : forall l : list jsstring, (Normal (A:=list jsstring) [], w) = (Normal l, w') ->
    exists msgs,
      l = map (fun msg => bullet ++ message_content msg) msgs
      /\ length msgs <= 3 /\ newestFirst msgs
      /\ forall m, In m msgs ->
           In m (messages w) /\ message_threadId m = tid
           /\ message_sender m <> lit "system"%string
           /\ exists regex,
                RegExp_i (recallKeyword (toLowerCase userMessage)) = Some regex
                /\ regex (message_content m) = true).
  { intros l [= <- _]. exists [].
    split; [reflexivity|]. split; [simpl; lia|]. split; [constructor|].
    intros m []. }
  destruct (negb (shouldRecall _)); [apply Hempty|].
  destruct (negb (truthy _)); [apply Hempty|].
  destruct (RegExp_i _) as [regex|] eqn:E; [|discriminate].
  intros [= <- _].
  destruct (findPastMessages_spec tid regex w) as (H1 & H2 & H3).
  exists (findPastMessages tid regex w).
  split; [reflexivity|]. split; [exact H1|]. split; [exact H2|].
  intros m Hm. destruct (H3 m Hm) as (Ha & Hb & Hc & Hd).
  repeat split; try assumption.
  exists regex. now split.
Qed.

Lemma recall_result_shape_witness :
  exists msgs,
    [bullet ++ lit "I built an IoT dashboard"%string]
    = map (fun msg => bullet ++ message_content msg) msgs
    /\ length msgs <= 3
    /\ newestFirst msgs
    /\ forall m, In m msgs ->
         In m (messages dashboardWorld)
         /\ message_threadId m = 1
         /\ message_sender m <> lit "system"%string
         /\ exists regex,
              sampleRegExp
                (recallKeyword
                   (asciiToLowerCase (lit "what did i say about iot"%string)))
              = Some regex
              /\ regex (message_content m) = true.
Proof.
  apply (recall_result_shape
           asciiToLowerCase sampleRegExp 1
           (lit "what did i say about iot"%string) dashboardWorld
           (logged (CallFindMessages 1 (lit "iot"%string)) dashboardWorld)).
  reflexivity.
Defined.

(** The example of the specification: the query
    ["what did i say about iot"] on a thread with the earlier message
    ["I built an IoT dashboard"] returns that message as one bullet
    line. *)
Theorem recall_iot_example
        (toLowerCase : jsstring -> jsstring)
        (RegExp_i : jsstring -> option (jsstring -> bool)) :
  lowercases_ascii toLowerCase ->
  regexp_literal RegExp_i ->
  fst (getRelevantMemory toLowerCase RegExp_i (WellFormed 1)
                         (lit "what did i say about iot"%string)
                         dashboardWorld)
  = Normal [bullet ++ lit "I built an IoT dashboard"%string].
Proof.
  intros Hl Hlit. rewrite getRelevantMemory_run.
  rewrite (Hl (lit "what did i say about iot"%string) eq_refl).
  change (shouldRecall (map ascii_lower (lit "what did i say about iot"%string)))
    with true.
  change (truthy (recallKeyword
                    (map ascii_lower (lit "what did i say about iot"%string))))
    with true.
  cbn [negb].
  destruct (Hlit (lit "iot"%string)) as (m & Hm & Hmatch);
    [discriminate|reflexivity|].
  replace (RegExp_i (recallKeyword
                       (map ascii_lower
                            (lit "what did i say about iot"%string))))
    with (Some m) by (rewrite <- Hm; reflexivity).
  unfold findPastMessages, dashboardWorld. cbn [messages filter fst].
  cbn [message_threadId message_sender message_content Nat.eqb].
  rewrite (Hmatch (lit "I built an IoT dashboard"%string) eq_refl).
  reflexivity.
Qed.

Lemma recall_iot_example_witness :
  fst (getRelevantMemory asciiToLowerCase sampleRegExp (WellFormed 1)
                         (lit "what did i say about iot"%string)
                         dashboardWorld)
  = Normal [bullet ++ lit "I built an IoT dashboard"%string].
Proof.
  exact (recall_iot_example asciiToLowerCase sampleRegExp
                            asciiToLowerCase_lowercases sampleRegExp_literal).
Defined.

End MemoryFacts.

(* ================================================================== *)
(** * Reading, editing and deleting one message: properties *)
(* ================================================================== *)

Module MessageRoutesFacts.

Import JSFacts Routes TurnSpec MessageRoutes.

Lemma findMessageById_id i w m :
  findMessageById i w = Some m -> message_id m = i /\ In m (messages w).
Proof.
  unfold findMessageById. intros H. apply find_some in H as [Hin Hid].
  apply Nat.eqb_eq in Hid. now split.
Qed.

Lemma find_replaceFirst_same i m' l m :
  find (fun x => message_id x =? i) l = Some m ->
  message_id m' = i ->
  find (fun x => message_id x =? i) (replaceFirst i m' l) = Some m'.
Proof.
  intros Hf Hid. induction l as [|x l IH]; simpl in *; [discriminate|].
  destruct (message_id x =? i) eqn:E.
  - simpl. now rewrite Hid, Nat.eqb_refl.
  - simpl. rewrite E. now apply IH.
Qed.

Lemma find_replaceFirst_other i j m' l :
  j <> i -> message_id m' = i ->
  find (fun x => message_id x =? j) (replaceFirst i m' l)
  = find (fun x => message_id x =? j) l.
Proof.
  intros Hne Hid. induction l as [|x l IH]; simpl; [reflexivity|].
  destruct (message_id x =? i) eqn:E.
  - apply Nat.eqb_eq in E. simpl.
    replace (message_id m' =? j) with false
      by (symmetry; apply Nat.eqb_neq; lia).
    replace (message_id x =? j) with false
      by (symmetry; apply Nat.eqb_neq; lia).
    reflexivity.
  - simpl. now rewrite IH.
Qed.

Lemma length_replaceFirst i m' l :
  length (replaceFirst i m' l) = length l.
Proof.
  induction l as [|x l IH]; simpl; [reflexivity|].
  destruct (message_id x =? i); simpl; [reflexivity|now rewrite IH].
Qed.

Lemma find_removeFirst_other i j l :
  j <> i ->
  find (fun x => message_id x =? j) (removeFirst i l)
  = find (fun x => message_id x =? j) l.
Proof.
  intros Hne. induction l as [|x l IH]; simpl; [reflexivity|].
  destruct (message_id x =? i) eqn:E.
  - apply Nat.eqb_eq in E.
    replace (message_id x =? j) with false
      by (symmetry; apply Nat.eqb_neq; lia).
    reflexivity.
  - simpl. now rewrite IH.
Qed.

Lemma find_absent i l :
  ~ In i (map message_id l) -> find (fun x => message_id x =? i) l = None.
Proof.
  induction l as [|x l IH]; simpl; [reflexivity|]. intros H.
  destruct (message_id x =? i) eqn:E.
  - apply Nat.eqb_eq in E. exfalso. apply H. now left.
  - apply IH. intros Hin. apply H. now right.
Qed.

Lemma find_removeFirst_same i l :
  NoDup (map message_id l) ->
  find (fun x => message_id x =? i) (removeFirst i l) = None.
Proof.
  induction l as [|x l IH]; simpl; [reflexivity|]. intros Hnd.
  inversion Hnd as [|? ? Hx Hl]; subst.
  destruct (message_id x =? i) eqn:E.
  - apply Nat.eqb_eq in E. subst i. now apply find_absent.
  - simpl. rewrite E. now apply IH.
Qed.

Lemma length_removeFirst i l m :
  find (fun x => message_id x =? i) l = Some m ->
  S (length (removeFirst i l)) = length l.
Proof.
  induction l as [|x l IH]; simpl; [discriminate|].
  destruct (message_id x =? i); [reflexivity|].
  intros H. simpl. now rewrite IH.
Qed.

Lemma removeFirst_ids_subset i l j :
  In j (map message_id (removeFirst i l)) -> In j (map message_id l).
Proof.
  induction l as [|x l IH]; simpl; [tauto|].
  destruct (message_id x =? i); simpl; [now right|].
  intros [H|H]; [now left|right; now apply IH].
Qed.

Lemma removeFirst_NoDup i l :
  NoDup (map message_id l) -> NoDup (map message_id (removeFirst i l)).
Proof.
  induction l as [|x l IH]; simpl; [constructor|]. intros Hnd.
  inversion Hnd as [|? ? Hx Hl]; subst.
  destruct (message_id x =? i); [exact Hl|].
  simpl. constructor; [|now apply IH].
  intros Hin. apply Hx. eapply removeFirst_ids_subset. exact Hin.
Qed.

(** What the ownership block decides. *)
Lemma verifyOwnership_run userId threadId denied w :
  verifyOwnership userId threadId denied w =
    if truthy_opt userId then
      match findThreadById threadId w with
      | None => (Throw thread_not_found, w)
      | Some thread =>
          if JS.eqb (thread_userId thread) (opt_or userId [])
          then (Normal tt, w)
          else (Throw (UnauthorizedError denied), w)
      end
    else (Normal tt, w).
Proof.
  unfold verifyOwnership. destruct (truthy_opt userId); [|reflexivity].
  destruct (findThreadById threadId w) as [t|]; [|reflexivity].
  now destruct (JS.eqb _ _).
Qed.

Lemma verifyOwnership_world userId threadId denied w :
  snd (verifyOwnership userId threadId denied w) = w.
Proof.
  rewrite verifyOwnership_run. destruct (truthy_opt userId); [|reflexivity].
  destruct (findThreadById threadId w) as [t|]; [|reflexivity].
  now destruct (JS.eqb _ _).
Qed.

Lemma verifyOwnership_threads userId threadId denied w w2 :
  threads w2 = threads w ->
  fst (verifyOwnership userId threadId denied w2)
  = fst (verifyOwnership userId threadId denied w).
Proof.
  intros H. rewrite !verifyOwnership_run. unfold findThreadById. rewrite H.
  destruct (truthy_opt userId); [|reflexivity].
  destruct (find _ _) as [t|]; [|reflexivity].
  now destruct (JS.eqb _ _).
Qed.

(** X5: a request that carries a non-empty user id other than the owner
    of the message's thread is refused by all three routes with an
    UnauthorizedError, and nothing is read out, changed or deleted. *)
Theorem foreign_user_refused
        (env : Env) (i : oid) (u content : jsstring) (msg : Message)
        (thread : Thread) (w : World) :
  findMessageById i w = Some msg ->
  findThreadById (message_threadId msg) w = Some thread ->
  truthy u = true ->
  thread_userId thread <> u ->
  truthy content = true ->
  getMessage (WellFormed i) (Some u) w
  = (Throw (UnauthorizedError access_denied), w)
  /\ updateMessage env (WellFormed i) (Some content) (Some u) w
     = (Throw (UnauthorizedError update_denied), w)
  /\ deleteMessage (WellFormed i) (Some u) w
     = (Throw (UnauthorizedError delete_denied), w).
Proof.
  intros Hm Ht Hu Hne Hc.
  assert (Hv : forall denied,
             verifyOwnership (Some u) (message_threadId msg) denied w
             = (Throw (UnauthorizedError denied), w)).
  { intros denied. rewrite verifyOwnership_run. cbn [truthy_opt opt_or].
    unfold or_else. rewrite Hu, Ht.
    apply eqb_neq in Hne. now rewrite Hne. }
  repeat split.
  - unfold getMessage. rewrite Hm. unfold bind. now rewrite Hv.
  - unfold updateMessage. cbn [truthy_opt]. rewrite Hc. cbn [negb].
    rewrite Hm. unfold bind. now rewrite Hv.
  - unfold deleteMessage. rewrite Hm. unfold bind. now rewrite Hv.
Qed.

Lemma foreign_user_refused_witness :
  getMessage (WellFormed 1) (Some (lit "u2"%string)) chatWorld
  = (Throw (UnauthorizedError access_denied), chatWorld)
  /\ updateMessage offlineEnv (WellFormed 1) (Some (lit "edited"%string))
                   (Some (lit "u2"%string)) chatWorld
     = (Throw (UnauthorizedError update_denied), chatWorld)
  /\ deleteMessage (WellFormed 1) (Some (lit "u2"%string)) chatWorld
     = (Throw (UnauthorizedError delete_denied), chatWorld).
Proof.
  apply (foreign_user_refused
           offlineEnv 1 (lit "u2"%string) (lit "edited"%string)
           (mkMessage 1 0 (lit "Hello"%string) (lit "u1"%string) [] 1 1)
           (mkThread 0 (lit "u1"%string) (lit "Hello"%string) true
                     (lit "u1"%string) 0 3)
           chatWorld);
    try reflexivity.
  discriminate.
Defined.

(** X6: an edit that succeeds can be read back: [getMessage] with the
    same id and user id then returns the record the edit returned, with
    the new content and the id, thread, sender and creation time of the
    old message.  No other message and no thread is changed, and no
    message is added or removed. *)
Theorem update_then_get
        (env : Env) (i : oid) (content : jsstring)
        (userId : option jsstring) (w w' : World) (v : MessageView) :
  updateMessage env (WellFormed i) (Some content) userId w = (Normal v, w') ->
  view_id v = i
  /\ view_content v = content
  /\ getMessage (WellFormed i) userId w' = (Normal v, w')
  /\ (exists old, findMessageById i w = Some old
                  /\ view_threadId v = message_threadId old
                  /\ view_sender v = message_sender old
                  /\ view_createdAt v = message_createdAt old)
  /\ (forall j, j <> i -> findMessageById j w' = findMessageById j w)
  /\ threads w' = threads w
  /\ length (messages w') = length (messages w).
Proof.
  unfold updateMessage. cbn [truthy_opt opt_or].
  destruct (truthy content) eqn:Hc; cbn [negb]; [|discriminate].
  assert (Ec : or_else content [] = content)
    by (unfold or_else; now rewrite Hc).
  rewrite Ec.
  destruct (findMessageById i w) as [old|] eqn:Hm; [|discriminate].
  destruct (findMessageById_id i w old Hm) as [Hid _].
  unfold bind.
  pose proof (verifyOwnership_world userId (message_threadId old)
                                    update_denied w) as Hw.
  destruct (verifyOwnership userId (message_threadId old) update_denied w)
    as [[[]|e] w1] eqn:Hv; [|discriminate].
  cbn [snd] in Hw. subst w1.
  assert (Hget : forall w2 m2,
             threads w2 = threads w ->
             findMessageById i w2 = Some m2 ->
             message_threadId m2 = message_threadId old ->
             getMessage (WellFormed i) userId w2
             = (Normal (formatMessage m2), w2)).
  { intros w2 m2 Ht2 Hf2 Hth. unfold getMessage. rewrite Hf2. unfold bind.
    pose proof (verifyOwnership_threads userId (message_threadId old)
                                        access_denied w w2 Ht2) as H1.
    pose proof (verifyOwnership_world userId (message_threadId old)
                                      access_denied w2) as H2.
    rewrite Hth.
    assert (H3 : fst (verifyOwnership userId (message_threadId old)
                                      access_denied w) = Normal tt).
    { rewrite verifyOwnership_run in Hv |- *.
      destruct (truthy_opt userId); [|reflexivity].
      destruct (findThreadById _ w) as [t|]; [|discriminate].
      destruct (JS.eqb _ _); [reflexivity|discriminate]. }
    destruct (verifyOwnership userId (message_threadId old) access_denied w2)
      as [r w3]. cbn [fst snd] in *. subst w3. rewrite H1, H3. reflexivity. }
  unfold saveContent.
  destruct (JS.eqb (message_content old) content) eqn:Esame.
  - intros [= <- <-]. apply eqb_eq in Esame.
    cbn [formatMessage view_id view_content view_threadId view_sender
         view_createdAt].
    repeat split; try assumption; try reflexivity.
    + now apply Hget.
    + exists old. now repeat split.
  - destruct (messageAccepted env _); [|discriminate].
    intros [= <- <-].
    cbn [formatMessage view_id view_content view_threadId view_sender
         view_createdAt message_id message_content message_threadId
         message_sender message_createdAt].
    repeat split; try assumption; try reflexivity.
    + apply Hget; [reflexivity| |reflexivity].
      unfold findMessageById. cbn [messages].
      rewrite Hid. eapply find_replaceFirst_same; [exact Hm|reflexivity].
    + exists old. now repeat split.
    + intros j Hj. unfold findMessageById. cbn [messages]. rewrite Hid.
      now apply find_replaceFirst_other.
    + cbn [messages]. apply length_replaceFirst.
Qed.

Lemma update_then_get_witness :
  exists v w',
    updateMessage offlineEnv (WellFormed 1) (Some (lit "Hello again"%string))
                  (Some (lit "u1"%string)) chatWorld
    = (Normal v, w')
    /\ view_content v = lit "Hello again"%string
    /\ getMessage (WellFormed 1) (Some (lit "u1"%string)) w' = (Normal v, w').
Proof.
  eexists _, _. split; [reflexivity|].
  destruct (update_then_get offlineEnv 1 (lit "Hello again"%string)
                            (Some (lit "u1"%string)) chatWorld _ _ eq_refl)
    as (_ & H2 & H3 & _).
  split; [exact H2|exact H3].
Defined.

(** X7: a deletion that succeeds removes exactly the message with that
    id: one message fewer, every other message still found as before,
    and the threads untouched (the thread of the message is neither
    deleted nor updated).  With ids unique, the message is gone: reading
    or deleting it again fails with NotFound. *)
Theorem delete_removes_one
        (i : oid) (userId userId' : option jsstring) (w w' : World)
        (r : DeleteResult) :
  uniqueIds w ->
  deleteMessage (WellFormed i) userId w = (Normal r, w') ->
  deleted_id r = i
  /\ deleted r = true
  /\ (exists old, findMessageById i w = Some old
                  /\ deleted_threadId r = message_threadId old)
  /\ threads w' = threads w
  /\ S (length (messages w')) = length (messages w)
  /\ (forall j, j <> i -> findMessageById j w' = findMessageById j w)
  /\ getMessage (WellFormed i) userId' w' = (Throw message_not_found, w')
  /\ deleteMessage (WellFormed i) userId' w' = (Throw message_not_found, w')
  /\ uniqueIds w'.
Proof.
  intros Hu. unfold deleteMessage at 1.
  destruct (findMessageById i w) as [old|] eqn:Hm; [|discriminate].
  unfold bind.
  pose proof (verifyOwnership_world userId (message_threadId old)
                                    delete_denied w) as Hw.
  destruct (verifyOwnership userId (message_threadId old) delete_denied w)
    as [[[]|e] w1]; [|discriminate].
  cbn [snd] in Hw. subst w1. unfold findByIdAndDelete, ret.
  intros [= <- <-]. cbn [deleted_id deleted deleted_threadId threads messages].
  assert (Hgone : findMessageById i
                    (mkWorld (threads w) (removeFirst i (messages w))
                             (nextId w) (now w) (calls w)) = None)
    by (unfold findMessageById; cbn [messages];
        now apply find_removeFirst_same).
  repeat split.
  - exists old. now split.
  - eapply length_removeFirst. exact Hm.
  - intros j Hj. unfold findMessageById. cbn [messages].
    now apply find_removeFirst_other.
  - unfold getMessage. now rewrite Hgone.
  - unfold deleteMessage. now rewrite Hgone.
  - unfold uniqueIds. cbn [messages]. now apply removeFirst_NoDup.
Qed.

Lemma delete_removes_one_witness :
  uniqueIds chatWorld
  /\ exists r w',
       deleteMessage (WellFormed 1) None chatWorld = (Normal r, w')
       /\ threads w' = threads chatWorld
       /\ getMessage (WellFormed 1) None w' = (Throw message_not_found, w').
Proof.
  assert (Hu : uniqueIds chatWorld).
  { unfold uniqueIds. simpl. repeat constructor; simpl; intuition lia. }
  split; [exact Hu|].
  eexists _, _. split; [vm_compute; reflexivity|].
  destruct (delete_removes_one 1 None None chatWorld _ _ Hu eq_refl)
    as (_ & _ & _ & H4 & _ & _ & H7 & _).
  split; [exact H4|exact H7].
Defined.

(** X8: the three routes are all-or-nothing and never talk to the
    embedding server: reading changes nothing; an edit or a deletion
    that throws leaves the world as it was; and no outcome adds a call
    to the log, so an edited or deleted message is not re-indexed. *)
Theorem single_message_routes_atomic
        (env : Env) (id : rawId) (content userId : option jsstring)
        (w : World) :
  snd (getMessage id userId w) = w
  /\ match fst (updateMessage env id content userId w) with
     | Throw _ => snd (updateMessage env id content userId w) = w
     | Normal _ => True
     end
  /\ match fst (deleteMessage id userId w) with
     | Throw _ => snd (deleteMessage id userId w) = w
     | Normal _ => True
     end
  /\ calls (snd (updateMessage env id content userId w)) = calls w
  /\ calls (snd (deleteMessage id userId w)) = calls w
  /\ threads (snd (updateMessage env id content userId w)) = threads w
  /\ threads (snd (deleteMessage id userId w)) = threads w.
Proof.
  assert (Hg : snd (getMessage id userId w) = w).
  { unfold getMessage. destruct id as [i|]; [|reflexivity].
    destruct (findMessageById i w) as [m|]; [|reflexivity].
    unfold bind.
    pose proof (verifyOwnership_world userId (message_threadId m)
                                      access_denied w) as Hw.
    destruct (verifyOwnership _ _ _ w) as [[[]|e] w1]; cbn [snd] in *;
      now subst. }
  assert (Hupd : forall P : Completion MessageView * World -> Prop,
             (forall e, P (Throw e, w)) ->
             (forall v w', calls w' = calls w -> threads w' = threads w ->
                           P (Normal v, w')) ->
             P (updateMessage env id content userId w)).
  { intros P Pt Pn. unfold updateMessage.
    destruct (negb (truthy_opt content)); [apply Pt|].
    destruct id as [i|]; [|apply Pt].
    destruct (findMessageById i w) as [m|]; [|apply Pt].
    unfold bind.
    pose proof (verifyOwnership_world userId (message_threadId m)
                                      update_denied w) as Hw.
    destruct (verifyOwnership _ _ _ w) as [[[]|e] w1]; cbn [snd] in *;
      subst w1; [|apply Pt].
    unfold saveContent.
    destruct (JS.eqb _ _); [now apply Pn|].
    destruct (messageAccepted env _); [now apply Pn|apply Pt]. }
  assert (Hdel : forall P : Completion DeleteResult * World -> Prop,
             (forall e, P (Throw e, w)) ->
             (forall v w', calls w' = calls w -> threads w' = threads w ->
                           P (Normal v, w')) ->
             P (deleteMessage id userId w)).
  { intros P Pt Pn. unfold deleteMessage.
    destruct id as [i|]; [|apply Pt].
    destruct (findMessageById i w) as [m|]; [|apply Pt].
    unfold bind.
    pose proof (verifyOwnership_world userId (message_threadId m)
                                      delete_denied w) as Hw.
    destruct (verifyOwnership _ _ _ w) as [[[]|e] w1]; cbn [snd] in *;
      subst w1; [|apply Pt].
    now apply Pn. }
  split; [exact Hg|].
  split; [apply Hupd; intros; [reflexivity|exact I]|].
  split; [apply Hdel; intros; [reflexivity|exact I]|].
  split; [apply Hupd; intros; [reflexivity|assumption]|].
  split; [apply Hdel; intros; [reflexivity|assumption]|].
  split; [apply Hupd; intros; [reflexivity|assumption]|].
  apply Hdel; intros; [reflexivity|assumption].
Qed.

End MessageRoutesFacts.

(* ================================================================== *)
(** * What every route keeps: properties *)
(* ================================================================== *)

Module StoreFacts.

Import Enhancer JSFacts ServiceSpec ServiceFacts EnhancerSpec.
Import Routes TurnSpec TurnFacts MessageRoutes MessageRoutesFacts StoreSpec.

(** ** Case analysis of a turn *)

Lemma createTurn_cases toLowerCase env req w
      (P : Completion TurnResponse * World -> Prop) :
  (forall msg, P (Throw (ValidationError msg), w)) ->
  (forall threadId content userId files,
      req = mkTurnRequest threadId (Some content) (Some userId) files ->
      truthy content = true -> truthy userId = true ->
      threadId <> Some Malformed ->
      P match resolveThread threadId userId content w with
        | (Normal tid, w1) =>
            turnOutcome toLowerCase env userId content (files_or_empty files)
                        tid w1
        | (Throw e, w1) => (Throw e, w1)
        end) ->
  P (createTurn toLowerCase env req w).
Proof.
  intros Pv Pr.
  destruct req as [threadId [content|] userId files]; [|apply Pv].
  destruct (truthy content) eqn:Hc;
    [|unfold createTurn; cbn [req_content]; rewrite Hc; apply Pv].
  destruct userId as [userId|];
    [|unfold createTurn; cbn [req_content req_userId truthy_opt negb];
      rewrite Hc; apply Pv].
  destruct (truthy userId) eqn:Hu;
    [|unfold createTurn; cbn [req_content req_userId truthy_opt negb];
      rewrite Hc, Hu; apply Pv].
  assert (Hbad : threadId = Some Malformed \/ threadId <> Some Malformed)
    by (destruct threadId as [[i|]|]; (now left) || (right; discriminate)).
  destruct Hbad as [->|Hok].
  { unfold createTurn. cbn [req_content req_userId req_threadId truthy_opt].
    rewrite Hc, Hu. apply Pv. }
  rewrite createTurn_run by assumption.
  now apply (Pr threadId content userId files).
Qed.

Lemma resolveThread_cases threadId userId content w
      (P : Completion oid * World -> Prop) :
  threadId <> Some Malformed ->
  (forall tid, threadId = Some (WellFormed tid) ->
               findThreadById tid w = None ->
               P (Throw thread_not_found, w)) ->
  (forall thread, In thread (threads w) -> P (Normal (thread_id thread), w)) ->
  (threadId = None -> findActiveThread userId w = None ->
   P (Normal (nextId w), created userId (threadTitle content) w)) ->
  P (resolveThread threadId userId content w).
Proof.
  intros Hok Pn Pf Pc. unfold resolveThread.
  destruct threadId as [[tid|]|]; [|congruence|].
  - destruct (findThreadById tid w) as [t|] eqn:E.
    + apply find_some_pred in E as [Hin Hid]. apply Nat.eqb_eq in Hid.
      subst tid. now apply Pf.
    + now apply (Pn tid).
  - destruct (findActiveThread userId w) as [t|] eqn:E.
    + apply Pf. unfold findActiveThread in E.
      pose proof (fold_newer_spec
                    (filter (fun t => JS.eqb (thread_userId t) userId
                                      && thread_isActive t) (threads w))
                    None) as S.
      rewrite E in S. destruct S as ([S|S] & _); [discriminate|].
      now apply filter_In in S as [S _].
    + now apply Pc.
Qed.

Lemma turnOutcome_cases toLowerCase env userId content files tid w1
      (P : Completion TurnResponse * World -> Prop) :
  P (Throw PersistenceError, w1) ->
  (forall e, stoppedLate e = true ->
     P (Throw e,
        fetched env userId content None
                (indexed env userId content tid (nextId w1)
                         (saved (mkDraft tid content userId files) w1)))) ->
  (forall s c r,
     s <> [] ->
     let w3 := fetched env userId content None
                 (indexed env userId content tid (nextId w1)
                          (saved (mkDraft tid content userId files) w1)) in
     P (Normal (mkTurnResponse s c r tid (nextId w1)),
        touched tid
          (indexed env userId s tid (nextId w3)
                   (saved (mkDraft tid s (lit "system"%string) []) w3)))) ->
  P (turnOutcome toLowerCase env userId content files tid w1).
Proof.
  intros P1 P2 P3. unfold turnOutcome.
  destruct (messageAccepted env _); [|exact P1].
  destruct (ragFields _) as [[a c] r].
  destruct (enhanceResponse toLowerCase (or_else a no_response) content)
    as [s| |n] eqn:E; try (now apply P2).
  destruct (messageAccepted env _); [|now apply P2].
  apply P3. eapply enhanceResponse_nonempty; [|exact E].
  apply or_else_nonempty, no_response_nonempty.
Qed.

(** ** Finding a thread by id *)

Lemma find_In_some (i : oid) (t : Thread) (l : list Thread) :
  In t l -> thread_id t = i ->
  exists t', find (fun x => thread_id x =? i) l = Some t'.
Proof.
  intros Hin Hid. destruct (find (fun x => thread_id x =? i) l) eqn:E.
  - now eexists.
  - exfalso. eapply find_none in E; [|exact Hin].
    apply Nat.eqb_neq in E. contradiction.
Qed.

(** ** The next turn *)

Lemma touch_activeFor u i time t :
  activeFor u (touch i time t) = activeFor u t.
Proof. unfold touch. now destruct (thread_id t =? i). Qed.

Lemma filter_map_touch u i time l :
  filter (activeFor u) (map (touch i time) l)
  = map (touch i time) (filter (activeFor u) l).
Proof.
  induction l as [|t l IH]; simpl; [reflexivity|].
  rewrite touch_activeFor. destruct (activeFor u t); simpl; now rewrite IH.
Qed.

(** X11: a user's first turn opens a thread, and the next turn without
    thread id by the same user lands in it: it resolves to the thread of
    the first answer and creates no thread, whatever it then does. *)
Theorem next_turn_same_thread
        (toLowerCase : jsstring -> jsstring) (env env2 : Env)
        (content userId content2 : jsstring)
        (files files2 : option (list jsstring)) (w w' : World)
        (resp : TurnResponse) :
  (forall t, In t (threads w) -> activeFor userId t = false) ->
  createTurn toLowerCase env
             (mkTurnRequest None (Some content) (Some userId) files) w
  = (Normal resp, w') ->
  resolveThread None userId content2 w' = (Normal (resp_threadId resp), w')
  /\ match createTurn toLowerCase env2
                      (mkTurnRequest None (Some content2) (Some userId)
                                     files2) w' with
     | (Normal resp2, w'') =>
         resp_threadId resp2 = resp_threadId resp
         /\ length (threads w'') = length (threads w')
     | (Throw _, w'') => length (threads w'') = length (threads w')
     end.
Proof.
  intros Hnone Hrun.
  assert (Hc : truthy content = true).
  { destruct (truthy content) eqn:E; [reflexivity|].
    unfold createTurn in Hrun. cbn [req_content] in Hrun.
    rewrite E in Hrun. discriminate. }
  assert (Hu : truthy userId = true).
  { destruct (truthy userId) eqn:E; [reflexivity|].
    unfold createTurn in Hrun. cbn [req_content req_userId truthy_opt] in Hrun.
    rewrite Hc, E in Hrun. discriminate. }
  rewrite createTurn_run in Hrun by (assumption || discriminate).
  rewrite (resolveThread_create userId content w
             (findActiveThread_none userId w Hnone)) in Hrun.
  assert (Hres : resolveThread None userId content2 w'
                 = (Normal (resp_threadId resp), w')).
  { revert Hrun. apply turnOutcome_cases; try discriminate.
    intros s c r _ w3 [= <- <-]. cbn [resp_threadId].
    unfold resolveThread, findActiveThread.
    change (fun t => JS.eqb (thread_userId t) userId && thread_isActive t)
      with (activeFor userId).
    cbn [touched threads]. rewrite threads_indexed. cbn [saved threads].
    subst w3. rewrite threads_fetched, threads_indexed.
    cbn [saved created threads].
    rewrite filter_map_touch, filter_app, (filter_nil _ _ Hnone).
    cbn [app filter]. unfold activeFor at 1. cbn [thread_userId thread_isActive].
    rewrite eqb_refl. cbn [andb map fold_left newer].
    now rewrite touch_id. }
  split; [exact Hres|].
  apply createTurn_cases; [reflexivity|].
  intros threadId c2 u2 f2 [= <- <- <- <-] _ _ _.
  rewrite Hres. apply turnOutcome_cases; try reflexivity.
  - intros e _. now rewrite threads_fetched, threads_indexed.
  - intros s c r _ w3. split; [reflexivity|].
    cbn [touched threads]. rewrite length_map, threads_indexed.
    cbn [saved threads]. subst w3.
    now rewrite threads_fetched, threads_indexed.
Qed.

Lemma next_turn_same_thread_witness :
  exists resp w',
    createTurn Engine.asciiToLowerCase offlineEnv helloRequest emptyWorld
    = (Normal resp, w')
    /\ resolveThread None (lit "u1"%string) (lit "And again"%string) w'
       = (Normal (resp_threadId resp), w').
Proof.
  eexists _, _. split; [vm_compute; reflexivity|].
  apply (proj1 (next_turn_same_thread
                  Engine.asciiToLowerCase offlineEnv offlineEnv
                  (lit "Hello"%string) (lit "u1"%string)
                  (lit "And again"%string) None None emptyWorld _ _
                  (fun t (H : In t (threads emptyWorld)) =>
                     match H with end)
                  eq_refl)).
Defined.

(** ** [POST /generate] *)

Lemma generateOnly_cases toLowerCase env greq w
      (P : Completion GenerateResponse * World -> Prop) :
  (forall msg, P (Throw (ValidationError msg), w)) ->
  P (Throw thread_not_found, w) ->
  (forall tid userMessage thread,
      greq = mkGenerateRequest (Some (WellFormed tid)) (Some userMessage) ->
      truthy userMessage = true ->
      findThreadById tid w = Some thread ->
      P (generateOutcome toLowerCase env thread userMessage tid w)) ->
  P (generateOnly toLowerCase env greq w).
Proof.
  intros Pv Pn Pr.
  destruct greq as [[[tid|]|] [userMessage|]]; try apply Pv.
  - destruct (truthy userMessage) eqn:Hu;
      [|unfold generateOnly; cbn [gen_threadId gen_userMessage];
        rewrite Hu; apply Pv].
    destruct (findThreadById tid w) as [thread|] eqn:Hf.
    + rewrite (generateOnly_run toLowerCase env tid userMessage thread w Hu Hf).
      now apply (Pr tid userMessage thread).
    + unfold generateOnly. cbn [gen_threadId gen_userMessage].
      rewrite Hu. cbn [negb]. rewrite Hf. apply Pn.
  - unfold generateOnly. cbn [gen_threadId gen_userMessage].
    destruct (truthy userMessage); apply Pv.
Qed.

Lemma generateOutcome_cases toLowerCase env thread userMessage tid w
      (P : Completion GenerateResponse * World -> Prop) :
  let userId := thread_userId thread in
  let d1 := mkDraft tid userMessage (or_else userId (lit "user"%string)) [] in
  let w3 := fetched env userId userMessage (Some tid)
              (indexed env userId userMessage tid (nextId w) (saved d1 w)) in
  P (Throw PersistenceError, w) ->
  (forall e, stoppedLate e = true -> P (Throw e, w3)) ->
  (forall s c r,
     s <> [] ->
     P (Normal (mkGenerateResponse
                  s (or_else c (lit "RAG context not available"%string)) r),
        indexed env userId s tid (nextId w3)
                (saved (mkDraft tid s (lit "system"%string) []) w3))) ->
  P (generateOutcome toLowerCase env thread userMessage tid w).
Proof.
  intros userId d1 w3 P1 P2 P3. unfold generateOutcome.
  fold userId. fold d1.
  destruct (messageAccepted env d1); [|exact P1].
  fold w3.
  destruct (ragFields _) as [[a c] r].
  destruct (enhanceResponse toLowerCase (or_else a no_response) userMessage)
    as [s| |n] eqn:E; try (now apply P2).
  destruct (messageAccepted env _); [|now apply P2].
  apply P3. eapply enhanceResponse_nonempty; [|exact E].
  apply or_else_nonempty, no_response_nonempty.
Qed.

(** X12: [POST /generate] never creates a thread and never touches one:
    the threads are the same after every outcome.  A bad request or an
    unknown thread is refused before anything is written.  A completed
    request has appended exactly the user message, sent by the owner of
    the thread (or ["user"] when the thread has no owner), and the
    assistant message, both in the given thread, and answers with a
    non-empty context. *)
Theorem generateOnly_outcomes
        (toLowerCase : jsstring -> jsstring) (env : Env)
        (greq : GenerateRequest) (w : World) :
  threads (snd (generateOnly toLowerCase env greq w)) = threads w
  /\ match generateOnly toLowerCase env greq w with
     | (Throw e, w') =>
         if refusedEarly e then w' = w else stoppedLate e = true
     | (Normal resp, w') =>
         gen_context resp <> []
         /\ exists tid thread userMessage um am,
              greq = mkGenerateRequest (Some (WellFormed tid))
                                       (Some userMessage)
              /\ findThreadById tid w = Some thread
              /\ messages w' = messages w ++ [um; am]
              /\ message_threadId um = tid
              /\ message_content um = userMessage
              /\ message_sender um
                 = or_else (thread_userId thread) (lit "user"%string)
              /\ message_threadId am = tid
              /\ message_content am = gen_answer resp
              /\ message_sender am = lit "system"%string
     end.
Proof.
  apply generateOnly_cases.
  - intros msg. now split.
  - now split.
  - intros tid userMessage thread Hreq Hu Hf.
    apply generateOutcome_cases.
    + now split.
    + intros e He. split.
      * cbn [snd]. now rewrite threads_fetched, threads_indexed.
      * destruct e; try discriminate; reflexivity.
    + intros s c r Hs. split.
      * cbn [snd]. rewrite threads_indexed. cbn [saved threads].
        now rewrite threads_fetched, threads_indexed.
      * split.
        -- cbn [gen_context]. apply or_else_nonempty. discriminate.
        -- exists tid, thread, userMessage. eexists _, _.
           split; [exact Hreq|]. split; [exact Hf|].
           rewrite messages_indexed. cbn [saved messages].
           rewrite messages_fetched, messages_indexed. cbn [saved messages].
           rewrite <- app_assoc. cbn [app].
           split; [reflexivity|]. repeat split.
Qed.

(** ** The store stays sound *)

Lemma uniqueIds_saved d w :
  consistent w -> uniqueIds w -> uniqueIds (saved d w).
Proof.
  intros [_ Hm] Hu. unfold uniqueIds in *. cbn [saved messages].
  rewrite map_app. cbn [map instantiate message_id].
  apply NoDup_app; [exact Hu|repeat constructor; intros []|].
  intros i Hi [<-|[]]. apply in_map_iff in Hi as (m & Hid & Hin).
  apply Hm in Hin. lia.
Qed.

Lemma sound_saved tid content sender files w :
  soundStore w -> tid < nextId w ->
  soundStore (saved (mkDraft tid content sender files) w).
Proof.
  intros [Hc Hu] Ht. split;
    [now apply consistent_saved|now apply uniqueIds_saved].
Qed.

Lemma sound_indexed env u t tid mid w :
  soundStore w -> soundStore (indexed env u t tid mid w).
Proof. unfold indexed. now destruct (apiUrl_set env). Qed.

Lemma sound_fetched env u q tid w :
  soundStore w -> soundStore (fetched env u q tid w).
Proof. unfold fetched. now destruct (apiUrl_set env). Qed.

Lemma sound_touched tid w : soundStore w -> soundStore (touched tid w).
Proof.
  intros [Hc Hu]. split; [now apply consistent_touched|exact Hu].
Qed.

Lemma sound_created u title w : soundStore w -> soundStore (created u title w).
Proof.
  intros [[Ht Hm] Hu]. split; [split|exact Hu];
    cbn [created threads messages nextId].
  - intros t Hin. apply in_app_or in Hin as [Hin|[<-|[]]].
    + apply Ht in Hin. lia.
    + cbn. lia.
  - intros m Hin. apply Hm in Hin. lia.
Qed.

Lemma instantiate_all_bounds i time ds m :
  In m (instantiate_all i time ds) ->
  i <= message_id m < i + length ds
  /\ exists d, In d ds /\ message_threadId m = draft_threadId d.
Proof.
  revert i; induction ds as [|d ds IH]; intros i; simpl; [tauto|].
  intros [<-|Hin].
  - cbn. split; [lia|]. exists d. split; [now left|reflexivity].
  - apply IH in Hin as (Hb & d' & Hd & Ht). split; [lia|].
    exists d'. split; [now right|exact Ht].
Qed.

Lemma map_id_replaceFirst i m' l m :
  find (fun x => message_id x =? i) l = Some m ->
  message_id m' = i ->
  map message_id (replaceFirst i m' l) = map message_id l.
Proof.
  intros Hf Hid. induction l as [|x l IH]; simpl in *; [discriminate|].
  destruct (message_id x =? i) eqn:E.
  - apply Nat.eqb_eq in E. simpl. congruence.
  - simpl. now rewrite IH.
Qed.

Lemma In_replaceFirst i m' l x :
  In x (replaceFirst i m' l) -> x = m' \/ In x l.
Proof.
  induction l as [|y l IH]; simpl; [tauto|].
  destruct (message_id y =? i); simpl.
  - intros [<-|H]; [now left|right; now right].
  - intros [<-|H]; [right; now left|].
    apply IH in H as [H|H]; [now left|right; now right].
Qed.

Lemma In_removeFirst i l x : In x (removeFirst i l) -> In x l.
Proof.
  induction l as [|y l IH]; simpl; [tauto|].
  destruct (message_id y =? i); simpl; [now right|].
  intros [<-|H]; [now left|right; now apply IH].
Qed.

(** X13: every route that writes keeps the store sound: after a turn, a
    generation, a batch import, an edit or a deletion, completed or not,
    the ids of the stored threads and messages and the thread references
    of the messages lie below the next id, and no two messages share an
    id. *)
Theorem routes_keep_store_sound
        (toLowerCase : jsstring -> jsstring) (env : Env)
        (req : TurnRequest) (greq : GenerateRequest)
        (batchThread : option rawId) (batch : option (list BatchItem))
        (id : rawId) (content userId : option jsstring) (w : World) :
  soundStore w ->
  soundStore (snd (createTurn toLowerCase env req w))
  /\ soundStore (snd (generateOnly toLowerCase env greq w))
  /\ soundStore (snd (batchCreateMessages env batchThread batch userId w))
  /\ soundStore (snd (updateMessage env id content userId w))
  /\ soundStore (snd (deleteMessage id userId w)).
Proof.
  intros Hs. pose proof Hs as [[Ht Hm] Hu].
  split; [|split; [|split; [|split]]].
  - apply createTurn_cases; [intros; exact Hs|].
    intros threadId c u files _ _ _ Hok.
    assert (Hturn : forall tid' w1,
               soundStore w1 -> tid' < nextId w1 ->
               soundStore (snd (turnOutcome toLowerCase env u c
                                            (files_or_empty files) tid' w1))).
    { intros tid' w1 H1 Hlt.
      assert (H3 : soundStore
                     (fetched env u c None
                        (indexed env u c tid' (nextId w1)
                           (saved (mkDraft tid' c u (files_or_empty files))
                                  w1))))
        by (apply sound_fetched, sound_indexed; now apply sound_saved).
      apply turnOutcome_cases; try (intros; assumption).
      intros s c0 r _ w3. cbn [snd].
      apply sound_touched, sound_indexed, sound_saved; [exact H3|].
      subst w3. rewrite nextId_fetched, nextId_indexed, nextId_saved. lia. }
    apply resolveThread_cases; try assumption.
    + intros; exact Hs.
    + intros thread Hin. apply Hturn; [exact Hs|now apply Ht].
    + intros _ _. apply Hturn; [now apply sound_created|].
      cbn [created nextId]. lia.
  - apply generateOnly_cases; try (intros; exact Hs).
    intros tid' userMessage thread _ _ Hf.
    apply find_some_pred in Hf as [Hin Hid]. apply Nat.eqb_eq in Hid.
    assert (Hlt : tid' < nextId w) by (subst tid'; now apply Ht).
    apply generateOutcome_cases; try (intros; exact Hs).
    + intros e _. cbn [snd]. apply sound_fetched, sound_indexed.
      now apply sound_saved.
    + intros s c r _. cbn [snd]. apply sound_indexed, sound_saved.
      * apply sound_fetched, sound_indexed. now apply sound_saved.
      * rewrite nextId_fetched, nextId_indexed, nextId_saved. lia.
  - destruct batchThread as [[tid|]|]; destruct batch as [[|m ms]|];
      try exact Hs.
    rewrite batch_run by discriminate.
    destruct (findThreadById tid w) as [thread|] eqn:Hf; [|exact Hs].
    destruct (ownerOrAbsent userId thread); [|exact Hs].
    destruct (forallb _ _); [|exact Hs]. cbn [snd].
    apply find_some_pred in Hf as [Hin Hid]. apply Nat.eqb_eq in Hid.
    assert (Hlt : tid < nextId w) by (subst tid; now apply Ht).
    set (ds := batchDrafts tid userId (m :: ms)).
    assert (Hds : forall d, In d ds -> draft_threadId d = tid).
    { intros d Hd. unfold ds, batchDrafts in Hd.
      apply in_map_iff in Hd as (x & <- & _). reflexivity. }
    split; [split|]; cbn [threads messages nextId].
    + intros t Hin'. apply Ht in Hin'. lia.
    + intros x Hx. apply in_app_or in Hx as [Hx|Hx].
      * apply Hm in Hx. lia.
      * apply instantiate_all_bounds in Hx as (Hb & d & Hd & Hth).
        rewrite Hth, (Hds d Hd). lia.
    + unfold uniqueIds. cbn [messages]. rewrite map_app.
      rewrite instantiate_all_ids.
      apply NoDup_app; [exact Hu|apply seq_NoDup|].
      intros i Hi Hseq. apply in_seq in Hseq.
      apply in_map_iff in Hi as (x & Hid' & Hx). apply Hm in Hx. lia.
  - unfold updateMessage.
    destruct (negb (truthy_opt content)); [exact Hs|].
    destruct id as [i|]; [|exact Hs].
    destruct (findMessageById i w) as [old|] eqn:Hf; [|exact Hs].
    destruct (findMessageById_id i w old Hf) as [Hid Hin].
    unfold bind.
    pose proof (verifyOwnership_world userId (message_threadId old)
                                      update_denied w) as Hw.
    destruct (verifyOwnership _ _ _ w) as [[[]|e] w1]; cbn [snd] in *;
      subst w1; [|exact Hs].
    unfold saveContent.
    destruct (JS.eqb _ _); [exact Hs|].
    destruct (messageAccepted env _); [|exact Hs]. cbn [snd ret].
    split; [split|]; cbn [threads messages nextId].
    + exact Ht.
    + intros x Hx. apply In_replaceFirst in Hx as [->|Hx];
        [|now apply Hm].
      cbn [message_id message_threadId]. now apply Hm.
    + unfold uniqueIds. cbn [messages].
      erewrite map_id_replaceFirst; [exact Hu| |reflexivity].
      rewrite Hid. exact Hf.
  - unfold deleteMessage.
    destruct id as [i|]; [|exact Hs].
    destruct (findMessageById i w) as [old|] eqn:Hf; [|exact Hs].
    unfold bind.
    pose proof (verifyOwnership_world userId (message_threadId old)
                                      delete_denied w) as Hw.
    destruct (verifyOwnership _ _ _ w) as [[[]|e] w1]; cbn [snd] in *;
      subst w1; [|exact Hs].
    cbn [findByIdAndDelete snd ret].
    split; [split|]; cbn [threads messages nextId].
    + exact Ht.
    + intros x Hx. apply In_removeFirst in Hx. now apply Hm.
    + unfold uniqueIds. cbn [messages]. now apply removeFirst_NoDup.
Qed.

Lemma routes_keep_store_sound_witness :
  soundStore chatWorld
  /\ soundStore (snd (createTurn Engine.asciiToLowerCase offlineEnv
                                 helloRequest chatWorld))
  /\ soundStore (snd (deleteMessage (WellFormed 1) None chatWorld)).
Proof.
  assert (H : soundStore chatWorld).
  { split; [split|].
    - intros t [<-|[]]. cbn. lia.
    - intros m [<-|[<-|[]]]; cbn; lia.
    - unfold uniqueIds. simpl. repeat constructor; simpl; intuition lia. }
  split; [exact H|].
  destruct (routes_keep_store_sound
              Engine.asciiToLowerCase offlineEnv helloRequest
              (mkGenerateRequest None None) None None (WellFormed 1) None None
              chatWorld H)
    as (H1 & _ & _ & _ & H5).
  split; [exact H1|exact H5].
Defined.

End StoreFacts.

(* ================================================================== *)
(** * Prompt enhancement: properties *)
(* ================================================================== *)

Module PromptFacts.

Import JSFacts ServiceSpec ServiceFacts TurnSpec PromptEnhancer PromptSpec.

Lemma dropSpaces_pad pad s :
  forallb is_space pad = true -> dropSpaces (pad ++ s) = dropSpaces s.
Proof.
  induction pad as [|c pad IH]; simpl; [reflexivity|].
  intros H. apply andb_true_iff in H as [Hc Hp]. rewrite Hc. now apply IH.
Qed.

Lemma dropSpaces_app s p :
  dropSpaces (s ++ p)
  = match dropSpaces s with
    | [] => dropSpaces p
    | _ :: _ => dropSpaces s ++ p
    end.
Proof.
  induction s as [|c s IH]; simpl; [now destruct (dropSpaces p)|].
  destruct (is_space c); [exact IH|reflexivity].
Qed.

Lemma trim_padding pad pad' s :
  forallb is_space pad = true -> forallb is_space pad' = true ->
  trim (pad ++ s ++ pad') = trim s.
Proof.
  intros Hp Hp'. unfold trim. rewrite (dropSpaces_pad pad _ Hp).
  rewrite dropSpaces_app.
  assert (Hall : dropSpaces pad' = []).
  { clear Hp. induction pad' as [|c p IH]; simpl; [reflexivity|].
    simpl in Hp'. apply andb_true_iff in Hp' as [Hc Hr]. rewrite Hc.
    now apply IH. }
  destruct (dropSpaces s) as [|c r] eqn:E.
  - rewrite Hall. reflexivity.
  - rewrite rev_app_distr.
    assert (Hrev : forallb is_space (rev pad') = true).
    { apply forallb_forall. intros x Hx. apply in_rev in Hx.
      rewrite forallb_forall in Hp'. now apply Hp'. }
    now rewrite (dropSpaces_pad (rev pad') _ Hrev).
Qed.

(** X14: white space around a message never changes whether it counts as
    trivial: [isTrivialMessage] sees the trimmed text only. *)
Theorem trivial_ignores_padding
        (toLowerCase : jsstring -> jsstring) (pad pad' s : jsstring) :
  forallb is_space pad = true ->
  forallb is_space pad' = true ->
  trim (pad ++ s ++ pad') = trim s
  /\ isTrivialMessage toLowerCase (pad ++ s ++ pad')
     = isTrivialMessage toLowerCase s.
Proof.
  intros Hp Hp'. split; [now apply trim_padding|].
  unfold isTrivialMessage. now rewrite trim_padding.
Qed.

Lemma trivial_ignores_padding_witness :
  trim (lit "  "%string ++ lit "Hello"%string ++ [10%N]) = trim (lit "Hello"%string)
  /\ isTrivialMessage Engine.asciiToLowerCase
                      (lit "  "%string ++ lit "Hello"%string ++ [10%N])
     = isTrivialMessage Engine.asciiToLowerCase (lit "Hello"%string).
Proof.
  apply (trivial_ignores_padding Engine.asciiToLowerCase (lit "  "%string)
                                 [10%N] (lit "Hello"%string));
    reflexivity.
Defined.

Lemma enhancePromptWithRAG_run
        (toLowerCase : jsstring -> jsstring) (env : Env)
        (userId query : jsstring) (threadId : oid) (w : World) :
  let request := mkRagRequest userId (Some threadId) query in
  exists before,
    fst (enhancePromptWithRAG toLowerCase env userId query threadId w)
    = Normal (before ++ query)
    /\ snd (enhancePromptWithRAG toLowerCase env userId query threadId w)
       = (if searched toLowerCase env query
          then logged (CallRagGenerate request) w
          else w)
    /\ before
       = if searched toLowerCase env query then
           match postRagGenerate env request with
           | HttpOk (Some d) => promptPrefix (opt_or (rag_context d) [])
           | HttpOk None => []
           | HttpAxiosError _ _ | HttpOtherError =>
               promptPrefix failure_context
           end
         else [].
Proof.
  intros request. unfold enhancePromptWithRAG, searched, isEnabled.
  destruct (apiUrl_set env) eqn:Hen; cbn [negb orb andb];
    [|exists []; now repeat split].
  destruct (shouldUseSemanticSearch toLowerCase query); cbn [negb];
    [|exists []; now repeat split].
  unfold try_catch, bind. rewrite getRAGResponse_run, Hen. fold request.
  assert (Hp : forall c, join4 information_heading c query_heading query
                         = promptPrefix c ++ query).
  { intros c. unfold join4, promptPrefix. now rewrite <- !app_assoc. }
  destruct (postRagGenerate env request) as [[d|]| |]; cbn [buildPrompt].
  - exists (promptPrefix (opt_or (rag_context d) [])).
    unfold ret. cbn [fst snd]. now rewrite Hp.
  - exists []. now repeat split.
  - exists (promptPrefix failure_context).
    unfold ret. cbn [fst snd]. split; [|now split].
    now rewrite <- Hp.
  - exists (promptPrefix failure_context).
    unfold ret. cbn [fst snd]. split; [|now split].
    now rewrite <- Hp.
Qed.

(** X15: [enhancePromptWithRAG] always completes normally, and its prompt
    always ends with the query as given.  It asks the RAG server at most
    once, and only when the service is enabled and the query is worth a
    search; otherwise the prompt is the query alone.  When the server
    fails, the prompt is still built, around the text
    ["Error retrieving context"] in the place of the retrieved
    information; a reply with an empty body gives the query alone. *)
Theorem enhancePrompt_keeps_query
        (toLowerCase : jsstring -> jsstring) (env : Env)
        (userId query : jsstring) (threadId : oid) (w : World) :
  let request := mkRagRequest userId (Some threadId) query in
  exists before,
    fst (enhancePromptWithRAG toLowerCase env userId query threadId w)
    = Normal (before ++ query)
    /\ snd (enhancePromptWithRAG toLowerCase env userId query threadId w)
       = (if searched toLowerCase env query
          then logged (CallRagGenerate request) w
          else w)
    /\ before
       = if searched toLowerCase env query then
           match postRagGenerate env request with
           | HttpOk (Some d) => promptPrefix (opt_or (rag_context d) [])
           | HttpOk None => []
           | HttpAxiosError _ _ | HttpOtherError =>
               promptPrefix failure_context
           end
         else [].
Proof. apply enhancePromptWithRAG_run. Qed.

End PromptFacts.

(* ================================================================== *)
(** * Memory recall on plain keywords: properties *)
(* ================================================================== *)

Module RecallFacts.

Import JSFacts ServiceSpec OpenAIService Engine MemorySpec MemoryFacts.




End RecallFacts.

(* ================================================================== *)
(** * Generating an answer: properties *)
(* ================================================================== *)

Module ChatFacts.

Import Enhancer JSFacts ServiceSpec ServiceFacts EnhancerSpec EnhancerFacts.
Import OpenAIService Engine MemorySpec MemoryFacts.
Import PromptEnhancer PromptSpec PromptFacts OpenAIChat ChatSpec.

(** ** The mock answers *)

Lemma mock_in_answers toLowerCase userMessage providedContext :
  In (generateMockResponse toLowerCase userMessage providedContext)
     mockAnswers.
Proof.
  unfold generateMockResponse, mockAnswers.
  repeat match goal with
         | |- context [if ?b then _ else _] => destruct b
         end; simpl; tauto.
Qed.

Lemma mockAnswers_long a : In a mockAnswers -> (200 <? length a) = true.
Proof.
  unfold mockAnswers. simpl.
  intros H; decompose [or] H; clear H; subst; try contradiction;
    vm_compute; reflexivity.
Qed.

Lemma mock_nonempty toLowerCase userMessage providedContext :
  generateMockResponse toLowerCase userMessage providedContext <> [].
Proof.
  pose proof (mockAnswers_long _ (mock_in_answers toLowerCase userMessage
                                                  providedContext)) as H.
  intros E. rewrite E in H. discriminate.
Qed.

(** X17: [generateMockResponse] answers with one of seven fixed texts,
    each longer than 200 code units, whatever the message and the
    context; so [enhanceResponse] returns a mock answer unchanged for
    every query. *)
Theorem mock_answer_substantial
        (toLowerCase toLowerCase' : jsstring -> jsstring)
        (userMessage q : jsstring) (providedContext : option jsstring) :
  In (generateMockResponse toLowerCase userMessage providedContext)
     mockAnswers
  /\ 200 < length (generateMockResponse toLowerCase userMessage
                                        providedContext)
  /\ enhanceResponse toLowerCase'
                     (generateMockResponse toLowerCase userMessage
                                           providedContext) q
     = VString (generateMockResponse toLowerCase userMessage providedContext).
Proof.
  pose proof (mock_in_answers toLowerCase userMessage providedContext) as Hin.
  pose proof (mockAnswers_long _ Hin) as Hlen.
  split; [exact Hin|]. split; [now apply Nat.ltb_lt|].
  now apply enhanceResponse_long.
Qed.

(** ** The chat request *)

Lemma contextToChat_bound (msg : ContextMessage) :
  length (chat_content (contextToChat msg)) <= 4023
  /\ firstn 4000 (chat_content (contextToChat msg))
     = firstn 4000 (opt_or (ctx_content msg) [])
  /\ (length (opt_or (ctx_content msg) []) <= 4000 ->
      chat_content (contextToChat msg) = opt_or (ctx_content msg) []).
Proof.
  unfold contextToChat. cbn [chat_content].
  set (content := opt_or (ctx_content msg) []).
  change MAX_CONTEXT_LENGTH with 4000.
  assert (Hmark : length truncation_mark = 23) by reflexivity.
  destruct (4000 <? length content) eqn:E.
  - apply Nat.ltb_lt in E. unfold substring0. repeat split.
    + rewrite length_app, length_firstn, Hmark. lia.
    + rewrite firstn_app, length_firstn.
      replace (4000 - Nat.min 4000 (length content)) with 0 by lia.
      rewrite firstn_firstn, Nat.min_id, firstn_O. now rewrite app_nil_r.
    + lia.
  - apply Nat.ltb_ge in E. repeat split. lia.
Qed.

Lemma chatMessages_shape
      (memoryContext enhancedPrompt : jsstring)
      (context : list ContextMessage) :
  let request := chatMessages memoryContext context enhancedPrompt in
  length request = length context + 2
  /\ hd_error request
     = Some (mkChatMessage
               (lit "system"%string)
               (system_prompt
                ++ (if truthy memoryContext
                    then newline ++ newline ++ memoryContext
                    else [])))
  /\ last request (mkChatMessage [] [])
     = mkChatMessage (lit "user"%string) enhancedPrompt
  /\ Forall2 (fun msg sent =>
                let content := opt_or (ctx_content msg) [] in
                chat_role sent
                = (if JS.eqb (ctx_sender msg) (lit "system"%string)
                   then lit "assistant"%string else lit "user"%string)
                /\ chat_content sent
                   = (if 4000 <? length content
                      then firstn 4000 content ++ truncation_mark
                      else content)
                /\ length (chat_content sent) <= 4023)
             context (firstn (length context) (tl request)).
Proof.
  intros request. subst request. unfold chatMessages.
  assert (Hmid : firstn (length context)
                        (map contextToChat context
                         ++ [mkChatMessage (lit "user"%string) enhancedPrompt])
                 = map contextToChat context).
  { rewrite firstn_app, length_map, Nat.sub_diag. simpl.
    rewrite app_nil_r. rewrite <- (length_map contextToChat) at 1.
    apply firstn_all. }
  cbn [tl hd_error]. rewrite Hmid.
  split; [simpl; rewrite length_app, length_map; simpl; lia|].
  split; [reflexivity|].
  split.
  { rewrite app_comm_cons. now rewrite last_last. }
  clear Hmid. induction context as [|msg context IH]; cbn [map];
    constructor; [|exact IH].
  cbv zeta. split; [reflexivity|]. split; [reflexivity|].
  exact (proj1 (contextToChat_bound msg)).
Qed.

(** ** Answers *)

Lemma sameStore_refl w : sameStore w w.
Proof. unfold sameStore. now repeat split. Qed.

Lemma sameStore_logged c w w' : sameStore w w' -> sameStore w (logged c w').
Proof. intros H. exact H. Qed.

Lemma sameStore_trans w1 w2 w3 :
  sameStore w1 w2 -> sameStore w2 w3 -> sameStore w1 w3.
Proof.
  intros (A1 & A2 & A3 & A4) (B1 & B2 & B3 & B4).
  repeat split; congruence.
Qed.

Lemma getRelevantMemory_store toLowerCase RegExp_i threadId userMessage w :
  sameStore w (snd (getRelevantMemory toLowerCase RegExp_i threadId
                                      userMessage w)).
Proof.
  rewrite getRelevantMemory_run.
  destruct (negb (shouldRecall _)); [(unfold sameStore; now repeat split)|].
  destruct (negb (truthy _)); [(unfold sameStore; now repeat split)|].
  destruct (RegExp_i _); [|(unfold sameStore; now repeat split)].
  destruct threadId; (unfold sameStore; now repeat split).
Qed.

Lemma recallMemory_store toLowerCase RegExp_i threadId userMessage w :
  sameStore w (snd (recallMemory toLowerCase RegExp_i threadId userMessage w)).
Proof.
  unfold recallMemory, bind.
  pose proof (getRelevantMemory_store toLowerCase RegExp_i
                                      (WellFormed threadId) userMessage w) as H.
  destruct (getRelevantMemory _ _ _ _ w) as [[l|e] w1]; exact H.
Qed.

Lemma enhancePrompt_store toLowerCase env userId query threadId w :
  sameStore w (snd (enhancePromptWithRAG toLowerCase env userId query
                                         threadId w))
  /\ exists p, fst (enhancePromptWithRAG toLowerCase env userId query
                                         threadId w) = Normal p.
Proof.
  destruct (enhancePromptWithRAG_run toLowerCase env userId query threadId w)
    as (before & H1 & H2 & _).
  split; [|eexists; exact H1].
  rewrite H2. destruct (searched _ _ _); (unfold sameStore; now repeat split).
Qed.

Lemma gatherContext_store toLowerCase RegExp_i env threadId userId userMessage
      providedContext w :
  sameStore w (snd (gatherContext toLowerCase RegExp_i env threadId userId
                                  userMessage providedContext w)).
Proof.
  unfold gatherContext.
  destruct (truthy_opt providedContext); [(unfold sameStore; now repeat split)|].
  assert (Hrecall :
    sameStore w
      (snd ((memoryContext <- recallMemory toLowerCase RegExp_i threadId
                                           userMessage ;;
             ret (userMessage, memoryContext))%js w))).
  { unfold bind.
    pose proof (recallMemory_store toLowerCase RegExp_i threadId userMessage w)
      as H.
    destruct (recallMemory _ _ _ _ w) as [[l|e] w1]; exact H. }
  destruct (isEnabled env && truthy userId); [|exact Hrecall].
  unfold try_catch, bind at 1.
  destruct (enhancePrompt_store toLowerCase env userId userMessage threadId w)
    as [Hs [p Hp]].
  destruct (enhancePromptWithRAG _ _ _ _ _ w) as [[p'|e] w1];
    cbn [fst snd] in *; [exact Hs|discriminate].
Qed.

Lemma indexAnswer_run env threadId userId response w :
  exists w', indexAnswer env threadId userId response w = (Normal tt, w')
             /\ sameStore w w'.
Proof.
  unfold indexAnswer.
  destruct (isEnabled env && truthy userId);
    [|eexists; split; [reflexivity|(unfold sameStore; now repeat split)]].
  unfold try_catch.
  destruct (20 <? length response);
    [|eexists; split; [reflexivity|(unfold sameStore; now repeat split)]].
  unfold bind. rewrite createEmbedding_run.
  destruct (apiUrl_set env);
    eexists; (split; [reflexivity|(unfold sameStore; now repeat split)]).
Qed.

Lemma generateResponse_run
      (toLowerCase : jsstring -> jsstring)
      (RegExp_i : jsstring -> option (jsstring -> bool))
      (env : Env) (client : Client) (threadId : oid)
      (userMessage : jsstring) (context : list ContextMessage)
      (providedContext : option jsstring) (w : World) :
  exists answer w',
    generateResponse toLowerCase RegExp_i env client threadId
                     userMessage context providedContext w
    = (Normal answer, w')
    /\ sameStore w w'
    /\ answer <> []
    /\ (answer = generateMockResponse toLowerCase userMessage providedContext
        \/ exists request content,
             complete client request = ChatReply content
             /\ answer = opt_or content no_completion).
Proof.
  unfold generateResponse, try_catch.
  destruct (useMockResponses client).
  { eexists; eexists. split; [reflexivity|].
    split; [apply sameStore_refl|]. split; [apply mock_nonempty|now left]. }
  unfold bind at 1.
  pose proof (gatherContext_store toLowerCase RegExp_i env threadId
                                  (contextUserId context) userMessage
                                  providedContext w) as Hg.
  destruct (gatherContext _ _ _ _ _ _ _ w) as [[[prompt memory]|e] w1];
    cbn [snd] in Hg.
  - destruct (complete client (chatMessages memory context prompt))
      as [content|] eqn:Hc.
    + unfold bind.
      destruct (indexAnswer_run env threadId (contextUserId context)
                                (opt_or content no_completion) w1)
        as (w2 & Hi & Hs).
      rewrite Hi. cbn [ret].
      eexists; eexists. split; [reflexivity|].
      split; [exact (sameStore_trans _ _ _ Hg Hs)|]. split.
      * destruct content as [c|]; cbn [opt_or];
          [apply or_else_nonempty|]; discriminate.
      * right. now exists (chatMessages memory context prompt), content.
    + cbn [throw ret].
      eexists; eexists. split; [reflexivity|].
      split; [exact Hg|]. split; [apply mock_nonempty|now left].
  - cbn [ret].
    eexists; eexists. split; [reflexivity|].
    split; [exact Hg|]. split; [apply mock_nonempty|now left].
Qed.

Lemma generateResponse_answer
      (toLowerCase : jsstring -> jsstring)
      (RegExp_i : jsstring -> option (jsstring -> bool))
      (env : Env) (client : Client) (threadId : oid)
      (userMessage : jsstring) (context : list ContextMessage)
      (providedContext : option jsstring) (w : World) :
  useMockResponses client = false ->
  fst (generateResponse toLowerCase RegExp_i env client threadId
                        userMessage context providedContext w)
  = Normal
      match gatherContext toLowerCase RegExp_i env threadId
                          (contextUserId context) userMessage
                          providedContext w with
      | (Normal (enhancedPrompt, memoryContext), _) =>
          match complete client
                         (chatMessages memoryContext context enhancedPrompt)
          with
          | ChatReply content => opt_or content no_completion
          | ChatThrows =>
              generateMockResponse toLowerCase userMessage providedContext
          end
      | (Throw _, _) =>
          generateMockResponse toLowerCase userMessage providedContext
      end.
Proof.
  intros Hm. unfold generateResponse, try_catch. rewrite Hm.
  unfold bind at 1.
  destruct (gatherContext _ _ _ _ _ _ _ w) as [[[prompt memory]|e] w1];
    [|reflexivity].
  destruct (complete client (chatMessages memory context prompt))
    as [content|]; [|reflexivity].
  unfold bind.
  destruct (indexAnswer_run env threadId (contextUserId context)
                            (opt_or content no_completion) w1)
    as (w2 & Hi & _).
  now rewrite Hi.
Qed.

(** X18: outside mock mode, with the prompt and the memory context
    gathered, the answer of [generateResponse] is what the chat endpoint
    replies to this request: the system message (the system prompt,
    followed after an empty line by the memory context when there is
    one), then one message per element of the context, in order, then
    the prompt as the user's message.  A context message becomes an
    ["assistant"] message when its sender is ["system"] and a ["user"]
    message otherwise; its text is sent whole up to 4000 code units,
    and as its first 4000 followed by ["... [content truncated]"]
    beyond that, so no context text sent exceeds 4023 code units. *)
Theorem chat_request_shape
        (toLowerCase : jsstring -> jsstring)
        (RegExp_i : jsstring -> option (jsstring -> bool))
        (env : Env) (client : Client) (threadId : oid)
        (userMessage : jsstring) (context : list ContextMessage)
        (providedContext : option jsstring) (w w1 : World)
        (enhancedPrompt memoryContext : jsstring) :
  useMockResponses client = false ->
  gatherContext toLowerCase RegExp_i env threadId (contextUserId context)
                userMessage providedContext w
  = (Normal (enhancedPrompt, memoryContext), w1) ->
  let request := chatMessages memoryContext context enhancedPrompt in
  fst (generateResponse toLowerCase RegExp_i env client threadId
                        userMessage context providedContext w)
  = Normal match complete client request with
           | ChatReply content => opt_or content no_completion
           | ChatThrows =>
               generateMockResponse toLowerCase userMessage providedContext
           end
  /\ length request = length context + 2
  /\ hd_error request
     = Some (mkChatMessage
               (lit "system"%string)
               (system_prompt
                ++ (if truthy memoryContext
                    then newline ++ newline ++ memoryContext
                    else [])))
  /\ last request (mkChatMessage [] [])
     = mkChatMessage (lit "user"%string) enhancedPrompt
  /\ Forall2 (fun msg sent =>
                let content := opt_or (ctx_content msg) [] in
                chat_role sent
                = (if JS.eqb (ctx_sender msg) (lit "system"%string)
                   then lit "assistant"%string else lit "user"%string)
                /\ chat_content sent
                   = (if 4000 <? length content
                      then firstn 4000 content ++ truncation_mark
                      else content)
                /\ length (chat_content sent) <= 4023)
             context (firstn (length context) (tl request)).
Proof.
  intros Hm Hg request. split.
  - rewrite generateResponse_answer by exact Hm. now rewrite Hg.
  - apply chatMessages_shape.
Qed.

Lemma chat_request_shape_witness :
  let request :=
    chatMessages (provided_heading ++ lit "likes IoT"%string) oneContext
                 (lit "tell me more"%string) in
  fst (generateResponse asciiToLowerCase sampleRegExp downEnv echoClient 1
                        (lit "tell me more"%string) oneContext
                        (Some (lit "likes IoT"%string)) dashboardWorld)
  = Normal (lit "tell me more"%string)
  /\ length request = 3
  /\ map chat_role request
     = [lit "system"%string; lit "user"%string; lit "user"%string].
Proof.
  destruct (chat_request_shape
              asciiToLowerCase sampleRegExp downEnv echoClient 1
              (lit "tell me more"%string) oneContext
              (Some (lit "likes IoT"%string)) dashboardWorld dashboardWorld
              (lit "tell me more"%string)
              (provided_heading ++ lit "likes IoT"%string)
              eq_refl eq_refl) as (H1 & H2 & _).
  split; [exact H1|]. split; [exact H2|reflexivity].
Defined.

(** X19: [generateResponse] always completes normally with a non-empty
    answer and never writes to the store.  In mock mode the answer is
    the mock answer and nothing at all happens.  Otherwise, when the
    prompt and the memory context are gathered, the chat endpoint is
    asked and decides: the answer is the text it replies with, the text
    ["I could not generate a response."] when the reply carries none,
    and the mock answer when the call throws; when gathering throws,
    the answer is the mock answer. *)
Theorem generateResponse_always_answers
        (toLowerCase : jsstring -> jsstring)
        (RegExp_i : jsstring -> option (jsstring -> bool))
        (env : Env) (client : Client) (threadId : oid)
        (userMessage : jsstring) (context : list ContextMessage)
        (providedContext : option jsstring) (w : World) :
  let run := generateResponse toLowerCase RegExp_i env client threadId
                              userMessage context providedContext w in
  let mock := generateMockResponse toLowerCase userMessage providedContext in
  exists answer,
    fst run = Normal answer
    /\ answer <> []
    /\ threads (snd run) = threads w
    /\ messages (snd run) = messages w
    /\ (if useMockResponses client then run = (Normal mock, w)
        else
          match gatherContext toLowerCase RegExp_i env threadId
                              (contextUserId context) userMessage
                              providedContext w with
          | (Normal (enhancedPrompt, memoryContext), _) =>
              match complete client
                             (chatMessages memoryContext context
                                           enhancedPrompt) with
              | ChatReply content => answer = opt_or content no_completion
              | ChatThrows => answer = mock
              end
          | (Throw _, _) => answer = mock
          end).
Proof.
  intros run mock.
  destruct (generateResponse_run toLowerCase RegExp_i env client threadId
                                 userMessage context providedContext w)
    as (answer & w' & Hrun & (A & B & _) & Hne & _).
  fold run in Hrun.
  exists answer. rewrite Hrun. cbn [fst snd].
  split; [reflexivity|]. split; [exact Hne|].
  split; [exact A|]. split; [exact B|].
  destruct (useMockResponses client) eqn:Hm.
  - rewrite <- Hrun. subst run. unfold generateResponse. now rewrite Hm.
  - pose proof (generateResponse_answer
                  toLowerCase RegExp_i env client threadId userMessage
                  context providedContext w Hm) as Ha.
    fold run in Ha. rewrite Hrun in Ha. cbn [fst] in Ha.
    injection Ha as Ha. fold mock in Ha.
    destruct (gatherContext _ _ _ _ _ _ _ w) as [[[prompt memory]|e] w1];
      [|exact Ha].
    now destruct (complete client (chatMessages memory context prompt)).
Qed.

(** ** Which collaborators a request reaches *)

Lemma indexAnswer_calls env threadId userId response w :
  exists w' extra,
    indexAnswer env threadId userId response w = (Normal tt, w')
    /\ calls w' = calls w ++ extra
    /\ existsb isRecall extra = false /\ length extra <= 1.
Proof.
  unfold indexAnswer.
  destruct (isEnabled env && truthy userId);
    [|exists w, []; rewrite app_nil_r; repeat split; simpl; lia].
  unfold try_catch.
  destruct (20 <? length response);
    [|exists w, []; rewrite app_nil_r; repeat split; simpl; lia].
  unfold bind. rewrite createEmbedding_run.
  destruct (apiUrl_set env).
  - eexists; eexists. split; [reflexivity|].
    split; [reflexivity|]. split; [reflexivity|simpl; lia].
  - exists w, []. rewrite app_nil_r. repeat split; simpl; lia.
Qed.

Lemma gatherContext_semantic toLowerCase RegExp_i env threadId userId
      userMessage providedContext w :
  truthy_opt providedContext || (isEnabled env && truthy userId) = true ->
  exists gathered w' extra,
    gatherContext toLowerCase RegExp_i env threadId userId userMessage
                  providedContext w = (Normal gathered, w')
    /\ calls w' = calls w ++ extra
    /\ existsb isRecall extra = false /\ length extra <= 1.
Proof.
  intros H. unfold gatherContext.
  destruct (truthy_opt providedContext).
  { eexists; exists w, []. rewrite app_nil_r.
    split; [reflexivity|]. repeat split; simpl; lia. }
  cbn [orb] in H. rewrite H.
  unfold try_catch, bind at 1.
  destruct (enhancePromptWithRAG_run toLowerCase env userId userMessage
                                     threadId w)
    as (before & H1 & H2 & _).
  destruct (enhancePromptWithRAG _ _ _ _ _ w) as [[p|e] w1];
    cbn [fst snd] in *; [|discriminate].
  eexists; exists w1.
  destruct (searched toLowerCase env userMessage); subst w1.
  - eexists. split; [reflexivity|].
    split; [reflexivity|]. split; [reflexivity|simpl; lia].
  - exists []. rewrite app_nil_r. split; [reflexivity|].
    repeat split; simpl; lia.
Qed.

(** X20: when context is provided with the request, or when the
    embedding service is enabled and the context names a user,
    [generateResponse] never runs the keyword search in the message
    collection: its fallback after a failed prompt enhancement is never
    taken, because [enhancePromptWithRAG] does not throw.  Such a request
    reaches the embedding server at most twice (one retrieval, one
    indexing of the answer). *)
Theorem semantic_path_never_recalls
        (toLowerCase : jsstring -> jsstring)
        (RegExp_i : jsstring -> option (jsstring -> bool))
        (env : Env) (client : Client) (threadId : oid)
        (userMessage : jsstring) (context : list ContextMessage)
        (providedContext : option jsstring) (w : World) :
  truthy_opt providedContext
  || (isEnabled env && truthy (contextUserId context)) = true ->
  exists extra,
    calls (snd (generateResponse toLowerCase RegExp_i env client threadId
                                 userMessage context providedContext w))
    = calls w ++ extra
    /\ existsb isRecall extra = false
    /\ length extra <= 2.
Proof.
  intros H. unfold generateResponse, try_catch.
  destruct (useMockResponses client).
  { exists []. cbn [ret snd]. rewrite app_nil_r. repeat split. simpl; lia. }
  unfold bind at 1.
  destruct (gatherContext_semantic toLowerCase RegExp_i env threadId
                                   (contextUserId context) userMessage
                                   providedContext w H)
    as ([prompt memory] & w1 & extra1 & Hg & Hc1 & Hr1 & Hl1).
  rewrite Hg.
  destruct (complete client (chatMessages memory context prompt))
    as [content|].
  - unfold bind.
    destruct (indexAnswer_calls env threadId (contextUserId context)
                                (opt_or content no_completion) w1)
      as (w2 & extra2 & Hi & Hc2 & Hr2 & Hl2).
    rewrite Hi. cbn [ret snd].
    exists (extra1 ++ extra2).
    rewrite Hc2, Hc1, <- app_assoc. split; [reflexivity|].
    rewrite existsb_app, Hr1, Hr2, length_app. split; [reflexivity|lia].
  - cbn [throw ret snd]. exists extra1. repeat split; try assumption. lia.
Qed.

Lemma semantic_path_never_recalls_witness :
  exists extra,
    calls (snd (generateResponse asciiToLowerCase sampleRegExp downEnv
                                 echoClient 1
                                 (lit "what did i say about iot?"%string)
                                 oneContext None dashboardWorld))
    = calls dashboardWorld ++ extra
    /\ existsb isRecall extra = false
    /\ length extra <= 2.
Proof.
  apply (semantic_path_never_recalls
           asciiToLowerCase sampleRegExp downEnv echoClient 1
           (lit "what did i say about iot?"%string) oneContext None
           dashboardWorld).
  reflexivity.
Defined.

(** X21: without provided context, and with the embedding service
    disabled or no user named by the context, a message that asks for a
    recall and whose keyword is not a regular expression makes
    [generateResponse] return the mock answer: the [SyntaxError] of the
    [RegExp] constructor escapes [getRelevantMemory] and is caught by the
    outer [try], so the chat endpoint is never asked, and nothing is
    logged or stored. *)
Theorem recall_syntax_error_gives_mock
        (toLowerCase : jsstring -> jsstring)
        (RegExp_i : jsstring -> option (jsstring -> bool))
        (env : Env) (client : Client) (threadId : oid)
        (userMessage : jsstring) (context : list ContextMessage)
        (providedContext : option jsstring) (w : World) :
  truthy_opt providedContext = false ->
  isEnabled env && truthy (contextUserId context) = false ->
  shouldRecall (toLowerCase userMessage) = true ->
  truthy (recallKeyword (toLowerCase userMessage)) = true ->
  RegExp_i (recallKeyword (toLowerCase userMessage)) = None ->
  generateResponse toLowerCase RegExp_i env client threadId userMessage
                   context providedContext w
  = (Normal (generateMockResponse toLowerCase userMessage providedContext), w).
Proof.
  intros Hp Hu Ht Hk Hr. unfold generateResponse, try_catch.
  destruct (useMockResponses client); [reflexivity|].
  unfold bind at 1. unfold gatherContext. rewrite Hp, Hu.
  unfold bind at 1. unfold recallMemory, bind at 1.
  rewrite getRelevantMemory_run, Ht, Hk, Hr. reflexivity.
Qed.

Lemma recall_syntax_error_gives_mock_witness :
  generateResponse asciiToLowerCase sampleRegExp downEnv echoClient 1
                   (lit "remind me ?"%string) [] None dashboardWorld
  = (Normal (generateMockResponse asciiToLowerCase
                                  (lit "remind me ?"%string) None),
     dashboardWorld).
Proof.
  apply (recall_syntax_error_gives_mock
           asciiToLowerCase sampleRegExp downEnv echoClient 1
           (lit "remind me ?"%string) [] None dashboardWorld);
    reflexivity.
Defined.

End ChatFacts.

(* ================================================================== *)
(** * Facts about the database connection and the entry point *)
(* ================================================================== *)

Module ConnectionFacts.

Import JS Connection ConnectionSpec.


Lemma connect_failed_mentions (detail : jsstring) :
  includes (connect_failed ++ detail) (lit "MongoDB"%string) = true.
Proof. reflexivity. Qed.

(** Every failure of [connectToDatabase] is an [Error] whose message
    starts with ["Failed to connect to MongoDB: "]. *)
Lemma connectToDatabase_cases (p : Platform) (s : Server) :
  (exists s', connectToDatabase p s = (Returns tt, s')
              /\ readyState s' = 1 /\ dbConnected s' = dbConnected s
              /\ attempts s' <= attempts s + 1)
  \/ (exists detail s',
         connectToDatabase p s
         = (Throws (ErrorObject (connect_failed ++ detail)), s')
         /\ isConnected s' = false /\ dbConnected s' = dbConnected s
         /\ attempts s' <= attempts s + 1).
Proof.
  unfold connectToDatabase.
  destruct (readyState s =? 1) eqn:Hr.
  { left. exists s. apply Nat.eqb_eq in Hr. repeat split; [exact Hr|lia]. }
  unfold tryConnect.
  destruct (negb (truthy_opt (mongodbUri p))).
  { right. exists uri_missing. eexists. split; [reflexivity|].
    cbn. repeat split. lia. }
  destruct (mongooseConnect p _ _) as [|error].
  - left. eexists. split; [reflexivity|]. cbn. repeat split. lia.
  - right. exists (messageOf error). eexists. split; [reflexivity|].
    cbn. repeat split. lia.
Qed.

Lemma handler_cases (p : Platform) (req : Request) (s : Server) :
  (exists s', handler p req s = (Dispatched (app p req), s')
              /\ handler_mjs p req s = (Dispatched (app p req), s')
              /\ dbConnected s' = true
              /\ attempts s' <= attempts s + 1)
  \/ (exists detail s',
         handler p req s
         = (Answered 503 (Some (connect_failed ++ detail)), s')
         /\ handler_mjs p req s = (Answered 500 None, s')
         /\ dbConnected s' = false
         /\ attempts s' <= attempts s + 1).
Proof.
  unfold handler, handler_mjs, ensureDbConnection.
  destruct (dbConnected s) eqn:Hd; cbn [negb].
  { left. exists s. repeat split; [exact Hd|lia]. }
  destruct (connectToDatabase_cases p s)
    as [(s' & -> & _ & Hs & Ha)|(detail & s' & -> & _ & Hs & Ha)].
  - left. eexists. repeat split. exact Ha.
  - right. exists detail, s'. cbn [messageOf].
    rewrite connect_failed_mentions. repeat split; [congruence|exact Ha].
Qed.

(** X22: [handler] of api/index.ts either hands the request to the
    Express application, and then the process is marked connected, or
    answers 503 with a message that starts with
    ["Failed to connect to MongoDB: "] and leaves the process unmarked.
    It never answers 500: whatever makes the connection fail, a missing
    URI included, [connectToDatabase] wraps it in a message that
    mentions MongoDB.  [handler] of api/index.mjs takes the same branch
    in the same state, and answers the failure with 500 and no
    message. *)
Theorem handler_failure_is_503
        (p : Platform) (req : Request) (s : Server) :
  match handler p req s with
  | (Dispatched failure, s') =>
      failure = app p req /\ dbConnected s' = true
      /\ handler_mjs p req s = (Dispatched failure, s')
  | (Answered status message, s') =>
      status = 503 /\ dbConnected s' = false
      /\ (exists detail, message = Some (connect_failed ++ detail))
      /\ handler_mjs p req s = (Answered 500 None, s')
  end.
Proof.
  destruct (handler_cases p req s)
    as [(s' & -> & Hm & Hd & _)|(detail & s' & -> & Hm & Hd & _)].
  - now repeat split.
  - repeat split; try assumption. now exists detail.
Qed.




(** X24: [withDatabase] runs the operation only on an open connection.
    When the connection cannot be opened the operation does not run, and
    the error thrown is the one of [connectToDatabase]; an error of the
    operation itself is passed on unchanged, as is its result. *)
Theorem withDatabase_guards_operation
        (T : Type) (p : Platform)
        (operation : Server -> Outcome T * Server) (s : Server) :
  (exists s1, connectToDatabase p s = (Returns tt, s1)
              /\ readyState s1 = 1
              /\ withDatabase p operation s = operation s1)
  \/ (exists detail s1,
         withDatabase p operation s
         = (Throws (ErrorObject (connect_failed ++ detail)), s1)
         /\ connectToDatabase p s
            = (Throws (ErrorObject (connect_failed ++ detail)), s1)
         /\ isConnected s1 = false).
Proof.
  unfold withDatabase.
  destruct (connectToDatabase_cases p s)
    as [(s' & -> & Hr & _)|(detail & s' & -> & Hc & _)].
  - left. exists s'. repeat split; [exact Hr|].
    now destruct (operation s') as [[r|e] s2].
  - right. exists detail, s'. now repeat split.
Qed.

End ConnectionFacts.

(* ================================================================== *)
(** * Facts about a turn on a store that can fail *)
(* ================================================================== *)

Module TurnFaultsFacts.

Import Enhancer JSFacts ServiceSpec ServiceFacts EnhancerSpec.
Import Routes TurnSpec TurnFacts StoreFacts TurnFaults TurnFaultsSpec.

(** ** The flattened turn *)

Lemma faulty_resolveThread_run faults threadId userId content w :
  TurnFaults.resolveThread faults threadId userId content w
  = faultyResolve faults threadId userId content w.
Proof.
  unfold TurnFaults.resolveThread, faultyResolve, storeOp.
  destruct threadId as [[tid|]|]; [| reflexivity |].
  - unfold bind. destruct (findByIdFails faults); [reflexivity|].
    now destruct (findThreadById tid w).
  - unfold bind at 1. destruct (findOneFails faults); [reflexivity|].
    destruct (findActiveThread userId w); [reflexivity|].
    unfold bind. now destruct (createFails faults).
Qed.

Lemma faulty_createTurn_run faults toLowerCase env threadId content userId
      files w :
  truthy content = true -> truthy userId = true ->
  threadId <> Some Malformed ->
  TurnFaults.createTurn faults toLowerCase env
                        (mkTurnRequest threadId (Some content) (Some userId)
                                       files) w
  = if connectFails faults then (Throw PersistenceError, w)
    else
      match faultyResolve faults threadId userId content w with
      | (Normal tid, w1) =>
          faultyOutcome faults toLowerCase env userId content
                        (files_or_empty files) tid w1
      | (Throw e, w1) => (Throw e, w1)
      end.
Proof.
  intros Hc Hu Hv. unfold TurnFaults.createTurn, files_or_empty.
  cbn [req_content req_userId req_threadId req_files truthy_opt opt_or].
  assert (Eu : or_else userId [] = userId) by (unfold or_else; now rewrite Hu).
  rewrite Hc, Hu, Eu. cbn [negb].
  replace (match threadId with
           | Some t => negb (isValid t)
           | None => false
           end) with false
    by (destruct threadId as [[|]|]; simpl; congruence).
  unfold bind at 1. unfold storeOp at 1.
  destruct (connectFails faults); [reflexivity|]. cbn [ret].
  unfold bind at 1. rewrite faulty_resolveThread_run.
  destruct (faultyResolve faults threadId userId content w) as [[tid|e] w1];
    [|reflexivity].
  unfold faultyOutcome, bind. unfold storeOp at 1.
  destruct (saveUserFails faults); [reflexivity|]. cbn [orb].
  unfold saveMessage at 1.
  destruct (messageAccepted env _); [|reflexivity]. cbn [negb].
  rewrite indexMessage_run, fetchRag_run. cbn [message_id instantiate].
  fold (saved (mkDraft tid content userId
                       match files with Some fs => fs | None => [] end) w1).
  destruct (ragFields _) as [[a c] r].
  destruct (enhanceResponse toLowerCase (or_else a no_response) content)
    as [s| |n]; try reflexivity.
  cbn [asString ret]. unfold storeOp at 1.
  destruct (saveAnswerFails faults); [reflexivity|]. cbn [orb].
  unfold saveMessage at 1.
  destruct (messageAccepted env _); [|reflexivity]. cbn [negb].
  rewrite indexMessage_run. unfold storeOp.
  now destruct (updateFails faults).
Qed.

(** Without faults the turn is the turn of [Routes]. *)
Lemma createTurn_without_faults toLowerCase env req w :
  TurnFaults.createTurn noFaults toLowerCase env req w
  = Routes.createTurn toLowerCase env req w.
Proof.
  destruct req as [threadId [content|] userId files]; [|reflexivity].
  destruct (truthy content) eqn:Hc;
    [|unfold TurnFaults.createTurn, Routes.createTurn; cbn [req_content];
      now rewrite Hc].
  destruct userId as [userId|];
    [|unfold TurnFaults.createTurn, Routes.createTurn;
      cbn [req_content req_userId truthy_opt negb]; now rewrite Hc].
  destruct (truthy userId) eqn:Hu;
    [|unfold TurnFaults.createTurn, Routes.createTurn;
      cbn [req_content req_userId truthy_opt negb]; now rewrite Hc, Hu].
  destruct threadId as [[tid|]|].
  - rewrite faulty_createTurn_run, createTurn_run by (assumption || discriminate).
    cbn [noFaults connectFails faultyResolve findByIdFails].
    unfold Routes.resolveThread.
    destruct (findThreadById tid w); [|reflexivity].
    unfold faultyOutcome, turnOutcome. cbn [noFaults saveUserFails orb].
    destruct (messageAccepted env _); [|reflexivity]. cbn [negb].
    destruct (ragFields _) as [[a c] r].
    destruct (enhanceResponse _ _ _); try reflexivity.
    cbn [saveAnswerFails orb updateFails].
    now destruct (messageAccepted env _).
  - unfold TurnFaults.createTurn, Routes.createTurn.
    cbn [req_content req_userId req_threadId truthy_opt isValid negb].
    now rewrite Hc, Hu.
  - rewrite faulty_createTurn_run, createTurn_run by (assumption || discriminate).
    cbn [noFaults connectFails faultyResolve findOneFails createFails].
    unfold Routes.resolveThread.
    destruct (findActiveThread userId w).
    + unfold faultyOutcome, turnOutcome. cbn [noFaults saveUserFails orb].
      destruct (messageAccepted env _); [|reflexivity]. cbn [negb].
      destruct (ragFields _) as [[a c] r].
      destruct (enhanceResponse _ _ _); try reflexivity.
      cbn [saveAnswerFails orb updateFails].
      now destruct (messageAccepted env _).
    + unfold bind, createThread, ret. cbn [thread_id].
      fold (created userId (threadTitle content) w).
      unfold faultyOutcome, turnOutcome. cbn [noFaults saveUserFails orb].
      destruct (messageAccepted env _); [|reflexivity]. cbn [negb].
      destruct (ragFields _) as [[a c] r].
      destruct (enhanceResponse _ _ _); try reflexivity.
      cbn [saveAnswerFails orb updateFails].
      now destruct (messageAccepted env _).
Qed.

(** ** Case analysis *)

Lemma faulty_createTurn_cases faults toLowerCase env req w
      (P : Completion TurnResponse * World -> Prop) :
  (forall msg, P (Throw (ValidationError msg), w)) ->
  (forall threadId content userId files,
      req = mkTurnRequest threadId (Some content) (Some userId) files ->
      truthy content = true -> truthy userId = true ->
      threadId <> Some Malformed ->
      P (if connectFails faults then (Throw PersistenceError, w)
         else
           match faultyResolve faults threadId userId content w with
           | (Normal tid, w1) =>
               faultyOutcome faults toLowerCase env userId content
                             (files_or_empty files) tid w1
           | (Throw e, w1) => (Throw e, w1)
           end)) ->
  P (TurnFaults.createTurn faults toLowerCase env req w).
Proof.
  intros Pv Pr.
  destruct req as [threadId [content|] userId files]; [|apply Pv].
  destruct (truthy content) eqn:Hc;
    [|unfold TurnFaults.createTurn; cbn [req_content]; rewrite Hc; apply Pv].
  destruct userId as [userId|];
    [|unfold TurnFaults.createTurn;
      cbn [req_content req_userId truthy_opt negb]; rewrite Hc; apply Pv].
  destruct (truthy userId) eqn:Hu;
    [|unfold TurnFaults.createTurn;
      cbn [req_content req_userId truthy_opt negb]; rewrite Hc, Hu;
      apply Pv].
  assert (Hbad : threadId = Some Malformed \/ threadId <> Some Malformed)
    by (destruct threadId as [[i|]|]; (now left) || (right; discriminate)).
  destruct Hbad as [->|Hok].
  { unfold TurnFaults.createTurn.
    cbn [req_content req_userId req_threadId truthy_opt].
    rewrite Hc, Hu. apply Pv. }
  rewrite faulty_createTurn_run by assumption.
  now apply (Pr threadId content userId files).
Qed.

Lemma faultyResolve_cases faults threadId userId content w
      (P : Completion oid * World -> Prop) :
  threadId <> Some Malformed ->
  P (Throw PersistenceError, w) ->
  (forall tid, threadId = Some (WellFormed tid) ->
               findThreadById tid w = None ->
               P (Throw thread_not_found, w)) ->
  (forall thread, In thread (threads w) -> P (Normal (thread_id thread), w)) ->
  (threadId = None ->
   P (Normal (nextId w), created userId (threadTitle content) w)) ->
  P (faultyResolve faults threadId userId content w).
Proof.
  intros Hok Pp Pn Pf Pc. unfold faultyResolve.
  destruct threadId as [[tid|]|]; [|congruence|].
  - destruct (findByIdFails faults); [exact Pp|].
    destruct (findThreadById tid w) as [t|] eqn:E.
    + apply find_some_pred in E as [Hin Hid]. apply Nat.eqb_eq in Hid.
      subst tid. now apply Pf.
    + now apply (Pn tid).
  - destruct (findOneFails faults); [exact Pp|].
    destruct (findActiveThread userId w) as [t|] eqn:E.
    + apply Pf. unfold findActiveThread in E.
      pose proof (fold_newer_spec
                    (filter (fun t => JS.eqb (thread_userId t) userId
                                      && thread_isActive t) (threads w))
                    None) as S.
      rewrite E in S. destruct S as ([S|S] & _); [discriminate|].
      now apply filter_In in S as [S _].
    + destruct (createFails faults); [exact Pp|]. now apply Pc.
Qed.

Lemma faultyOutcome_cases faults toLowerCase env userId content files tid w1
      (P : Completion TurnResponse * World -> Prop) :
  let userMessage := userMessageOf tid content userId files w1 in
  P (Throw PersistenceError, w1) ->
  (forall e w3,
      e = PersistenceError \/ e = TypeError ->
      messages w3 = messages w1 ++ [userMessage] ->
      threads w3 = threads w1 ->
      P (Throw e, w3)) ->
  (forall aiMessage w5,
      updateFails faults = true ->
      messages w5 = messages w1 ++ [userMessage; aiMessage] ->
      threads w5 = threads w1 ->
      message_sender aiMessage = lit "system"%string ->
      message_threadId aiMessage = tid ->
      P (Throw PersistenceError, w5)) ->
  (forall s c r aiMessage w',
      s <> [] ->
      messages w' = messages w1 ++ [userMessage; aiMessage] ->
      map thread_id (threads w') = map thread_id (threads w1) ->
      message_content aiMessage = s ->
      message_sender aiMessage = lit "system"%string ->
      message_threadId aiMessage = tid ->
      P (Normal (mkTurnResponse s c r tid (nextId w1)), w')) ->
  P (faultyOutcome faults toLowerCase env userId content files tid w1).
Proof.
  intros userMessage P1 P2 P3 P4. unfold faultyOutcome.
  destruct (saveUserFails faults || negb (messageAccepted env _));
    [exact P1|].
  destruct (ragFields _) as [[a c] r].
  assert (Hm3 : messages (fetched env userId content None
                            (indexed env userId content tid (nextId w1)
                               (saved (mkDraft tid content userId files) w1)))
                = messages w1 ++ [userMessage]).
  { now rewrite messages_fetched, messages_indexed. }
  assert (Ht3 : threads (fetched env userId content None
                            (indexed env userId content tid (nextId w1)
                               (saved (mkDraft tid content userId files) w1)))
                = threads w1).
  { now rewrite threads_fetched, threads_indexed. }
  destruct (enhanceResponse toLowerCase (or_else a no_response) content)
    as [s| |n] eqn:E; try (apply P2; [now right|exact Hm3|exact Ht3]).
  destruct (saveAnswerFails faults || negb (messageAccepted env _));
    [apply P2; [now left|exact Hm3|exact Ht3]|].
  set (w3 := fetched env userId content None
               (indexed env userId content tid (nextId w1)
                  (saved (mkDraft tid content userId files) w1))) in *.
  set (aiMessage := instantiate (nextId w3) (now w3)
                                (mkDraft tid s (lit "system"%string) [])).
  assert (Hm5 : messages (indexed env userId s tid (nextId w3)
                            (saved (mkDraft tid s (lit "system"%string) [])
                                   w3))
                = messages w1 ++ [userMessage; aiMessage]).
  { rewrite messages_indexed. cbn [saved messages]. rewrite Hm3.
    now rewrite <- app_assoc. }
  assert (Ht5 : threads (indexed env userId s tid (nextId w3)
                            (saved (mkDraft tid s (lit "system"%string) [])
                                   w3))
                = threads w1).
  { rewrite threads_indexed. cbn [saved threads]. exact Ht3. }
  destruct (updateFails faults) eqn:Hup.
  - now apply (P3 aiMessage).
  - apply (P4 s c r aiMessage).
    + eapply enhanceResponse_nonempty; [|exact E].
      apply or_else_nonempty, no_response_nonempty.
    + cbn [touched messages]. exact Hm5.
    + cbn [touched threads]. rewrite Ht5, map_map.
      apply map_ext. intros t. unfold touch.
      now destruct (thread_id t =? tid).
    + reflexivity.
    + reflexivity.
    + reflexivity.
Qed.

(** ** Outcomes of a turn *)


(** ** No rollback *)

(** X10: there is no compensating rollback.  When a turn throws, what
    it wrote before stays: nothing; or the user message, stored with the
    content and the sender of the request in a thread that exists; or
    the user message and the assistant message after it, which happens
    only when the final update of the thread's timestamp is rejected.  A
    turn stopped by the TypeError of an answer that is no string has
    stored exactly the user message. *)
Theorem failed_turn_keeps_writes
        (faults : Faults) (toLowerCase : jsstring -> jsstring) (env : Env)
        (threadId : option rawId) (content userId : jsstring)
        (files : option (list jsstring)) (w w' : World) (e : Exception) :
  TurnFaults.createTurn faults toLowerCase env
                        (mkTurnRequest threadId (Some content) (Some userId)
                                       files) w
  = (Throw e, w') ->
  exists written,
    messages w' = messages w ++ writtenMessages written
    /\ match written with
       | WroteNothing => True
       | WroteUserMessage userMessage =>
           message_content userMessage = content
           /\ message_sender userMessage = userId
           /\ exists thread,
                findThreadById (message_threadId userMessage) w' = Some thread
       | WroteBoth userMessage aiMessage =>
           message_content userMessage = content
           /\ message_sender userMessage = userId
           /\ (exists thread,
                  findThreadById (message_threadId userMessage) w'
                  = Some thread)
           /\ message_sender aiMessage = lit "system"%string
           /\ message_threadId aiMessage = message_threadId userMessage
           /\ updateFails faults = true
           /\ e = PersistenceError
       end
    /\ (e = TypeError -> exists userMessage,
                           written = WroteUserMessage userMessage).
Proof.
  intros Hrun.
  assert (Hnone : forall e0 : Exception,
             e0 <> TypeError ->
             (Throw (A:=TurnResponse) e0, w) = (Throw e, w') ->
             exists written,
               messages w' = messages w ++ writtenMessages written
               /\ match written with
                  | WroteNothing => True
                  | WroteUserMessage userMessage =>
                      message_content userMessage = content
                      /\ message_sender userMessage = userId
                      /\ exists thread,
                           findThreadById (message_threadId userMessage) w'
                           = Some thread
                  | WroteBoth userMessage aiMessage =>
                      message_content userMessage = content
                      /\ message_sender userMessage = userId
                      /\ (exists thread,
                             findThreadById (message_threadId userMessage) w'
                             = Some thread)
                      /\ message_sender aiMessage = lit "system"%string
                      /\ message_threadId aiMessage
                         = message_threadId userMessage
                      /\ updateFails faults = true
                      /\ e = PersistenceError
                  end
               /\ (e = TypeError -> exists userMessage,
                                      written = WroteUserMessage userMessage)).
  { intros e0 Hne [= <- <-]. exists WroteNothing.
    cbn [writtenMessages]. rewrite app_nil_r.
    split; [reflexivity|]. split; [exact I|]. intros ->. contradiction. }
  assert (Hturn : forall tid w1,
             messages w1 = messages w ->
             (exists t, In t (threads w1) /\ thread_id t = tid) ->
             faultyOutcome faults toLowerCase env userId content
                           (files_or_empty files) tid w1 = (Throw e, w') ->
             exists written,
               messages w' = messages w ++ writtenMessages written
               /\ match written with
                  | WroteNothing => True
                  | WroteUserMessage userMessage =>
                      message_content userMessage = content
                      /\ message_sender userMessage = userId
                      /\ exists thread,
                           findThreadById (message_threadId userMessage) w'
                           = Some thread
                  | WroteBoth userMessage aiMessage =>
                      message_content userMessage = content
                      /\ message_sender userMessage = userId
                      /\ (exists thread,
                             findThreadById (message_threadId userMessage) w'
                             = Some thread)
                      /\ message_sender aiMessage = lit "system"%string
                      /\ message_threadId aiMessage
                         = message_threadId userMessage
                      /\ updateFails faults = true
                      /\ e = PersistenceError
                  end
               /\ (e = TypeError -> exists userMessage,
                                      written = WroteUserMessage userMessage)).
  { intros tid w1 Hm (t & Hin & Hid).
    assert (Hthread : forall w2, threads w2 = threads w1 ->
                                 exists thread,
                                   findThreadById tid w2 = Some thread).
    { intros w2 Ht. unfold findThreadById. rewrite Ht.
      exact (find_In_some tid t (threads w1) Hin Hid). }
    apply faultyOutcome_cases.
    - intros [= <- <-]. exists WroteNothing.
      cbn [writtenMessages]. rewrite app_nil_r.
      split; [exact Hm|]. split; [exact I|discriminate].
    - intros e0 w3 _ Hm3 Ht3 [= -> ->].
      exists (WroteUserMessage
                (userMessageOf tid content userId (files_or_empty files) w1)).
      cbn [writtenMessages]. rewrite Hm3, Hm.
      split; [reflexivity|]. split.
      + split; [reflexivity|]. split; [reflexivity|]. now apply Hthread.
      + intros _. eexists. reflexivity.
    - intros am w5 Hup Hm5 Ht5 Hs Htid [= <- <-].
      exists (WroteBoth
                (userMessageOf tid content userId (files_or_empty files) w1)
                am).
      cbn [writtenMessages]. rewrite Hm5, Hm.
      split; [reflexivity|]. split; [|discriminate].
      split; [reflexivity|]. split; [reflexivity|].
      split; [now apply Hthread|]. split; [exact Hs|].
      split; [exact Htid|]. now split.
    - intros s c r am w2 _ _ _ _ _ _. discriminate. }
  revert Hrun. apply faulty_createTurn_cases.
  - intros msg. apply Hnone. discriminate.
  - intros threadId' content' userId' files' [= <- <- <- <-] Hc Hu Hok.
    destruct (connectFails faults); [apply Hnone; discriminate|].
    apply faultyResolve_cases; try assumption.
    + apply Hnone. discriminate.
    + intros tid _ _. apply Hnone. discriminate.
    + intros thread Hin. apply Hturn; [reflexivity|]. now exists thread.
    + intros _. apply Hturn; [reflexivity|].
      eexists. split; [cbn [created threads]; apply in_or_app; right; now left|].
      reflexivity.
Qed.

Lemma failed_turn_keeps_writes_witness :
  exists userMessage aiMessage w',
    TurnFaults.createTurn updateFault Engine.asciiToLowerCase offlineEnv
                          helloRequest emptyWorld
    = (Throw PersistenceError, w')
    /\ messages w' = [userMessage; aiMessage]
    /\ message_content userMessage = lit "Hello"%string
    /\ message_sender aiMessage = lit "system"%string.
Proof.
  destruct (TurnFaults.createTurn updateFault Engine.asciiToLowerCase
                                  offlineEnv helloRequest emptyWorld)
    as [[resp|e] w'] eqn:Hrun; [vm_compute in Hrun; discriminate|].
  destruct (failed_turn_keeps_writes
              updateFault Engine.asciiToLowerCase offlineEnv None
              (lit "Hello"%string) (lit "u1"%string) None emptyWorld w' e
              Hrun)
    as ([|um|um am] & Hm & Hw & _).
  - vm_compute in Hrun. injection Hrun as _ <-. discriminate.
  - vm_compute in Hrun. injection Hrun as _ <-. discriminate.
  - destruct Hw as (Hc & _ & _ & Hs & _ & _ & ->).
    exists um, am, w'. split; [reflexivity|]. split; [exact Hm|].
    split; [exact Hc|exact Hs].
Defined.

(** ** A turn on a named thread *)

(** X2: with a well-formed thread id in the request, and the store
    reachable for the lookup, [POST /] throws NotFoundError
    ["Thread not found"] and changes nothing when no thread has that
    id; otherwise it works on that thread, whoever owns it: it creates
    no thread, a completed turn answers with that thread id and has
    stored the user message, under the sender of the request, and the
    assistant message in that thread, and a turn that throws does so
    for a rejected store operation or an answer that is no string,
    never for the owner. *)
Theorem turn_by_thread_id
        (faults : Faults) (toLowerCase : jsstring -> jsstring) (env : Env)
        (tid : oid) (content userId : jsstring)
        (files : option (list jsstring)) (w : World) :
  truthy content = true ->
  truthy userId = true ->
  connectFails faults = false ->
  findByIdFails faults = false ->
  match findThreadById tid w with
  | None =>
      TurnFaults.createTurn faults toLowerCase env
                            (mkTurnRequest (Some (WellFormed tid))
                                           (Some content) (Some userId) files)
                            w
      = (Throw thread_not_found, w)
  | Some thread =>
      match TurnFaults.createTurn faults toLowerCase env
                                  (mkTurnRequest (Some (WellFormed tid))
                                                 (Some content) (Some userId)
                                                 files) w with
      | (Normal resp, w') =>
          resp_threadId resp = tid
          /\ map thread_id (threads w') = map thread_id (threads w)
          /\ exists userMessage aiMessage,
               messages w' = messages w ++ [userMessage; aiMessage]
               /\ message_threadId userMessage = tid
               /\ message_sender userMessage = userId
               /\ message_id userMessage = resp_messageId resp
               /\ message_threadId aiMessage = tid
               /\ message_sender aiMessage = lit "system"%string
      | (Throw e, w') =>
          (e = PersistenceError \/ e = TypeError)
          /\ threads w' = threads w
      end
  end.
Proof.
  intros Hc Hu Hcon Hfind.
  rewrite faulty_createTurn_run by (assumption || discriminate).
  rewrite Hcon. cbn [faultyResolve]. rewrite Hfind.
  destruct (findThreadById tid w) as [thread|]; [|reflexivity].
  apply faultyOutcome_cases.
  - split; [now left|reflexivity].
  - intros e w3 He _ Ht3. now split.
  - intros am w5 _ _ Ht5 _ _. split; [now left|exact Ht5].
  - intros s c r am w' _ Hm Ht _ Hs Htid. cbn [resp_threadId resp_messageId].
    split; [reflexivity|]. split; [exact Ht|].
    eexists _, am. split; [exact Hm|]. now repeat split.
Qed.

Lemma turn_by_thread_id_witness :
  exists thread resp w' userMessage aiMessage,
    findThreadById 0 oneThread = Some thread
    /\ thread_userId thread = lit "u1"%string
    /\ TurnFaults.createTurn noFaults Engine.asciiToLowerCase offlineEnv
                             foreignRequest oneThread
       = (Normal resp, w')
    /\ resp_threadId resp = 0
    /\ messages w' = messages oneThread ++ [userMessage; aiMessage]
    /\ message_threadId userMessage = 0
    /\ message_sender userMessage = lit "u2"%string.
Proof.
  pose proof (turn_by_thread_id
                noFaults Engine.asciiToLowerCase offlineEnv 0
                (lit "Hello"%string) (lit "u2"%string) None oneThread
                eq_refl eq_refl eq_refl eq_refl) as H.
  change (findThreadById 0 oneThread)
    with (Some (mkThread 0 (lit "u1"%string) (lit "first"%string) true
                         (lit "u1"%string) 1 5)) in H.
  cbv beta iota in H.
  fold foreignRequest in H.
  destruct (TurnFaults.createTurn noFaults Engine.asciiToLowerCase offlineEnv
                                  foreignRequest oneThread)
    as [[resp|e] w'] eqn:Hrun; [|vm_compute in Hrun; discriminate].
  destruct H as (Ht & _ & um & am & Hm & Hut & Hus & _).
  eexists _, resp, w', um, am.
  split; [reflexivity|]. split; [reflexivity|]. split; [reflexivity|].
  split; [exact Ht|]. split; [exact Hm|]. split; [exact Hut|exact Hus].
Defined.

End TurnFaultsFacts.
